(** * openclaw-mt: tenant isolation core, shallow embedding and proofs

    Part I embeds the TypeScript sources, one module per source file:
    - [Js]         the string primitives the sources rely on
    - [Protocol]   gateway/protocol error shapes, gateway client records
    - [MethodAuth] gateway/method-auth.ts
    - [Terminal]   gateway/server-methods/terminal.ts
    - [SessionKey] routing/session-key.ts
    - [HttpUtils]  gateway/http-utils and the chat-completions endpoint
    - [Path]       node:path (POSIX)
    - [Tenants]    tenants/types.ts, tenants/paths.ts, tenants/registry.ts
    - [Usage]      tenants/usage.ts
    - [Backup]     tenants/backup.ts (archive extraction)

    Part II states and proves the properties, in modules named after the
    subject: [JsFacts], [AuthFacts], [TerminalFacts], [SessionKeyFacts],
    [HttpFacts], [PathFacts], [TenantFacts], [UsageFacts], [BackupFacts],
    then [AuthProps], [TerminalProps], [SessionKeyProps], [PathProps],
    [ExtractionFacts], [TenantPathProps], [RegistryProps],
    [LifecycleProps], [HandlerProps], [UsageProps].

    JavaScript strings are modelled as [string]; every character stands
    for one UTF-16 code unit below 256, which is the range in which all
    identifiers, method names and path separators of the sources live.
    Numbers that count or stamp time are integers.  A handler that reads
    the clock is given one reading for the whole call.  Files are typed
    documents and the disk takes every write; see [Tenants.FileData] and
    [Tenants.World] for what that leaves out. *)

From Stdlib Require Import ZArith NArith QArith Ascii String List Bool Lia DecimalString.
From stdpp Require Import base gmap strings list.
Import ListNotations.
Open Scope string_scope.

(* ===================================================================== *)
(** * JavaScript string primitives *)
(* ===================================================================== *)

Module Js.

Definition codeUnit (c : ascii) : N := N_of_ascii c.

Definition inRange (lo hi : N) (c : ascii) : bool :=
  (lo <=? codeUnit c)%N && (codeUnit c <=? hi)%N.

(** WhiteSpace and LineTerminator code units stripped by [String.prototype.trim]. *)
Definition isWhiteSpace (c : ascii) : bool :=
  inRange 9 13 c || (codeUnit c =? 32)%N || (codeUnit c =? 160)%N.

(** [toLowerCase] on one code unit: A-Z and the Latin-1 capitals. *)
Definition lowerChar (c : ascii) : ascii :=
  if inRange 65 90 c || inRange 192 214 c || inRange 216 222 c
  then ascii_of_N (codeUnit c + 32)
  else c.

Fixpoint toLowerCase (s : string) : string :=
  match s with
  | EmptyString => EmptyString
  | String c s' => String (lowerChar c) (toLowerCase s')
  end.

(** Drop the longest prefix, resp. suffix, of characters satisfying [p]. *)
Fixpoint dropStartWhile (p : ascii -> bool) (s : string) : string :=
  match s with
  | EmptyString => EmptyString
  | String c s' => if p c then dropStartWhile p s' else s
  end.

Definition isEmpty (s : string) : bool :=
  match s with EmptyString => true | _ => false end.

Fixpoint dropEndWhile (p : ascii -> bool) (s : string) : string :=
  match s with
  | EmptyString => EmptyString
  | String c s' =>
      let t := dropEndWhile p s' in
      if p c && isEmpty t then EmptyString else String c t
  end.

Definition trim (s : string) : string :=
  dropEndWhile isWhiteSpace (dropStartWhile isWhiteSpace s).

Fixpoint startsWith (p s : string) : bool :=
  match p, s with
  | EmptyString, _ => true
  | String a p', String b s' => Ascii.eqb a b && startsWith p' s'
  | String _ _, EmptyString => false
  end.

(** [s.includes(sub)] *)
Fixpoint includes (sub s : string) : bool :=
  startsWith sub s ||
  match s with
  | EmptyString => false
  | String _ s' => includes sub s'
  end.

(** [s.endsWith(suf)] *)
Fixpoint endsWith (suf s : string) : bool :=
  String.eqb s suf ||
  match s with
  | EmptyString => false
  | String _ s' => endsWith suf s'
  end.

(** [s.split(sep)] for a one-character separator. *)
Fixpoint split (sep : ascii) (s : string) : list string :=
  match s with
  | EmptyString => [EmptyString]
  | String c s' =>
      if Ascii.eqb c sep then EmptyString :: split sep s'
      else match split sep s' with
           | h :: t => String c h :: t
           | [] => [String c EmptyString]
           end
  end.

(** [parts.join(sep)] *)
Fixpoint join (sep : string) (parts : list string) : string :=
  match parts with
  | [] => EmptyString
  | [p] => p
  | p :: rest => p +:+ sep +:+ join sep rest
  end.

(** [s.indexOf(c)] together with the two slices around the hit:
    [Some (s.slice(0, i), s.slice(i + 1))], or [None] for -1. *)
Fixpoint breakAt (sep : ascii) (s : string) : option (string * string) :=
  match s with
  | EmptyString => None
  | String c s' =>
      if Ascii.eqb c sep then Some (EmptyString, s')
      else match breakAt sep s' with
           | Some (a, b) => Some (String c a, b)
           | None => None
           end
  end.

(** [s.slice(n)] and [s.slice(0, n)] for [0 <= n]. *)
Fixpoint sliceFrom (n : nat) (s : string) : string :=
  match n, s with
  | O, _ => s
  | S n', String _ s' => sliceFrom n' s'
  | S _, EmptyString => EmptyString
  end.

Fixpoint sliceTo (n : nat) (s : string) : string :=
  match n, s with
  | O, _ => EmptyString
  | S n', String c s' => String c (sliceTo n' s')
  | S _, EmptyString => EmptyString
  end.

(** Truthiness of a string value. *)
Definition truthy (s : string) : bool := negb (isEmpty s).

(** [arr.includes(x)] on an array of strings. *)
Definition arrayIncludes (x : string) (arr : list string) : bool :=
  existsb (String.eqb x) arr.

Fixpoint allChars (p : ascii -> bool) (s : string) : bool :=
  match s with
  | EmptyString => true
  | String c s' => p c && allChars p s'
  end.

(** [!s.includes(sep)] for a one-character [sep]. *)
Definition lacks (sep : ascii) (s : string) : bool :=
  allChars (fun c => negb (Ascii.eqb c sep)) s.

End Js.

(* ===================================================================== *)
(** * gateway/protocol: error codes and shapes *)
(* ===================================================================== *)

Module Protocol.

Inductive ErrorCode :=
| NOT_LINKED | NOT_PAIRED | AGENT_TIMEOUT | INVALID_REQUEST
| UNAVAILABLE | UNAUTHORIZED | NOT_FOUND.

Record ErrorShape := mkErrorShape {
  code : ErrorCode;
  message : string;
  retryable : option bool;
  retryAfterMs : option Z
}.

(** [errorShape(code, message)] called without [opts]. *)
Definition errorShape (c : ErrorCode) (msg : string) : ErrorShape :=
  {| code := c; message := msg; retryable := None; retryAfterMs := None |}.

Record ConnectParams := mkConnect {
  role : option string;
  scopes : option (list string)
}.

(** [GatewayClient]; the handlers guard against a missing [connect]. *)
Record GatewayClient := mkClient {
  connect : option ConnectParams;
  connId : option string;
  tenantId : option string
}.

(** Truthiness of an optional string property. *)
Definition truthyOpt (o : option string) : bool :=
  match o with Some s => Js.truthy s | None => false end.

End Protocol.

(* ===================================================================== *)
(** * gateway/method-auth.ts *)
(* ===================================================================== *)

Module MethodAuth.
Import Protocol.

Definition ADMIN_SCOPE := "operator.admin".
Definition READ_SCOPE := "operator.read".
Definition WRITE_SCOPE := "operator.write".
Definition APPROVALS_SCOPE := "operator.approvals".
Definition PAIRING_SCOPE := "operator.pairing".

Definition TENANT_ALLOWED_METHODS : gset string := list_to_set [
  "health";
  "terminal.spawn"; "terminal.write"; "terminal.resize"; "terminal.close";
  "terminal.list";
  "tenants.get"; "tenants.rotate"; "tenants.backup"; "tenants.backups.list";
  "tenants.restore"; "tenants.delete"; "tenants.usage";
  "tenants.quota.status"; "tenants.usage.history";
  "config.get"; "config.set"; "config.patch"; "config.schema";
  "agents.list"; "agents.create"; "agents.update"; "agents.delete";
  "agents.files.list"; "agents.files.get"; "agents.files.set";
  "sessions.list"; "sessions.preview";
  "cron.list"; "cron.add"; "cron.update"; "cron.remove"; "cron.status";
  "cron.runs"; "cron.run";
  "skills.status"; "skills.bins"; "skills.install"; "skills.update";
  "channels.status"; "channels.start"; "channels.stop"; "channels.logout";
  "voicewake.get"; "voicewake.set";
  "device.pair.list"; "device.pair.approve"; "device.pair.reject";
  "device.token.rotate"; "device.token.revoke";
  "node.pair.request"; "node.pair.list"; "node.pair.approve";
  "node.pair.reject"; "node.pair.verify"; "node.rename"; "node.list";
  "node.describe"; "node.invoke"
].

Definition APPROVAL_METHODS : gset string :=
  list_to_set ["exec.approval.request"; "exec.approval.resolve"].

Definition NODE_ROLE_METHODS : gset string :=
  list_to_set ["node.invoke.result"; "node.event"; "skills.bins"].

Definition PAIRING_METHODS : gset string := list_to_set [
  "node.pair.request"; "node.pair.list"; "node.pair.approve";
  "node.pair.reject"; "node.pair.verify";
  "device.pair.list"; "device.pair.approve"; "device.pair.reject";
  "device.token.rotate"; "device.token.revoke";
  "node.rename"
].

Definition ADMIN_METHOD_PREFIXES : list string := ["exec.approvals."].

Definition READ_METHODS : gset string := list_to_set [
  "health"; "logs.tail"; "channels.status"; "status"; "usage.status";
  "usage.cost"; "tts.status"; "tts.providers"; "models.list";
  "agents.list"; "agent.identity.get"; "skills.status"; "voicewake.get";
  "sessions.list"; "sessions.preview"; "cron.list"; "cron.status";
  "cron.runs"; "system-presence"; "last-heartbeat"; "node.list";
  "node.describe"; "chat.history"; "terminal.list"; "tenants.get";
  "tenants.backups.list"; "tenants.usage"; "tenants.quota.status";
  "tenants.usage.history"
].

Definition WRITE_METHODS : gset string := list_to_set [
  "send"; "agent"; "agent.wait"; "wake"; "talk.mode"; "tts.enable";
  "tts.disable"; "tts.convert"; "tts.setProvider"; "voicewake.set";
  "node.invoke"; "chat.send"; "chat.abort"; "browser.request";
  "terminal.spawn"; "terminal.write"; "terminal.resize"; "terminal.close";
  "tenants.rotate"; "tenants.backup"
].

(** [SET.has(method)] *)
Definition has (s : gset string) (method : string) : bool :=
  bool_decide (method ∈ s).

Definition unauthorizedRole (role : string) : option ErrorShape :=
  Some (errorShape INVALID_REQUEST ("unauthorized role: " +:+ role)).

Definition missingScope (scope : string) : option ErrorShape :=
  Some (errorShape INVALID_REQUEST ("missing scope: " +:+ scope)).

(** [authorizeGatewayMethod(method, client)]: [None] is the source's
    [null] (authorized), [Some e] the returned error shape. *)
Definition authorizeGatewayMethod (method : string)
    (client : option GatewayClient) : option ErrorShape :=
  match client with
  | None => None
  | Some cl =>
    match connect cl with
    | None => None
    | Some conn =>
      let role := default "operator" (role conn) in
      let scopes := default [] (scopes conn) in
      if has NODE_ROLE_METHODS method then
        if String.eqb role "node" then None else unauthorizedRole role
      else if String.eqb role "node" then unauthorizedRole role
      else if negb (String.eqb role "operator") then unauthorizedRole role
      else if truthyOpt (tenantId cl) && negb (has TENANT_ALLOWED_METHODS method) then
        Some (errorShape INVALID_REQUEST
                ("method not available for tenant token: " +:+ method))
      else if Js.arrayIncludes ADMIN_SCOPE scopes then None
      else if has APPROVAL_METHODS method
              && negb (Js.arrayIncludes APPROVALS_SCOPE scopes) then
        missingScope "operator.approvals"
      else if has PAIRING_METHODS method
              && negb (Js.arrayIncludes PAIRING_SCOPE scopes) then
        missingScope "operator.pairing"
      else if has READ_METHODS method
              && negb (Js.arrayIncludes READ_SCOPE scopes
                       || Js.arrayIncludes WRITE_SCOPE scopes) then
        missingScope "operator.read"
      else if has WRITE_METHODS method
              && negb (Js.arrayIncludes WRITE_SCOPE scopes) then
        missingScope "operator.write"
      else if has APPROVAL_METHODS method then None
      else if has PAIRING_METHODS method then None
      else if has READ_METHODS method then None
      else if has WRITE_METHODS method then None
      else if existsb (fun prefix => Js.startsWith prefix method)
                ADMIN_METHOD_PREFIXES then
        missingScope "operator.admin"
      else if truthyOpt (tenantId cl) && has TENANT_ALLOWED_METHODS method then None
      else if Js.startsWith "config." method
              || Js.startsWith "wizard." method
              || Js.startsWith "update." method
              || String.eqb method "channels.logout"
              || String.eqb method "agents.create"
              || String.eqb method "agents.update"
              || String.eqb method "agents.delete"
              || String.eqb method "skills.install"
              || String.eqb method "skills.update"
              || String.eqb method "cron.add"
              || String.eqb method "cron.update"
              || String.eqb method "cron.remove"
              || String.eqb method "cron.run"
              || String.eqb method "sessions.patch"
              || String.eqb method "sessions.reset"
              || String.eqb method "sessions.delete"
              || String.eqb method "sessions.compact" then
        missingScope "operator.admin"
      else missingScope "operator.admin"
    end
  end.

(** The connection's effective role, [client.connect.role ?? "operator"]. *)
Definition roleOf (cl : GatewayClient) : option string :=
  match connect cl with
  | Some conn => Some (default "operator" (role conn))
  | None => None
  end.

End MethodAuth.

(* ===================================================================== *)
(** * gateway/server-methods/terminal.ts *)
(* ===================================================================== *)

Module Terminal.
Import Protocol.
Local Open Scope Z_scope.

(** The sandboxed PTY handle is an external process reference.  Its
    observable side is the sequence of calls it has received; [faulty]
    is the message of the [Error] its methods throw when the process is
    gone. *)
Inductive PtyCall :=
| PtyWrite (data : string)
| PtyResize (cols rows : Z)
| PtyKill.

Record BwrapPtyHandle := mkPty {
  pid : Z;
  received : list PtyCall;
  faulty : option string
}.

Definition ptyCall (c : PtyCall) (h : BwrapPtyHandle) : BwrapPtyHandle + string :=
  match faulty h with
  | Some msg => inr msg
  | None => inl {| pid := pid h; received := (received h ++ [c])%list; faulty := None |}
  end.

(** [String(err)] for an [Error] with message [msg]:
    [Error.prototype.toString] puts the name before a non-empty message. *)
Definition errorToString (msg : string) : string :=
  if Js.isEmpty msg then "Error" else "Error: " +:+ msg.

Record Session := mkSession {
  s_terminalId : string;
  s_tenantId : string;
  s_connId : string;
  s_pty : BwrapPtyHandle;
  s_createdAt : Z;
  s_lastActivityAt : Z
}.

(** [Map<string, Session>] in insertion order. *)
Definition SessionMap := list (string * Session).

Fixpoint mapGet (k : string) (m : SessionMap) : option Session :=
  match m with
  | [] => None
  | (k', v) :: m' => if String.eqb k k' then Some v else mapGet k m'
  end.

Fixpoint mapSet (k : string) (v : Session) (m : SessionMap) : SessionMap :=
  match m with
  | [] => [(k, v)]
  | (k', v') :: m' =>
      if String.eqb k k' then (k', v) :: m' else (k', v') :: mapSet k v m'
  end.

Fixpoint mapDelete (k : string) (m : SessionMap) : SessionMap :=
  match m with
  | [] => []
  | (k', v') :: m' =>
      if String.eqb k k' then m' else (k', v') :: mapDelete k m'
  end.

Definition mapValues (m : SessionMap) : list Session := map snd m.

Record SessionInfo := mkInfo {
  i_terminalId : string;
  i_tenantId : string;
  i_pid : Z;
  i_createdAt : Z;
  i_lastActivityAt : Z
}.

Inductive Payload :=
| Spawned (terminalId : string) (pid cols rows : Z)
| Written (written : nat)
| Resized (cols rows : Z)
| Closed (warning : option string)
| Sessions (sessions : list SessionInfo).

Record Response := mkResponse {
  ok : bool;
  payload : option Payload;
  error : option ErrorShape
}.

Definition respondOk (p : Payload) : Response :=
  {| ok := true; payload := Some p; error := None |}.

Definition respondError (c : ErrorCode) (msg : string) : Response :=
  {| ok := false; payload := None; error := Some (errorShape c msg) |}.

(** Process-wide state of the module. *)
Record State := mkState {
  terminalSessions : SessionMap;
  cleanupInterval : bool
}.

Definition withSessions (m : SessionMap) (st : State) : State :=
  {| terminalSessions := m; cleanupInterval := cleanupInterval st |}.

Definition TERMINAL_IDLE_TIMEOUT_MS : Z := 5 * 60 * 1000.

(** [opts.client?.tenantId ?? null] *)
Definition getTenantId (client : option GatewayClient) : option string :=
  match client with Some cl => tenantId cl | None => None end.

(** [(opts.client?.connect?.scopes ?? []).includes("operator.admin")] *)
Definition hasAdminScope (client : option GatewayClient) : bool :=
  let scopes :=
    match client with
    | Some cl => match connect cl with
                 | Some conn => default [] (scopes conn)
                 | None => []
                 end
    | None => []
    end in
  Js.arrayIncludes "operator.admin" scopes.

(** [session.tenantId === tenantId] with [tenantId : string | null]. *)
Definition sameTenant (sessionTenant : string) (tenantId : option string) : bool :=
  match tenantId with
  | Some t => String.eqb sessionTenant t
  | None => false
  end.

Definition clamp (lo hi v : Z) : Z := Z.max lo (Z.min hi v).

Record SpawnParams := mkSpawnParams {
  sp_cols : option Z;
  sp_rows : option Z;
  sp_shell : option string
}.

(** [terminal.spawn]: [spawned] is what the sandbox spawner returned (or
    the message it threw), [uuid] the fresh [crypto.randomUUID()]. *)
Definition terminal_spawn (client : option GatewayClient) (params : SpawnParams)
    (spawned : BwrapPtyHandle + string) (uuid : string) (now : Z)
    (st : State) : State * Response :=
  match getTenantId client with
  | Some tenantId =>
    if negb (Js.truthy tenantId) then
      (st, respondError UNAUTHORIZED "Tenant authentication required for terminal access")
    else
      match client with
      | Some cl =>
        if negb (truthyOpt (connId cl)) then
          (st, respondError UNAUTHORIZED "Connection ID required")
        else
          let connId := default "" (connId cl) in
          let cols := match sp_cols params with Some c => clamp 10 500 c | None => 80 end in
          let rows := match sp_rows params with Some r => clamp 5 200 r | None => 24 end in
          match spawned with
          | inl pty =>
              let session := {| s_terminalId := uuid; s_tenantId := tenantId;
                                s_connId := connId; s_pty := pty;
                                s_createdAt := now; s_lastActivityAt := now |} in
              ({| terminalSessions := mapSet uuid session (terminalSessions st);
                  cleanupInterval := true |},
               respondOk (Spawned uuid (pid pty) cols rows))
          | inr msg =>
              (st, respondError UNAVAILABLE ("Failed to spawn terminal: " +:+ msg))
          end
      | None => (st, respondError UNAUTHORIZED "Connection ID required")
      end
  | None =>
      (st, respondError UNAUTHORIZED "Tenant authentication required for terminal access")
  end.

Record WriteParams := mkWriteParams {
  wp_terminalId : option string;
  wp_data : option string     (* [None]: absent or not a string *)
}.

(** [terminal.write] *)
Definition terminal_write (client : option GatewayClient) (params : WriteParams)
    (now : Z) (st : State) : State * Response :=
  let tenantId := getTenantId client in
  let isAdmin := hasAdminScope client in
  if negb (truthyOpt (wp_terminalId params)) then
    (st, respondError INVALID_REQUEST "terminalId required")
  else
    let terminalId := default "" (wp_terminalId params) in
    match wp_data params with
    | None => (st, respondError INVALID_REQUEST "data required")
    | Some data =>
      match mapGet terminalId (terminalSessions st) with
      | None => (st, respondError NOT_FOUND "Terminal session not found")
      | Some session =>
        if negb isAdmin && negb (sameTenant (s_tenantId session) tenantId) then
          (st, respondError UNAUTHORIZED "Access denied")
        else
          match ptyCall (PtyWrite data) (s_pty session) with
          | inl pty' =>
              let session' := {| s_terminalId := s_terminalId session;
                                 s_tenantId := s_tenantId session;
                                 s_connId := s_connId session;
                                 s_pty := pty';
                                 s_createdAt := s_createdAt session;
                                 s_lastActivityAt := now |} in
              (withSessions (mapSet terminalId session' (terminalSessions st)) st,
               respondOk (Written (String.length data)))
          | inr msg =>
              (st, respondError UNAVAILABLE ("Failed to write to terminal: " +:+ msg))
          end
      end
    end.

Record ResizeParams := mkResizeParams {
  rp_terminalId : option string;
  rp_cols : option Z;
  rp_rows : option Z
}.

(** [terminal.resize] *)
Definition terminal_resize (client : option GatewayClient) (params : ResizeParams)
    (now : Z) (st : State) : State * Response :=
  let tenantId := getTenantId client in
  let isAdmin := hasAdminScope client in
  if negb (truthyOpt (rp_terminalId params)) then
    (st, respondError INVALID_REQUEST "terminalId required")
  else
    let terminalId := default "" (rp_terminalId params) in
    match option_map (clamp 10 500) (rp_cols params),
          option_map (clamp 5 200) (rp_rows params) with
    | Some cols, Some rows =>
      match mapGet terminalId (terminalSessions st) with
      | None => (st, respondError NOT_FOUND "Terminal session not found")
      | Some session =>
        if negb isAdmin && negb (sameTenant (s_tenantId session) tenantId) then
          (st, respondError UNAUTHORIZED "Access denied")
        else
          match ptyCall (PtyResize cols rows) (s_pty session) with
          | inl pty' =>
              let session' := {| s_terminalId := s_terminalId session;
                                 s_tenantId := s_tenantId session;
                                 s_connId := s_connId session;
                                 s_pty := pty';
                                 s_createdAt := s_createdAt session;
                                 s_lastActivityAt := now |} in
              (withSessions (mapSet terminalId session' (terminalSessions st)) st,
               respondOk (Resized cols rows))
          | inr msg =>
              (st, respondError UNAVAILABLE ("Failed to resize terminal: " +:+ msg))
          end
      end
    | _, _ => (st, respondError INVALID_REQUEST "cols and rows required")
    end.

(** [terminal.close] *)
Definition terminal_close (client : option GatewayClient) (terminalId : option string)
    (st : State) : State * Response :=
  let tenantId := getTenantId client in
  let isAdmin := hasAdminScope client in
  if negb (truthyOpt terminalId) then
    (st, respondError INVALID_REQUEST "terminalId required")
  else
    let tid := default "" terminalId in
    match mapGet tid (terminalSessions st) with
    | None => (st, respondError NOT_FOUND "Terminal session not found")
    | Some session =>
      if negb isAdmin && negb (sameTenant (s_tenantId session) tenantId) then
        (st, respondError UNAUTHORIZED "Access denied")
      else
        let st' := withSessions (mapDelete tid (terminalSessions st)) st in
        match ptyCall PtyKill (s_pty session) with
        | inl _ => (st', respondOk (Closed None))
        | inr msg => (st', respondOk (Closed (Some (errorToString msg))))
        end
    end.

(** [terminal.list] *)
Definition terminal_list (client : option GatewayClient) (st : State) : State * Response :=
  let tenantId := getTenantId client in
  let isAdmin := hasAdminScope client in
  let sessions :=
    map (fun session =>
           {| i_terminalId := s_terminalId session;
              i_tenantId := s_tenantId session;
              i_pid := pid (s_pty session);
              i_createdAt := s_createdAt session;
              i_lastActivityAt := s_lastActivityAt session |})
        (List.filter (fun session => isAdmin || sameTenant (s_tenantId session) tenantId)
                     (mapValues (terminalSessions st))) in
  (st, respondOk (Sessions sessions)).

(** Data the PTY of terminal [terminalId] has been sent so far. *)
Definition receivedBy (terminalId : string) (st : State) : list PtyCall :=
  match mapGet terminalId (terminalSessions st) with
  | Some session => received (s_pty session)
  | None => []
  end.

(** Every stored session carries a non-empty tenant id. *)
Definition sessionsOwned (st : State) : Prop :=
  Forall (fun session => Js.truthy (s_tenantId session) = true)
         (mapValues (terminalSessions st)).

(** [getTerminalSessionsCount()] *)
Definition getTerminalSessionsCount (st : State) : nat :=
  List.length (terminalSessions st).

(** The loop shared by the idle reaper and [closeAllTenantTerminals]:
    walk the entries of the map; a doomed session has its PTY killed
    (errors ignored) and is deleted from the map.  Returns the map left
    and the number of sessions removed. *)
Definition sweep (doomed : Session -> bool) (m : SessionMap) : SessionMap * nat :=
  fold_left
    (fun (acc : SessionMap * nat) (entry : string * Session) =>
       if doomed (snd entry)
       then (mapDelete (fst entry) (fst acc), S (snd acc))
       else acc)
    m (m, O).

(** The callback of [startCleanupInterval], run at time [now]. *)
Definition cleanupIdle (now : Z) (st : State) : State :=
  withSessions
    (fst (sweep (fun session =>
                   now - s_lastActivityAt session >? TERMINAL_IDLE_TIMEOUT_MS)
                (terminalSessions st)))
    st.

(** [closeAllTenantTerminals(tenantId)] *)
Definition closeAllTenantTerminals (tenantId : string) (st : State) : State * nat :=
  let '(m, closed) :=
    sweep (fun session => String.eqb (s_tenantId session) tenantId)
          (terminalSessions st) in
  (withSessions m st, closed).

(** The ids of the map are pairwise distinct, as in any [Map]. *)
Definition uniqueIds (st : State) : Prop :=
  NoDup (map fst (terminalSessions st)).

End Terminal.

(* ===================================================================== *)
(** * routing/session-key.ts *)
(* ===================================================================== *)

Module SessionKey.

Definition DEFAULT_AGENT_ID := "main".
Definition DEFAULT_MAIN_KEY := "main".

Definition isLowerAlnum (c : ascii) : bool :=
  Js.inRange 97 122 c || Js.inRange 48 57 c.

(** The class [[a-z0-9_-]]. *)
Definition isIdChar (c : ascii) : bool :=
  isLowerAlnum c || Ascii.eqb c "_" || Ascii.eqb c "-".

(** The same classes under the [i] flag. *)
Definition isAlnumI (c : ascii) : bool := isLowerAlnum c || Js.inRange 65 90 c.
Definition isIdCharI (c : ascii) : bool := isIdChar c || Js.inRange 65 90 c.

(** [VALID_ID_RE = /^[a-z0-9][a-z0-9_-]{0,63}$/i] *)
Definition VALID_ID_RE (s : string) : bool :=
  match s with
  | EmptyString => false
  | String c rest =>
      isAlnumI c && Js.allChars isIdCharI rest && (String.length rest <=? 63)%nat
  end.

(** [.replace(/[^a-z0-9_-]+/g, "-")]: each maximal run of characters
    outside the class becomes one dash. *)
Fixpoint replaceInvalid (inRun : bool) (s : string) : string :=
  match s with
  | EmptyString => EmptyString
  | String c s' =>
      if isIdChar c then String c (replaceInvalid false s')
      else if inRun then replaceInvalid true s'
      else String "-" (replaceInvalid true s')
  end.

Definition isDash (c : ascii) : bool := Ascii.eqb c "-".

Definition normalizeMainKey (value : option string) : string :=
  let trimmed := Js.trim (default "" value) in
  if Js.truthy trimmed then Js.toLowerCase trimmed else DEFAULT_MAIN_KEY.

Definition normalizeAgentId (value : option string) : string :=
  let trimmed := Js.trim (default "" value) in
  if negb (Js.truthy trimmed) then DEFAULT_AGENT_ID
  else if VALID_ID_RE trimmed then Js.toLowerCase trimmed
  else
    let r := Js.sliceTo 64
               (Js.dropEndWhile isDash
                  (Js.dropStartWhile isDash
                     (replaceInvalid false (Js.toLowerCase trimmed)))) in
    if Js.truthy r then r else DEFAULT_AGENT_ID.

Definition buildAgentMainSessionKey (agentId : string) (mainKey : option string) : string :=
  "agent:" +:+ normalizeAgentId (Some agentId) +:+ ":" +:+ normalizeMainKey mainKey.

Record ParsedAgentSessionKey := mkParsedAgent {
  pa_agentId : string;
  pa_rest : string
}.

(** Modelled from the spec: [parseAgentSessionKey] lives in
    sessions/session-key-utils, which is not among the sources.  The
    spec gives the non-tenant key form [agent:{agentId}:{rest}] and lets
    the tenant parser fail when the [agent:{id}:] segment is lacking. *)
Definition parseAgentSessionKey (key : string) : option ParsedAgentSessionKey :=
  if Js.startsWith "agent:" key then
    match Js.breakAt ":" (Js.sliceFrom 6 key) with
    | Some (agentId, rest) =>
        if Js.isEmpty agentId then None
        else Some {| pa_agentId := agentId; pa_rest := rest |}
    | None => None
    end
  else None.

Definition TENANT_KEY_PREFIX := "tenant:".

Definition buildTenantSessionKey (tenantId agentId : string)
    (mainKey : option string) : string :=
  let tenantId := Js.toLowerCase (Js.trim tenantId) in
  let agentKey := buildAgentMainSessionKey agentId mainKey in
  TENANT_KEY_PREFIX +:+ tenantId +:+ ":" +:+ agentKey.

Record ParsedTenantSessionKey := mkParsedTenant {
  pt_tenantId : string;
  pt_agentKey : string;
  pt_agentId : string;
  pt_rest : string
}.

Definition parseTenantSessionKey (sessionKey : string) : option ParsedTenantSessionKey :=
  let trimmed := Js.toLowerCase (Js.trim sessionKey) in
  if negb (Js.startsWith TENANT_KEY_PREFIX trimmed) then None
  else
    let withoutPrefix := Js.sliceFrom (String.length TENANT_KEY_PREFIX) trimmed in
    match Js.breakAt ":" withoutPrefix with
    | None => None
    | Some (tenantId, agentKey) =>
        if negb (Js.truthy tenantId) || negb (Js.truthy agentKey) then None
        else
          match parseAgentSessionKey agentKey with
          | None => None
          | Some parsed =>
              Some {| pt_tenantId := tenantId;
                      pt_agentKey := agentKey;
                      pt_agentId := pa_agentId parsed;
                      pt_rest := pa_rest parsed |}
          end
    end.

(** ** Agent-scoped keys *)

Definition DEFAULT_ACCOUNT_ID := "default".

Definition normalizeToken (value : option string) : string :=
  Js.toLowerCase (Js.trim (default "" value)).

Definition normalizeAccountId (value : option string) : string :=
  let trimmed := Js.trim (default "" value) in
  if negb (Js.truthy trimmed) then DEFAULT_ACCOUNT_ID
  else if VALID_ID_RE trimmed then Js.toLowerCase trimmed
  else
    let r := Js.sliceTo 64
               (Js.dropEndWhile isDash
                  (Js.dropStartWhile isDash
                     (replaceInvalid false (Js.toLowerCase trimmed)))) in
    if Js.truthy r then r else DEFAULT_ACCOUNT_ID.

Definition toAgentStoreSessionKey (agentId : string) (requestKey mainKey : option string)
    : string :=
  let raw := Js.trim (default "" requestKey) in
  if negb (Js.truthy raw) || String.eqb raw DEFAULT_MAIN_KEY then
    buildAgentMainSessionKey agentId mainKey
  else
    let lowered := Js.toLowerCase raw in
    if Js.startsWith "agent:" lowered then lowered
    else if Js.startsWith "subagent:" lowered then
      "agent:" +:+ normalizeAgentId (Some agentId) +:+ ":" +:+ lowered
    else "agent:" +:+ normalizeAgentId (Some agentId) +:+ ":" +:+ lowered.

(** The inner loop of [resolveLinkedPeerId] over the ids of one identity. *)
Fixpoint matchesCandidate (candidates ids : list string) : bool :=
  match ids with
  | [] => false
  | id :: rest =>
      let normalized := normalizeToken (Some id) in
      if Js.truthy normalized && Js.arrayIncludes normalized candidates then true
      else matchesCandidate candidates rest
  end.

Fixpoint findCanonical (candidates : list string)
    (entries : list (string * list string)) : option string :=
  match entries with
  | [] => None
  | (canonical, ids) :: rest =>
      let canonicalName := Js.trim canonical in
      if negb (Js.truthy canonicalName) then findCanonical candidates rest
      else if matchesCandidate candidates ids then Some canonicalName
      else findCanonical candidates rest
  end.

(** [resolveLinkedPeerId]; [identityLinks] holds the entries of the record
    in the order [Object.entries] yields them. *)
Definition resolveLinkedPeerId (identityLinks : option (list (string * list string)))
    (channel peerId : string) : option string :=
  match identityLinks with
  | None => None
  | Some entries =>
      let peerId := Js.trim peerId in
      if negb (Js.truthy peerId) then None
      else
        let rawCandidate := normalizeToken (Some peerId) in
        let c1 := if Js.truthy rawCandidate then [rawCandidate] else [] in
        let channel := normalizeToken (Some channel) in
        let c2 :=
          if Js.truthy channel then
            let scopedCandidate := normalizeToken (Some (channel +:+ ":" +:+ peerId)) in
            if Js.truthy scopedCandidate then [scopedCandidate] else []
          else [] in
        let candidates := (c1 ++ c2)%list in
        match candidates with
        | [] => None
        | _ => findCanonical candidates entries
        end
  end.

Inductive DmScope :=
| DmMain | DmPerPeer | DmPerChannelPeer | DmPerAccountChannelPeer.

Record PeerKeyParams := mkPeerKeyParams {
  pk_agentId : string;
  pk_mainKey : option string;
  pk_channel : string;
  pk_accountId : option string;
  pk_peerKind : option string;
  pk_peerId : option string;
  pk_identityLinks : option (list (string * list string));
  pk_dmScope : option DmScope
}.

(** [x.trim().toLowerCase() || "unknown"] *)
Definition channelOrUnknown (channel : string) : string :=
  let c := Js.toLowerCase (Js.trim channel) in
  if Js.truthy c then c else "unknown".

Definition buildAgentPeerSessionKey (params : PeerKeyParams) : string :=
  let peerKind := default "direct" (pk_peerKind params) in
  let agent := "agent:" +:+ normalizeAgentId (Some (pk_agentId params)) in
  if String.eqb peerKind "direct" then
    let dmScope := default DmMain (pk_dmScope params) in
    let peerId := Js.trim (default "" (pk_peerId params)) in
    let linkedPeerId :=
      match dmScope with
      | DmMain => None
      | _ => resolveLinkedPeerId (pk_identityLinks params) (pk_channel params) peerId
      end in
    let peerId :=
      match linkedPeerId with
      | Some linked => if Js.truthy linked then linked else peerId
      | None => peerId
      end in
    let peerId := Js.toLowerCase peerId in
    match dmScope with
    | DmPerAccountChannelPeer =>
        if Js.truthy peerId then
          agent +:+ ":" +:+ channelOrUnknown (pk_channel params) +:+ ":"
            +:+ normalizeAccountId (pk_accountId params) +:+ ":direct:" +:+ peerId
        else buildAgentMainSessionKey (pk_agentId params) (pk_mainKey params)
    | DmPerChannelPeer =>
        if Js.truthy peerId then
          agent +:+ ":" +:+ channelOrUnknown (pk_channel params) +:+ ":direct:" +:+ peerId
        else buildAgentMainSessionKey (pk_agentId params) (pk_mainKey params)
    | DmPerPeer =>
        if Js.truthy peerId then agent +:+ ":direct:" +:+ peerId
        else buildAgentMainSessionKey (pk_agentId params) (pk_mainKey params)
    | DmMain => buildAgentMainSessionKey (pk_agentId params) (pk_mainKey params)
    end
  else
    let channel := channelOrUnknown (pk_channel params) in
    let trimmed := Js.trim (default "" (pk_peerId params)) in
    let peerId := Js.toLowerCase (if Js.truthy trimmed then trimmed else "unknown") in
    agent +:+ ":" +:+ channel +:+ ":" +:+ peerKind +:+ ":" +:+ peerId.

End SessionKey.

(* ===================================================================== *)
(** * gateway/http-utils and the OpenAI-compatible endpoint *)
(* ===================================================================== *)

Module HttpUtils.

Inductive ScopeResult :=
| ScopeOk (sessionKey : string)
| ScopeErr (error : string).

(** The [X] of a key with prefix [tenant:X:] (part of the model of
    [scopeSessionKeyToTenant] below). *)
Definition tenantPrefixOf (sessionKey : string) : option string :=
  if Js.startsWith "tenant:" sessionKey then
    match Js.breakAt ":" (Js.sliceFrom 7 sessionKey) with
    | Some (x, _) => Some x
    | None => None
    end
  else None.

(** Modelled from the spec: [scopeSessionKeyToTenant] is defined in
    gateway/http-utils, of which only the test file is among the
    sources.  The four cases are those of the spec, in its order. *)
Definition scopeSessionKeyToTenant (sessionKey : string)
    (tenantId : option string) : ScopeResult :=
  match tenantId with
  | None => ScopeOk sessionKey
  | Some tenantId =>
      match tenantPrefixOf sessionKey with
      | Some x =>
          if String.eqb x tenantId then ScopeOk sessionKey
          else ScopeErr "does not match authenticated tenant"
      | None => ScopeOk ("tenant:" +:+ tenantId +:+ ":" +:+ sessionKey)
      end
  end.

Record HttpReply := mkReply {
  statusCode : nat;
  errorType : option string
}.

Record ChatOutcome := mkChatOutcome {
  reply : HttpReply;
  agentRuns : list string   (* session keys the agent runner was invoked with *)
}.

(** Modelled from the spec: the [POST /v1/chat/completions] handler
    (gateway/openai-http) is not among the sources.  The client-supplied
    session key is passed through [scopeSessionKeyToTenant]; a mismatch
    produces [403 forbidden], otherwise the agent runner is invoked
    with the scoped key. *)
Definition handleOpenAiHttpRequest (tenantId : option string)
    (sessionKey : string) : ChatOutcome :=
  match scopeSessionKeyToTenant sessionKey tenantId with
  | ScopeErr _ =>
      {| reply := {| statusCode := 403; errorType := Some "forbidden" |};
         agentRuns := [] |}
  | ScopeOk key =>
      {| reply := {| statusCode := 200; errorType := None |};
         agentRuns := [key] |}
  end.

End HttpUtils.

(* ===================================================================== *)
(** * node:path, POSIX flavour *)
(* ===================================================================== *)

Module Path.

Definition isSlash (c : ascii) : bool := Ascii.eqb c "/".

(** The segment walk of [normalizeString]: [stack] holds the segments
    kept so far, innermost first. *)
Fixpoint normalizeSegments (allowAboveRoot : bool) (stack segs : list string)
    : list string :=
  match segs with
  | [] => rev stack
  | s :: segs' =>
      if String.eqb s "" || String.eqb s "." then
        normalizeSegments allowAboveRoot stack segs'
      else if String.eqb s ".." then
        match stack with
        | top :: stack' =>
            if String.eqb top ".." then
              normalizeSegments allowAboveRoot
                (if allowAboveRoot then ".." :: stack else stack) segs'
            else normalizeSegments allowAboveRoot stack' segs'
        | [] =>
            normalizeSegments allowAboveRoot
              (if allowAboveRoot then [".."] else []) segs'
        end
      else normalizeSegments allowAboveRoot (s :: stack) segs'
  end.

Definition normalizeString (path : string) (allowAboveRoot : bool) : string :=
  Js.join "/" (normalizeSegments allowAboveRoot [] (Js.split "/" path)).

Definition isAbsolute (path : string) : bool := Js.startsWith "/" path.

Definition normalize (path : string) : string :=
  if Js.isEmpty path then "."
  else
    let isAbs := isAbsolute path in
    let trailingSeparator := Js.endsWith "/" path in
    let p := normalizeString path (negb isAbs) in
    if Js.isEmpty p then
      if isAbs then "/" else if trailingSeparator then "./" else "."
    else
      let p := if trailingSeparator then p +:+ "/" else p in
      if isAbs then "/" +:+ p else p.

Definition join (args : list string) : string :=
  match List.filter Js.truthy args with
  | [] => "."
  | parts => normalize (Js.join "/" parts)
  end.

(** The right-to-left accumulation of [resolve]; [args] come last first. *)
Fixpoint resolveArgs (args : list string) (resolvedPath : string) : string * bool :=
  match args with
  | [] => (resolvedPath, false)
  | p :: rest =>
      if Js.isEmpty p then resolveArgs rest resolvedPath
      else
        let resolvedPath := p +:+ "/" +:+ resolvedPath in
        if isAbsolute p then (resolvedPath, true)
        else resolveArgs rest resolvedPath
  end.

(** [path.resolve(...args)] in a process whose working directory is [cwd]. *)
Definition resolve (cwd : string) (args : list string) : string :=
  let '(resolvedPath, resolvedAbsolute) := resolveArgs (rev args ++ [cwd]) "" in
  let p := normalizeString resolvedPath (negb resolvedAbsolute) in
  if resolvedAbsolute then "/" +:+ p
  else if Js.isEmpty p then "." else p.

Definition dirname (path : string) : string :=
  match path with
  | EmptyString => "."
  | String c0 rest =>
      let hasRoot := isSlash c0 in
      let noTrail := Js.dropEndWhile isSlash rest in
      let upToSlash := Js.dropEndWhile (fun c => negb (isSlash c)) noTrail in
      if Js.isEmpty upToSlash then (if hasRoot then "/" else ".")
      else if hasRoot && (String.length upToSlash =? 1)%nat then "//"
      else String c0 (Js.sliceTo (String.length upToSlash - 1) upToSlash)
  end.

Definition sep := "/".

(** A path segment that names an entry: non-empty, neither [.] nor [..],
    and free of separators. *)
Definition isNormalSegment (s : string) : bool :=
  negb (String.eqb s "") && negb (String.eqb s ".") && negb (String.eqb s "..")
  && Js.lacks "/" s.

End Path.

(* ===================================================================== *)
(** * tenants/types.ts, tenants/paths.ts, tenants/registry.ts *)
(* ===================================================================== *)

Module Tenants.
Local Open Scope Z_scope.

(** ** types.ts *)

(** [TENANT_ID_PATTERN = /^[a-z0-9][a-z0-9_-]{0,31}$/] *)
Definition TENANT_ID_PATTERN (id : string) : bool :=
  match id with
  | EmptyString => false
  | String c rest =>
      SessionKey.isLowerAlnum c && Js.allChars SessionKey.isIdChar rest
      && (String.length rest <=? 31)%nat
  end.

Definition isValidTenantId (id : string) : bool := TENANT_ID_PATTERN id.

Record TenantQuotas := mkQuotas {
  monthlyTokenLimit : option Z;
  monthlyTokenSoftLimit : option Z;
  monthlyCostLimitCents : option Z;
  monthlyCostSoftLimitCents : option Z;
  diskSpaceLimitBytes : option Z;
  maxConcurrentSessions : option Z;
  requestsPerMinute : option Z;
  requestsPerHour : option Z;
  maxSandboxCpuPercent : option Z;
  maxSandboxMemoryMB : option Z;
  maxSandboxDiskMB : option Z;
  maxSandboxPids : option Z
}.

Record TenantEntry := mkEntry {
  e_tokenHash : string;
  e_createdAt : string;
  e_lastSeenAt : option string;
  e_displayName : option string;
  e_disabled : option bool;
  e_quotas : option TenantQuotas
}.

Record TenantContext := mkContext {
  c_tenantId : string;
  c_tokenHash : string;
  c_stateDir : string;
  c_createdAt : string;
  c_lastSeenAt : option string
}.

Record CreateTenantResult := mkCreated {
  r_tenantId : string;
  r_token : string;
  r_createdAt : string
}.

Definition parseTenantToken (token : string) : option (string * string) :=
  if negb (Js.startsWith "tenant:" token) then None
  else
    match Js.split ":" token with
    | _ :: tenantId :: ((_ :: _) as rest) =>
        let secret := Js.join ":" rest in
        if negb (Js.truthy tenantId) || negb (Js.truthy secret) then None
        else Some (tenantId, secret)
    | _ => None
    end.

Definition buildTenantToken (tenantId secret : string) : string :=
  "tenant:" +:+ tenantId +:+ ":" +:+ secret.

Record TenantUsageSnapshot := mkUsage {
  u_tenantId : string;
  u_period : string;
  totalTokens : Z;
  inputTokens : Z;
  outputTokens : Z;
  cacheReadTokens : Z;
  cacheWriteTokens : Z;
  totalCostCents : Z;
  diskUsageBytes : Z;
  workspaceBytes : Z;
  agentDataBytes : Z;
  memoryDbBytes : Z;
  totalSessions : Z;
  activeSessions : Z;
  totalMessages : Z;
  totalRequests : Z;
  requestsThisMinute : Z;
  requestsThisHour : Z;
  sandboxCpuSeconds : Z;
  sandboxPeakMemoryMB : Z;
  updatedAt : Z;
  quotaResetAt : Z
}.

Record RateLimitState := mkRate {
  minuteWindow : list Z;
  hourWindow : list Z;
  lastCleanup : Z
}.

(** ** The process environment *)

(** [env]: [resolveStateDir] (config/paths) is not among the sources;
    the directory it resolves to is carried by the environment. *)
Record Env := mkEnv { resolveStateDir : string }.

(** One reading of the clock, with the accessors the sources call. *)
Record Date := mkDate {
  getFullYear : Z;
  getMonth : Z;
  getTime : Z;
  toISOString : string
}.

(** What a file holds, as far as the modules read it back: one of the
    three documents they write, with every field of the declared type, or
    [OtherData], text that [JSON.parse] rejects.  JSON of any other shape
    (an object lacking a field, a field of another type) has no
    counterpart here; the theorems name the kind of file they are about. *)
Inductive FileData :=
| RegistryDoc (version : Z) (tenants : gmap string TenantEntry)
| UsageDoc (snapshot : TenantUsageSnapshot)
| RateLimitDoc (state : RateLimitState)
| OtherData (raw : string).

(** Disk, plus the one module-level object that handlers mutate:
    [EMPTY_REGISTRY.tenants], which every [{ ...EMPTY_REGISTRY }] copy
    shares.

    Two things are kept out of it.  The disk takes every write: [mkdir],
    [writeFile] and [rmSync] below always complete, so a run of the model
    is a run of the source in which no file-system call throws, and
    nothing is derived here about a call that fails half way.  And a
    property written on a built-in that [registry.tenants[key]] found on
    [Object.prototype] is recorded nowhere: for such a key the model
    follows the source up to the first write on the built-in. *)
Record World := mkWorld {
  files : gmap string FileData;
  dirs : gset string;
  EMPTY_REGISTRY_tenants : gmap string TenantEntry
}.

Definition writeFile (path : string) (d : FileData) (w : World) : World :=
  {| files := <[path := d]> (files w); dirs := dirs w;
     EMPTY_REGISTRY_tenants := EMPTY_REGISTRY_tenants w |}.

Definition mkdir (path : string) (w : World) : World :=
  {| files := files w; dirs := {[path]} ∪ dirs w;
     EMPTY_REGISTRY_tenants := EMPTY_REGISTRY_tenants w |}.

Definition setShared (t : gmap string TenantEntry) (w : World) : World :=
  {| files := files w; dirs := dirs w; EMPTY_REGISTRY_tenants := t |}.

(** Completion of a call: a value or a thrown error. *)
Inductive Outcome (A : Type) :=
| Returned (a : A)
| Threw (msg : string).
Arguments Returned {A} a.
Arguments Threw {A} msg.

Definition M (A : Type) : Type := World -> Outcome A * World.

Definition ret {A} (a : A) : M A := fun w => (Returned a, w).
Definition throw {A} (msg : string) : M A := fun w => (Threw msg, w).
Definition bind {A B} (m : M A) (k : A -> M B) : M B :=
  fun w => match m w with
           | (Returned a, w') => k a w'
           | (Threw msg, w') => (Threw msg, w')
           end.
Definition get : M World := fun w => (Returned w, w).
Definition modify (f : World -> World) : M unit := fun w => (Returned tt, f w).

Notation "'let!' x ':=' m 'in' k" := (bind m (fun x => k))
  (at level 10, x name, m at level 100, k at level 200).
Notation "'run!' m 'in' k" := (bind m (fun _ => k))
  (at level 10, m at level 100, k at level 200).

(** ** paths.ts *)

Definition resolveTenantStateDir (tenantId : option string) (env : Env) : string :=
  let baseDir := resolveStateDir env in
  if negb (Protocol.truthyOpt tenantId) then baseDir
  else Path.join [baseDir; "tenants"; default "" tenantId].

Definition resolveTenantWorkspace (tenantId : string) (env : Env) : string :=
  Path.join [resolveTenantStateDir (Some tenantId) env; "workspace"].

Definition resolveTenantSessionsDir (tenantId agentId : string) (env : Env) : string :=
  Path.join [resolveTenantStateDir (Some tenantId) env; "agents"; agentId; "sessions"].

Definition resolveTenantMemoryDir (tenantId : string) (env : Env) : string :=
  Path.join [resolveTenantStateDir (Some tenantId) env; "memory"].

Definition resolveTenantPluginsDir (tenantId : string) (env : Env) : string :=
  Path.join [resolveTenantStateDir (Some tenantId) env; "plugins"].

Definition resolveTenantSandboxDir (tenantId : string) (env : Env) : string :=
  Path.join [resolveTenantStateDir (Some tenantId) env; "sandboxes"].

Definition resolveTenantCredentialsDir (tenantId : string) (env : Env) : string :=
  Path.join [resolveTenantStateDir (Some tenantId) env; "credentials"].

Definition resolveTenantRegistryPath (env : Env) : string :=
  Path.join [resolveStateDir env; "tenants.json"].

Definition resolveTenantUsageDir (tenantId : string) (env : Env) : string :=
  Path.join [resolveTenantStateDir (Some tenantId) env; "usage"].

Definition resolveTenantUsageCurrentPath (tenantId : string) (env : Env) : string :=
  Path.join [resolveTenantUsageDir tenantId env; "current.json"].

Definition resolveTenantUsageHistoryPath (tenantId period : string) (env : Env) : string :=
  Path.join [resolveTenantUsageDir tenantId env; period +:+ ".json"].

Definition resolveTenantRateLimitPath (tenantId : string) (env : Env) : string :=
  Path.join [resolveTenantUsageDir tenantId env; "rate-limits.json"].

(** ** registry.ts *)

Definition TOKEN_BYTES : nat := 32.

Definition base64urlAlphabet : string :=
  "ABCDEFGHIJKLMNOPQRSTUVWXYZabcdefghijklmnopqrstuvwxyz0123456789-_".

Definition b64 (n : N) : ascii :=
  match String.get (N.to_nat n) base64urlAlphabet with
  | Some c => c
  | None => "A"%char
  end.

(** [buf.toString("base64url")]: three bytes to four characters, no padding. *)
Fixpoint base64url (bytes : list Byte.byte) : string :=
  match bytes with
  | [] => EmptyString
  | [a] =>
      let a := Byte.to_N a in
      String (b64 (a / 4)) (String (b64 ((a mod 4) * 16)) EmptyString)
  | [a; b] =>
      let a := Byte.to_N a in
      let b := Byte.to_N b in
      String (b64 (a / 4))
        (String (b64 ((a mod 4) * 16 + b / 16))
           (String (b64 ((b mod 16) * 4)) EmptyString))
  | a :: b :: c :: rest =>
      let a := Byte.to_N a in
      let b := Byte.to_N b in
      let c := Byte.to_N c in
      String (b64 (a / 4))
        (String (b64 ((a mod 4) * 16 + b / 16))
           (String (b64 ((b mod 16) * 4 + c / 64))
              (String (b64 (c mod 64)) (base64url rest))))
  end%N.

(** [generateToken()], given the [TOKEN_BYTES] bytes [crypto.randomBytes] drew. *)
Definition generateToken (randomBytes : list Byte.byte) : string :=
  base64url randomBytes.

(** [Buffer.from(s)]: the UTF-8 bytes of a string of code units below 256. *)
Fixpoint bufferFrom (s : string) : list N :=
  match s with
  | EmptyString => []
  | String c s' =>
      let n := Js.codeUnit c in
      if (n <? 128)%N then n :: bufferFrom s'
      else (192 + n / 64)%N :: (128 + n mod 64)%N :: bufferFrom s'
  end.

(** [crypto.timingSafeEqual]: throws on buffers of different byte length. *)
Definition timingSafeEqual (a b : list N) : Outcome bool :=
  if (List.length a =? List.length b)%nat
  then Returned (bool_decide (a = b))
  else Threw "RangeError: Input buffers must have the same byte length".

Definition safeEqualHash (a b : string) : Outcome bool :=
  if negb (String.length a =? String.length b)%nat then Returned false
  else timingSafeEqual (bufferFrom a) (bufferFrom b).

(** [registry.tenants[key]] on a plain object: own properties first, then
    the members every object inherits from [Object.prototype].  An
    inherited member is a function or object of the runtime, truthy, with
    none of the fields of a [TenantEntry] until something writes them. *)
Inductive Property :=
| OwnProperty (entry : TenantEntry)
| InheritedProperty
| Undefined.

Definition objectPrototypeKeys : list string :=
  [ "constructor"; "__proto__"; "hasOwnProperty"; "isPrototypeOf";
    "propertyIsEnumerable"; "toLocaleString"; "toString"; "valueOf";
    "__defineGetter__"; "__defineSetter__"; "__lookupGetter__";
    "__lookupSetter__" ].

Definition getProperty (tenants : gmap string TenantEntry) (key : string) : Property :=
  match tenants !! key with
  | Some entry => OwnProperty entry
  | None =>
      if Js.arrayIncludes key objectPrototypeKeys then InheritedProperty
      else Undefined
  end.

(** A loaded registry: its tenants, and whether that object is the shared
    [EMPTY_REGISTRY.tenants] (file missing, unreadable or of another
    version) rather than a freshly parsed one. *)
Record LoadedRegistry := mkLoaded {
  lr_tenants : gmap string TenantEntry;
  lr_shared : bool
}.

(** [loadTenantRegistry]: the parsed file when it is a registry of
    version 1, whose [tenants] is then an object; the fallback copy when
    the file is missing, is not JSON, or is a document of another kind
    or version. *)
Definition loadTenantRegistry (env : Env) : M LoadedRegistry :=
  let! w := get in
  match files w !! resolveTenantRegistryPath env with
  | Some (RegistryDoc version tenants) =>
      if version =? 1 then ret {| lr_tenants := tenants; lr_shared := false |}
      else ret {| lr_tenants := EMPTY_REGISTRY_tenants w; lr_shared := true |}
  | _ => ret {| lr_tenants := EMPTY_REGISTRY_tenants w; lr_shared := true |}
  end.

(** [registry.tenants[tenantId] = entry]: writes through to the shared
    object when the registry is the fallback copy. *)
Definition assignTenant (registry : LoadedRegistry) (tenantId : string)
    (entry : TenantEntry) : M LoadedRegistry :=
  let tenants := <[tenantId := entry]> (lr_tenants registry) in
  run! (if lr_shared registry then modify (setShared tenants) else ret tt) in
  ret {| lr_tenants := tenants; lr_shared := lr_shared registry |}.

Definition saveTenantRegistry (registry : LoadedRegistry) (env : Env) : M unit :=
  let registryPath := resolveTenantRegistryPath env in
  run! modify (mkdir (Path.dirname registryPath)) in
  modify (writeFile registryPath (RegistryDoc 1 (lr_tenants registry))).

Definition initializeTenantDirectories (tenantId : string) (env : Env) : M unit :=
  let dirs := [ resolveTenantStateDir (Some tenantId) env;
                resolveTenantWorkspace tenantId env;
                resolveTenantSessionsDir tenantId "main" env;
                resolveTenantMemoryDir tenantId env;
                resolveTenantPluginsDir tenantId env;
                resolveTenantSandboxDir tenantId env;
                resolveTenantCredentialsDir tenantId env ] in
  modify (fun w => fold_left (fun w dir => mkdir dir w) dirs w).

Definition dquote : string := String (ascii_of_N 34) EmptyString.

Section Registry.

(** [hashToken]: [crypto.createHash("sha256").update(token).digest("hex")]. *)
Variable hashToken : string -> string.

Definition createTenant (tenantId : string) (displayName : option string)
    (env : Env) (randomBytes : list Byte.byte) (now : Date) : M CreateTenantResult :=
  if negb (isValidTenantId tenantId) then
    throw ("Invalid tenant ID: " +:+ dquote +:+ tenantId +:+ dquote +:+
           ". Must match pattern: lowercase alphanumeric, hyphens, underscores, 1-32 chars.")
  else
    let! registry := loadTenantRegistry env in
    match getProperty (lr_tenants registry) tenantId with
    | OwnProperty _ | InheritedProperty =>
        throw ("Tenant already exists: " +:+ dquote +:+ tenantId +:+ dquote)
    | Undefined =>
        let token := generateToken randomBytes in
        let tokenHash := hashToken token in
        let createdAt := toISOString now in
        let entry := {| e_tokenHash := tokenHash; e_createdAt := createdAt;
                        e_lastSeenAt := None; e_displayName := displayName;
                        e_disabled := None; e_quotas := None |} in
        let! registry := assignTenant registry tenantId entry in
        run! saveTenantRegistry registry env in
        run! initializeTenantDirectories tenantId env in
        ret {| r_tenantId := tenantId;
               r_token := buildTenantToken tenantId token;
               r_createdAt := createdAt |}
    end.

Definition liftOutcome {A} (o : Outcome A) : M A := fun w => (o, w).

Definition validateTenantToken (token : string) (env : Env) (now : Date)
    : M (option TenantContext) :=
  match parseTenantToken token with
  | None => ret None
  | Some (tenantId, secret) =>
      let! registry := loadTenantRegistry env in
      match getProperty (lr_tenants registry) tenantId with
      | Undefined => ret None
      | InheritedProperty =>
          (* a built-in nothing has written on: no [disabled], and
             [safeEqualHash] reads [length] of its undefined [tokenHash] *)
          throw "TypeError: Cannot read properties of undefined (reading 'length')"
      | OwnProperty entry =>
          if default false (e_disabled entry) then ret None
          else
            let providedHash := hashToken secret in
            let! equal := liftOutcome (safeEqualHash providedHash (e_tokenHash entry)) in
            if negb equal then ret None
            else
              let entry := {| e_tokenHash := e_tokenHash entry;
                              e_createdAt := e_createdAt entry;
                              e_lastSeenAt := Some (toISOString now);
                              e_displayName := e_displayName entry;
                              e_disabled := e_disabled entry;
                              e_quotas := e_quotas entry |} in
              let! registry := assignTenant registry tenantId entry in
              run! saveTenantRegistry registry env in
              ret (Some {| c_tenantId := tenantId;
                           c_tokenHash := e_tokenHash entry;
                           c_stateDir := resolveTenantStateDir (Some tenantId) env;
                           c_createdAt := e_createdAt entry;
                           c_lastSeenAt := e_lastSeenAt entry |})
      end
  end.

End Registry.

(** ** registry.ts, the remaining operations *)

(** [delete registry.tenants[tenantId]]: removes an own property only,
    and writes through to the shared object of the fallback copy. *)
Definition deleteTenantKey (registry : LoadedRegistry) (tenantId : string)
    : M LoadedRegistry :=
  let tenants := delete tenantId (lr_tenants registry) in
  run! (if lr_shared registry then modify (setShared tenants) else ret tt) in
  ret {| lr_tenants := tenants; lr_shared := lr_shared registry |}.

(** [path] is [dir] itself or lies below it. *)
Definition under (dir path : string) : bool :=
  String.eqb path dir || Js.startsWith (dir +:+ "/") path.

(** [fs.existsSync(path)]: a recorded directory, a file, or a directory
    implied by something recorded below it. *)
Definition existsSync (path : string) (w : World) : bool :=
  existsb (under path) (elements (dirs w) ++ map fst (map_to_list (files w))).

(** [fs.rmSync(path, { recursive: true, force: true })] *)
Definition rmSync (path : string) (w : World) : World :=
  {| files := filter (fun kv => under path (fst kv) = false) (files w);
     dirs := filter (fun d => under path d = false) (dirs w);
     EMPTY_REGISTRY_tenants := EMPTY_REGISTRY_tenants w |}.

Definition removeTenant (tenantId : string) (deleteData : option bool) (env : Env)
    : M unit :=
  let! registry := loadTenantRegistry env in
  match getProperty (lr_tenants registry) tenantId with
  | Undefined => throw ("Tenant not found: " +:+ dquote +:+ tenantId +:+ dquote)
  | _ =>
      let! registry := deleteTenantKey registry tenantId in
      run! saveTenantRegistry registry env in
      if default false deleteData then
        let tenantDir := resolveTenantStateDir (Some tenantId) env in
        let! w := get in
        if existsSync tenantDir w then modify (rmSync tenantDir) else ret tt
      else ret tt
  end.

(** What [rotateTenantToken] returns; [rt_builtin] tells that the entry
    found was an inherited built-in, so that the new hash was stored on
    that object, where [World] does not follow it, and not in the
    registry. *)
Record Rotated := mkRotated {
  rt_tenantId : string;
  rt_token : string;
  rt_builtin : bool
}.

Definition withTokenHash (h : string) (e : TenantEntry) : TenantEntry :=
  {| e_tokenHash := h; e_createdAt := e_createdAt e; e_lastSeenAt := e_lastSeenAt e;
     e_displayName := e_displayName e; e_disabled := e_disabled e;
     e_quotas := e_quotas e |}.

Record TenantUpdates := mkUpdates {
  up_displayName : option string;
  up_disabled : option bool;
  up_quotas : option TenantQuotas
}.

(** The three selective writes of [updateTenant]; [x || undefined] turns
    an empty name and [false] into an absent field. *)
Definition applyUpdates (updates : TenantUpdates) (e : TenantEntry) : TenantEntry :=
  {| e_tokenHash := e_tokenHash e;
     e_createdAt := e_createdAt e;
     e_lastSeenAt := e_lastSeenAt e;
     e_displayName :=
       match up_displayName updates with
       | Some name => if Js.truthy name then Some name else None
       | None => e_displayName e
       end;
     e_disabled :=
       match up_disabled updates with
       | Some d => if d then Some true else None
       | None => e_disabled e
       end;
     e_quotas :=
       match up_quotas updates with
       | Some q => Some q
       | None => e_quotas e
       end |}.

(** [updateTenant]; the result tells whether the writes went to an
    inherited built-in instead of a registry entry. *)
Definition updateTenant (tenantId : string) (updates : TenantUpdates) (env : Env)
    : M bool :=
  let! registry := loadTenantRegistry env in
  match getProperty (lr_tenants registry) tenantId with
  | Undefined => throw ("Tenant not found: " +:+ dquote +:+ tenantId +:+ dquote)
  | InheritedProperty =>
      run! saveTenantRegistry registry env in
      ret true
  | OwnProperty entry =>
      let! registry := assignTenant registry tenantId (applyUpdates updates entry) in
      run! saveTenantRegistry registry env in
      ret false
  end.

Section Rotation.

Variable hashToken : string -> string.

Definition rotateTenantToken (tenantId : string) (env : Env)
    (randomBytes : list Byte.byte) : M Rotated :=
  let! registry := loadTenantRegistry env in
  match getProperty (lr_tenants registry) tenantId with
  | Undefined => throw ("Tenant not found: " +:+ dquote +:+ tenantId +:+ dquote)
  | InheritedProperty =>
      let newToken := generateToken randomBytes in
      run! saveTenantRegistry registry env in
      ret {| rt_tenantId := tenantId;
             rt_token := buildTenantToken tenantId newToken;
             rt_builtin := true |}
  | OwnProperty entry =>
      let newToken := generateToken randomBytes in
      let! registry :=
        assignTenant registry tenantId (withTokenHash (hashToken newToken) entry) in
      run! saveTenantRegistry registry env in
      ret {| rt_tenantId := tenantId;
             rt_token := buildTenantToken tenantId newToken;
             rt_builtin := false |}
  end.

End Rotation.

End Tenants.

(* ===================================================================== *)
(** * tenants/usage.ts *)
(* ===================================================================== *)

Module Usage.
Import Tenants.
Local Open Scope Z_scope.

(** [String(n)] for an integer [n]. *)
Definition decimal (n : Z) : string := NilEmpty.string_of_int (Z.to_int n).

(** [s.padStart(2, "0")] *)
Definition padStart2 (s : string) : string :=
  match String.length s with
  | O => "00"
  | S O => "0" +:+ s
  | _ => s
  end.

Definition getCurrentPeriod (now : Date) : string :=
  let year := getFullYear now in
  let month := padStart2 (decimal (getMonth now + 1)) in
  decimal year +:+ "-" +:+ month.

(** Day number, counted from 1970-01-01, of the first day of month
    [month] (0-based, any integer) of year [year]. *)
Definition dayOfMonthStart (year month : Z) : Z :=
  let ym := year + month / 12 in
  let m := month mod 12 + 1 in
  let y := if m <=? 2 then ym - 1 else ym in
  let era := y / 400 in
  let yoe := y - era * 400 in
  let mp := (m + 9) mod 12 in
  let doy := (153 * mp + 2) / 5 in
  let doe := yoe * 365 + yoe / 4 - yoe / 100 + doy in
  era * 146097 + doe - 719468.

(** [Date.UTC(year, month, 1, 0, 0, 0)] *)
Definition Date_UTC (year month : Z) : Z :=
  let year := if (0 <=? year) && (year <=? 99) then 1900 + year else year in
  dayOfMonthStart year month * 86400000.

Definition getQuotaResetTimestamp (now : Date) : Z :=
  Date_UTC (getFullYear now) (getMonth now + 1).

Definition createEmptyUsageSnapshot (tenantId : string) (now : Date)
    : TenantUsageSnapshot :=
  {| u_tenantId := tenantId;
     u_period := getCurrentPeriod now;
     totalTokens := 0;
     inputTokens := 0;
     outputTokens := 0;
     cacheReadTokens := 0;
     cacheWriteTokens := 0;
     totalCostCents := 0;
     diskUsageBytes := 0;
     workspaceBytes := 0;
     agentDataBytes := 0;
     memoryDbBytes := 0;
     totalSessions := 0;
     activeSessions := 0;
     totalMessages := 0;
     totalRequests := 0;
     requestsThisMinute := 0;
     requestsThisHour := 0;
     sandboxCpuSeconds := 0;
     sandboxPeakMemoryMB := 0;
     updatedAt := getTime now;
     quotaResetAt := getQuotaResetTimestamp now |}.

Definition archiveUsageSnapshot (tenantId : string) (snapshot : TenantUsageSnapshot)
    (env : Env) : M unit :=
  let historyPath := resolveTenantUsageHistoryPath tenantId (u_period snapshot) env in
  let usageDir := resolveTenantUsageDir tenantId env in
  run! modify (mkdir usageDir) in
  modify (writeFile historyPath (UsageDoc snapshot)).

(** [archiveUsageSnapshot] applied to a parsed document that is no
    snapshot: its [period] is [undefined], which names the history file,
    and the document is written back as it was read. *)
Definition archiveForeignDocument (tenantId : string) (parsed : FileData)
    (env : Env) : M unit :=
  let historyPath := resolveTenantUsageHistoryPath tenantId "undefined" env in
  let usageDir := resolveTenantUsageDir tenantId env in
  run! modify (mkdir usageDir) in
  modify (writeFile historyPath parsed).

(** [loadTenantUsage]: a missing file is [ENOENT] and gives a fresh
    snapshot; text that is not JSON makes [JSON.parse] throw, and the
    error is passed on; whatever else was parsed is compared by its
    [period] and, when that is not the current one, archived. *)
Definition loadTenantUsage (tenantId : string) (env : Env) (now : Date)
    : M TenantUsageSnapshot :=
  let usagePath := resolveTenantUsageCurrentPath tenantId env in
  let currentPeriod := getCurrentPeriod now in
  let! w := get in
  match files w !! usagePath with
  | None => ret (createEmptyUsageSnapshot tenantId now)
  | Some (UsageDoc snapshot) =>
      if negb (String.eqb (u_period snapshot) currentPeriod) then
        run! archiveUsageSnapshot tenantId snapshot env in
        ret (createEmptyUsageSnapshot tenantId now)
      else ret snapshot
  | Some (OtherData _) => throw "SyntaxError: Unexpected token in JSON"
  | Some parsed =>
      run! archiveForeignDocument tenantId parsed env in
      ret (createEmptyUsageSnapshot tenantId now)
  end.

Definition withUpdatedAt (t : Z) (s : TenantUsageSnapshot) : TenantUsageSnapshot :=
  {| u_tenantId := u_tenantId s; u_period := u_period s;
     totalTokens := totalTokens s; inputTokens := inputTokens s;
     outputTokens := outputTokens s; cacheReadTokens := cacheReadTokens s;
     cacheWriteTokens := cacheWriteTokens s; totalCostCents := totalCostCents s;
     diskUsageBytes := diskUsageBytes s; workspaceBytes := workspaceBytes s;
     agentDataBytes := agentDataBytes s; memoryDbBytes := memoryDbBytes s;
     totalSessions := totalSessions s; activeSessions := activeSessions s;
     totalMessages := totalMessages s; totalRequests := totalRequests s;
     requestsThisMinute := requestsThisMinute s;
     requestsThisHour := requestsThisHour s;
     sandboxCpuSeconds := sandboxCpuSeconds s;
     sandboxPeakMemoryMB := sandboxPeakMemoryMB s;
     updatedAt := t; quotaResetAt := quotaResetAt s |}.

Definition saveTenantUsage (tenantId : string) (snapshot : TenantUsageSnapshot)
    (env : Env) (now : Date) : M unit :=
  let usageDir := resolveTenantUsageDir tenantId env in
  let usagePath := resolveTenantUsageCurrentPath tenantId env in
  run! modify (mkdir usageDir) in
  modify (writeFile usagePath (UsageDoc (withUpdatedAt (getTime now) snapshot))).

(** ** Rate limiting *)

(** [loadRateLimitState] hands back what [JSON.parse] gave, unchecked;
    the empty state stands in only when reading or parsing threw. *)
Definition loadRateLimitState (tenantId : string) (env : Env) (now : Date)
    : M FileData :=
  let rateLimitPath := resolveTenantRateLimitPath tenantId env in
  let! w := get in
  match files w !! rateLimitPath with
  | None | Some (OtherData _) =>
      ret (RateLimitDoc {| minuteWindow := []; hourWindow := [];
                           lastCleanup := getTime now |})
  | Some parsed => ret parsed
  end.

Definition saveRateLimitState (tenantId : string) (state : RateLimitState)
    (env : Env) : M unit :=
  let usageDir := resolveTenantUsageDir tenantId env in
  let rateLimitPath := resolveTenantRateLimitPath tenantId env in
  run! modify (mkdir usageDir) in
  modify (writeFile rateLimitPath (RateLimitDoc state)).

Record RateCheck := mkRateCheck {
  rc_allowed : bool;
  rc_reason : option string
}.

Definition recordRequest (minute hour : Z) (s : TenantUsageSnapshot)
    : TenantUsageSnapshot :=
  {| u_tenantId := u_tenantId s; u_period := u_period s;
     totalTokens := totalTokens s; inputTokens := inputTokens s;
     outputTokens := outputTokens s; cacheReadTokens := cacheReadTokens s;
     cacheWriteTokens := cacheWriteTokens s; totalCostCents := totalCostCents s;
     diskUsageBytes := diskUsageBytes s; workspaceBytes := workspaceBytes s;
     agentDataBytes := agentDataBytes s; memoryDbBytes := memoryDbBytes s;
     totalSessions := totalSessions s; activeSessions := activeSessions s;
     totalMessages := totalMessages s; totalRequests := totalRequests s + 1;
     requestsThisMinute := minute;
     requestsThisHour := hour;
     sandboxCpuSeconds := sandboxCpuSeconds s;
     sandboxPeakMemoryMB := sandboxPeakMemoryMB s;
     updatedAt := updatedAt s; quotaResetAt := quotaResetAt s |}.

(** [window.length >= limit] for an optional limit. *)
Definition atLimit (window : list Z) (limit : option Z) : bool :=
  match limit with
  | Some n => Z.of_nat (List.length window) >=? n
  | None => false
  end.

(** [checkAndRecordRequest]; on a parsed document that is no rate-limit
    state, [state.minuteWindow] is [undefined] and the call of [filter]
    on it throws. *)
Definition checkAndRecordRequest (tenantId : string) (quotas : TenantQuotas)
    (env : Env) (now : Date) : M RateCheck :=
  let now_ms := getTime now in
  let! parsed := loadRateLimitState tenantId env now in
  match parsed with
  | RateLimitDoc state =>
    let oneMinuteAgo := now_ms - 60 * 1000 in
    let oneHourAgo := now_ms - 60 * 60 * 1000 in
    let minuteWindow := List.filter (fun t => oneMinuteAgo <? t) (minuteWindow state) in
    let hourWindow := List.filter (fun t => oneHourAgo <? t) (hourWindow state) in
    if atLimit minuteWindow (requestsPerMinute quotas) then
      ret {| rc_allowed := false; rc_reason := Some "Rate limit exceeded (per minute)" |}
    else if atLimit hourWindow (requestsPerHour quotas) then
      ret {| rc_allowed := false; rc_reason := Some "Rate limit exceeded (per hour)" |}
    else
      let minuteWindow := (minuteWindow ++ [now_ms])%list in
      let hourWindow := (hourWindow ++ [now_ms])%list in
      let state := {| minuteWindow := minuteWindow; hourWindow := hourWindow;
                      lastCleanup := now_ms |} in
      run! saveRateLimitState tenantId state env in
      let! snapshot := loadTenantUsage tenantId env now in
      let snapshot := recordRequest (Z.of_nat (List.length minuteWindow))
                                    (Z.of_nat (List.length hourWindow)) snapshot in
      run! saveTenantUsage tenantId snapshot env now in
      ret {| rc_allowed := true; rc_reason := None |}
  | _ => throw "TypeError: Cannot read properties of undefined (reading 'filter')"
  end.

(** ** Quota status and enforcement *)

Record TenantQuotaStatus := mkStatus {
  qs_tenantId : string;
  qs_quotas : TenantQuotas;
  qs_usage : TenantUsageSnapshot;
  tokenUsagePercent : Q;
  costUsagePercent : Q;
  diskUsagePercent : Q;
  isOverTokenLimit : bool;
  isOverCostLimit : bool;
  isOverDiskLimit : bool;
  isAtSoftLimit : bool;
  isBlocked : bool
}.

(** [limit ? (used / limit) * 100 : 0] *)
Definition percentOf (used : Z) (limit : option Z) : Q :=
  match limit with
  | Some n => if n =? 0 then 0%Q else (inject_Z used / inject_Z n * 100)%Q
  | None => 0%Q
  end.

(** [limit ? used >= limit : false] *)
Definition reached (used : Z) (limit : option Z) : bool :=
  match limit with
  | Some n => if n =? 0 then false else used >=? n
  | None => false
  end.

Definition getTenantQuotaStatus (tenantId : string) (quotas : TenantQuotas)
    (env : Env) (now : Date) : M TenantQuotaStatus :=
  let! usage := loadTenantUsage tenantId env now in
  let isOverTokenLimit := reached (totalTokens usage) (monthlyTokenLimit quotas) in
  let isOverCostLimit := reached (totalCostCents usage) (monthlyCostLimitCents quotas) in
  let isOverDiskLimit := reached (diskUsageBytes usage) (diskSpaceLimitBytes quotas) in
  let isAtTokenSoftLimit := reached (totalTokens usage) (monthlyTokenSoftLimit quotas) in
  let isAtCostSoftLimit := reached (totalCostCents usage) (monthlyCostSoftLimitCents quotas) in
  ret {| qs_tenantId := tenantId;
         qs_quotas := quotas;
         qs_usage := usage;
         tokenUsagePercent := percentOf (totalTokens usage) (monthlyTokenLimit quotas);
         costUsagePercent := percentOf (totalCostCents usage) (monthlyCostLimitCents quotas);
         diskUsagePercent := percentOf (diskUsageBytes usage) (diskSpaceLimitBytes quotas);
         isOverTokenLimit := isOverTokenLimit;
         isOverCostLimit := isOverCostLimit;
         isOverDiskLimit := isOverDiskLimit;
         isAtSoftLimit := isAtTokenSoftLimit || isAtCostSoftLimit;
         isBlocked := isOverTokenLimit || isOverCostLimit || isOverDiskLimit |}.

(** [quotas.maxConcurrentSessions !== undefined &&
     status.usage.activeSessions >= quotas.maxConcurrentSessions] *)
Definition atSessionLimit (status : TenantQuotaStatus) (quotas : TenantQuotas) : bool :=
  match maxConcurrentSessions quotas with
  | Some n => activeSessions (qs_usage status) >=? n
  | None => false
  end.

(** Values of the properties of a returned object literal. *)
Inductive JsValue :=
| JsUndefined
| JsBoolean (b : bool)
| JsString (s : string).

(** An object literal: its properties in the order written. *)
Definition JsObject := list (string * JsValue).

Definition optString (o : option string) : JsValue :=
  match o with Some s => JsString s | None => JsUndefined end.

Definition denied (reason message : JsValue) : JsObject :=
  [ ("allowed", JsBoolean false); ("reason", reason); ("message", message) ].

Section Enforcement.

(** [x.toFixed(1)], a floating-point rendering. *)
Variable toFixed1 : Q -> string.

Definition checkQuotaBeforeRequest (tenantId : string) (quotas : TenantQuotas)
    (env : Env) (now : Date) : M JsObject :=
  let! rateLimitResult := checkAndRecordRequest tenantId quotas env now in
  if negb (rc_allowed rateLimitResult) then
    ret (denied (JsString "rate_limited") (optString (rc_reason rateLimitResult)))
  else
    let! status := getTenantQuotaStatus tenantId quotas env now in
    if isOverTokenLimit status then
      ret (denied (JsString "quota_exceeded") (JsString "Monthly token quota exceeded"))
    else if isOverCostLimit status then
      ret (denied (JsString "quota_exceeded") (JsString "Monthly cost limit exceeded"))
    else if isOverDiskLimit status then
      ret (denied (JsString "disk_full") (JsString "Disk space limit exceeded"))
    else if atSessionLimit status quotas then
      ret (denied (JsString "sessions_exceeded")
                  (JsString "Maximum concurrent sessions reached"))
    else
      let warning :=
        if isAtSoftLimit status then
          let w1 :=
            if reached (totalTokens (qs_usage status)) (monthlyTokenSoftLimit quotas)
            then ["Token usage at " +:+ toFixed1 (tokenUsagePercent status) +:+ "% of limit"]
            else [] in
          let w2 :=
            if reached (totalCostCents (qs_usage status)) (monthlyCostSoftLimitCents quotas)
            then ["Cost at " +:+ toFixed1 (costUsagePercent status) +:+ "% of limit"]
            else [] in
          JsString (Js.join "; " (w1 ++ w2)%list)
        else JsUndefined in
      ret [ ("allowed", JsBoolean true); ("warning", warning) ].

End Enforcement.

(** [obj.key], [undefined] when the property is absent. *)
Fixpoint getField (key : string) (obj : JsObject) : JsValue :=
  match obj with
  | [] => JsUndefined
  | (k, v) :: rest => if String.eqb k key then v else getField key rest
  end.

Definition keys (obj : JsObject) : list string := map fst obj.

(** Every counter of a snapshot is zero. *)
Definition countersZero (s : TenantUsageSnapshot) : Prop :=
  totalTokens s = 0 /\ inputTokens s = 0 /\ outputTokens s = 0
  /\ cacheReadTokens s = 0 /\ cacheWriteTokens s = 0
  /\ totalCostCents s = 0
  /\ diskUsageBytes s = 0 /\ workspaceBytes s = 0
  /\ agentDataBytes s = 0 /\ memoryDbBytes s = 0
  /\ totalSessions s = 0 /\ activeSessions s = 0 /\ totalMessages s = 0
  /\ totalRequests s = 0 /\ requestsThisMinute s = 0 /\ requestsThisHour s = 0
  /\ sandboxCpuSeconds s = 0 /\ sandboxPeakMemoryMB s = 0.

(** A retry-after hint: some property of the object named after a retry
    ([retryAfterMs], [retryAfter], [retry_after], ...). *)
Definition hasRetryAfterHint (obj : JsObject) : bool :=
  existsb (fun k => Js.includes "retry" (Js.toLowerCase k)) (keys obj).

(** ** Usage updates *)

Record TokenDelta := mkTokenDelta {
  td_input : option Z;
  td_output : option Z;
  td_cacheRead : option Z;
  td_cacheWrite : option Z
}.

(** JavaScript numbers are doubles: a sum of integers is the integer sum
    as long as it stays within [MAX_SAFE_INTEGER], and is rounded beyond. *)
Definition MAX_SAFE_INTEGER : Z := 2 ^ 53 - 1.

(** The counter updates of [updateTokenUsage], with the sums taken in the
    integers: those of the source for counters and amounts that are
    non-negative integers whose sums stay within [MAX_SAFE_INTEGER]. *)
Definition addTokens (tokens : TokenDelta) (costCents : option Z)
    (s : TenantUsageSnapshot) : TenantUsageSnapshot :=
  let inputTokens' := inputTokens s + default 0 (td_input tokens) in
  let outputTokens' := outputTokens s + default 0 (td_output tokens) in
  let cacheReadTokens' := cacheReadTokens s + default 0 (td_cacheRead tokens) in
  let cacheWriteTokens' := cacheWriteTokens s + default 0 (td_cacheWrite tokens) in
  {| u_tenantId := u_tenantId s; u_period := u_period s;
     totalTokens := inputTokens' + outputTokens' + cacheReadTokens' + cacheWriteTokens';
     inputTokens := inputTokens';
     outputTokens := outputTokens';
     cacheReadTokens := cacheReadTokens';
     cacheWriteTokens := cacheWriteTokens';
     totalCostCents :=
       match costCents with
       | Some c => totalCostCents s + c
       | None => totalCostCents s
       end;
     diskUsageBytes := diskUsageBytes s; workspaceBytes := workspaceBytes s;
     agentDataBytes := agentDataBytes s; memoryDbBytes := memoryDbBytes s;
     totalSessions := totalSessions s; activeSessions := activeSessions s;
     totalMessages := totalMessages s + 1; totalRequests := totalRequests s;
     requestsThisMinute := requestsThisMinute s;
     requestsThisHour := requestsThisHour s;
     sandboxCpuSeconds := sandboxCpuSeconds s;
     sandboxPeakMemoryMB := sandboxPeakMemoryMB s;
     updatedAt := updatedAt s; quotaResetAt := quotaResetAt s |}.

Definition updateTokenUsage (tenantId : string) (tokens : TokenDelta)
    (costCents : option Z) (env : Env) (now : Date) : M unit :=
  let! snapshot := loadTenantUsage tenantId env now in
  saveTenantUsage tenantId (addTokens tokens costCents snapshot) env now.

End Usage.

(* ===================================================================== *)
(** * tenants/backup.ts: archive extraction *)
(* ===================================================================== *)

Module Backup.

Inductive EntryType :=
| File | Directory | SymbolicLink | Link | OtherType.

(** [tar.ReadEntry], as far as the filter reads it. *)
Record ReadEntry := mkEntry {
  path : string;
  type : EntryType;
  linkpath : option string
}.

Definition isLinkType (t : EntryType) : bool :=
  match t with SymbolicLink | Link => true | _ => false end.

(** The [filter] callback handed to [tar.extract]; [cwd] is the working
    directory of the process, [resolvedTargetDir] the closure's constant. *)
Definition securityFilter (cwd resolvedTargetDir entryPath : string)
    (readEntry : ReadEntry) : bool :=
  if isLinkType (type readEntry)
     && (let linkTarget := default "" (linkpath readEntry) in
         let entryDir := Path.dirname (Path.join [resolvedTargetDir; entryPath]) in
         let resolvedLink := Path.resolve cwd [entryDir; linkTarget] in
         negb (Js.startsWith (resolvedTargetDir +:+ Path.sep) resolvedLink)
         && negb (String.eqb resolvedLink resolvedTargetDir))
  then false
  else
    let resolvedEntry := Path.resolve cwd [resolvedTargetDir; entryPath] in
    if negb (Js.startsWith (resolvedTargetDir +:+ Path.sep) resolvedEntry)
       && negb (String.eqb resolvedEntry resolvedTargetDir)
    then false
    else true.

(** [p] is the target directory or lies below it, as the filter tests it. *)
Definition inside (resolvedTargetDir p : string) : bool :=
  Js.startsWith (resolvedTargetDir +:+ Path.sep) p || String.eqb p resolvedTargetDir.

(** Where the filter takes an entry, and the target of a link, to lie. *)
Definition resolvedEntry (cwd resolvedTargetDir : string) (e : ReadEntry) : string :=
  Path.resolve cwd [resolvedTargetDir; path e].

Definition resolvedLink (cwd resolvedTargetDir : string) (e : ReadEntry) : string :=
  Path.resolve cwd
    [Path.dirname (Path.join [resolvedTargetDir; path e]); default "" (linkpath e)].

(** Where the link that [tar] writes for an accepted entry points.  The
    [linkpath] of a hard link names another member of the archive and is
    resolved against the extraction root, the [cwd] option, which is the
    target directory; that of a symbolic link is stored as it is and read
    from the directory holding the link. *)
Definition linkDestination (cwd resolvedTargetDir : string) (e : ReadEntry) : string :=
  match type e with
  | Link => Path.resolve cwd [resolvedTargetDir; default "" (linkpath e)]
  | _ => resolvedLink cwd resolvedTargetDir e
  end.

(** A benign entry: no link, a relative path, no [..] segment. *)
Definition benign (e : ReadEntry) : bool :=
  negb (isLinkType (type e))
  && negb (Path.isAbsolute (path e))
  && forallb (fun s => negb (String.eqb s "..")) (Js.split "/" (path e)).

(** [extractTarGz]: the entries of the archive that [tar.extract] hands on
    to be written under [targetDir], in archive order. *)
Definition extractTarGz (cwd : string) (archive : list ReadEntry)
    (targetDir : string) : list ReadEntry :=
  let resolvedTargetDir := Path.resolve cwd [targetDir] in
  List.filter (fun entry => securityFilter cwd resolvedTargetDir (path entry) entry)
              archive.

End Backup.

(* ================================================================== *)
(** * [src/gateway/internal-http.ts]                                   *)
(* ================================================================== *)

Module InternalHttp.
Import Tenants.

(** [validateControlPlaneToken], given [config.gateway?.controlPlaneToken]
    and the value of the [x-control-plane-token] header. *)
Definition validateControlPlaneToken (expectedToken header : option string)
    : Outcome bool :=
  match expectedToken with
  | None => Returned false
  | Some expectedToken =>
      if negb (Js.truthy expectedToken) then Returned false
      else
        let providedToken := default "" header in
        if negb (String.length providedToken =? String.length expectedToken)%nat
        then Returned false
        else timingSafeEqual (bufferFrom providedToken) (bufferFrom expectedToken)
  end.

End InternalHttp.

(* ================================================================== *)
(** * [src/gateway/server-methods/tenants.ts]                          *)
(* ================================================================== *)

Module TenantMethods.
Import Protocol Tenants.

Definition hasAdminScope (client : option GatewayClient) : bool :=
  let scopes :=
    match client with
    | Some cl => match connect cl with
                 | Some conn => default [] (scopes conn)
                 | None => []
                 end
    | None => []
    end in
  Js.arrayIncludes "operator.admin" scopes.

(** [opts.client?.tenantId === tenantId] *)
Definition isOwnTenant (client : option GatewayClient) (tenantId : string) : bool :=
  match client with
  | Some cl => match Protocol.tenantId cl with
               | Some own => String.eqb own tenantId
               | None => false
               end
  | None => false
  end.

Definition canAccessTenant (client : option GatewayClient) (tenantId : string) : bool :=
  if hasAdminScope client then true
  else isOwnTenant client tenantId.

Inductive Payload :=
| Deleted (tenantId : string)
| RotatedToken (tenantId token : string).

Record Response := mkResponse {
  ok : bool;
  payload : option Payload;
  error : option ErrorShape
}.

Definition respondOk (p : Payload) : Response :=
  {| ok := true; payload := Some p; error := None |}.

Definition respondError (code : ErrorCode) (message : string) : Response :=
  {| ok := false; payload := None; error := Some (errorShape code message) |}.

(** The parameters of [tenants.delete]; [dp_tenantId] is [None] when the
    value is absent or not a string. *)
Record DeleteParams := mkDeleteParams {
  dp_tenantId : option string;
  dp_deleteData : option bool;
  dp_confirm : option bool
}.

(** [try { ...; respond(true, ...) } catch (err) { respond(false, ...) }] *)
Definition catching {A} (m : M A) (onOk : A -> Response) : M Response :=
  fun w => match m w with
           | (Returned a, w') => (Returned (onOk a), w')
           | (Threw msg, w') => (Returned (respondError UNAVAILABLE msg), w')
           end.

Definition tenants_delete (client : option GatewayClient) (params : DeleteParams)
    (env : Env) : M Response :=
  match dp_tenantId params with
  | None => ret (respondError INVALID_REQUEST "tenantId is required")
  | Some tenantId =>
      if negb (Js.truthy tenantId) then
        ret (respondError INVALID_REQUEST "tenantId is required")
      else
        let isSelfDelete := isOwnTenant client tenantId && negb (hasAdminScope client) in
        if negb (canAccessTenant client tenantId) then
          ret (respondError UNAUTHORIZED "Access denied")
        else if isSelfDelete && negb (bool_decide (dp_confirm params = Some true)) then
          ret (respondError INVALID_REQUEST
                 "Self-delete requires confirm: true to prevent accidental deletion")
        else
          let deleteData := if isSelfDelete then Some true else dp_deleteData params in
          catching (removeTenant tenantId deleteData env)
                   (fun _ => respondOk (Deleted tenantId))
  end.

Section Rotate.

Variable hashToken : string -> string.

Definition tenants_rotate (client : option GatewayClient) (tenantId : option string)
    (env : Env) (randomBytes : list Byte.byte) : M Response :=
  match tenantId with
  | None => ret (respondError INVALID_REQUEST "tenantId is required")
  | Some tenantId =>
      if negb (Js.truthy tenantId) then
        ret (respondError INVALID_REQUEST "tenantId is required")
      else if negb (canAccessTenant client tenantId) then
        ret (respondError UNAUTHORIZED "Access denied")
      else
        catching (rotateTenantToken hashToken tenantId env randomBytes)
                 (fun result => respondOk (RotatedToken (rt_tenantId result)
                                                        (rt_token result)))
  end.

End Rotate.

End TenantMethods.

(* ===================================================================== *)
(** * Facts about the string primitives *)
(* ===================================================================== *)

Module JsFacts.
Import Js.

Lemma startsWith_app p s : startsWith p (p +:+ s) = true.
Proof.
  induction p as [|c p IH]; simpl; [reflexivity|].
  now rewrite Ascii.eqb_refl, IH.
Qed.

Lemma append_assoc a b c : (a +:+ b) +:+ c = a +:+ (b +:+ c).
Proof.
  induction a as [|x a IH]; [reflexivity|].
  change (String x ((a +:+ b) +:+ c) = String x (a +:+ (b +:+ c))). now rewrite IH.
Qed.

Lemma includes_of_startsWith sub s : startsWith sub s = true -> includes sub s = true.
Proof. intros H. destruct s; simpl in *; now rewrite H. Qed.

Lemma includes_app sub s : includes sub (sub +:+ s) = true.
Proof. apply includes_of_startsWith, startsWith_app. Qed.

Lemma truthy_nonempty s : truthy s = true <-> s <> EmptyString.
Proof. destruct s; unfold truthy; simpl; split; intros; congruence. Qed.

End JsFacts.

(* ===================================================================== *)
(** * Method authorization *)
(* ===================================================================== *)

Module AuthFacts.
Import Protocol MethodAuth.

(** A tenant-authenticated operator connection holding every scope. *)
Definition tenantAdminClient : GatewayClient :=
  {| connect := Some {| role := Some "operator";
                        scopes := Some ["operator.admin"; "operator.read";
                                        "operator.write"] |};
     connId := Some "conn-1";
     tenantId := Some "tenant-a" |}.

(** The two scenario calls of the isolation test: read and write scopes only. *)
Definition tenantClient : GatewayClient :=
  {| connect := Some {| role := Some "operator";
                        scopes := Some ["operator.read"; "operator.write"] |};
     connId := Some "conn-2";
     tenantId := Some "tenant-a" |}.

Example wizard_start_blocked :
  authorizeGatewayMethod "wizard.start" (Some tenantClient)
  = Some (errorShape INVALID_REQUEST
            "method not available for tenant token: wizard.start").
Proof. vm_compute. reflexivity. Qed.

Example status_blocked :
  authorizeGatewayMethod "status" (Some tenantClient)
  = Some (errorShape INVALID_REQUEST "method not available for tenant token: status").
Proof. vm_compute. reflexivity. Qed.

Example terminal_list_allowed :
  authorizeGatewayMethod "terminal.list" (Some tenantClient) = None.
Proof. vm_compute. reflexivity. Qed.

(** C1, as stated, fails: [node.event] is outside the tenant allow-list,
    yet a tenant-authenticated operator is turned away by the node-role
    check, whose message does not mention the tenant token. *)
Lemma node_event_not_tenant_message :
  has TENANT_ALLOWED_METHODS "node.event" = false
  /\ roleOf tenantAdminClient = Some "operator"
  /\ truthyOpt (tenantId tenantAdminClient) = true
  /\ authorizeGatewayMethod "node.event" (Some tenantAdminClient)
     = Some (errorShape INVALID_REQUEST "unauthorized role: operator")
  /\ Js.includes "method not available for tenant token"
       "unauthorized role: operator" = false.
Proof. vm_compute. repeat split; reflexivity. Qed.

(** C1 (amended): for every method outside the tenant allow-list, an
    operator connection that carries a tenant id is refused with
    [INVALID_REQUEST] whatever its scopes; the message is
    [method not available for tenant token: M], except for the node-role
    methods, which the earlier role check refuses with
    [unauthorized role: operator]. *)
Theorem tenant_blocked_outside_allowlist (M : string) (cl : GatewayClient) :
  has TENANT_ALLOWED_METHODS M = false ->
  roleOf cl = Some "operator" ->
  truthyOpt (tenantId cl) = true ->
  exists e,
    authorizeGatewayMethod M (Some cl) = Some e
    /\ code e = INVALID_REQUEST
    /\ message e = (if has NODE_ROLE_METHODS M
                    then "unauthorized role: operator"
                    else "method not available for tenant token: " +:+ M)
    /\ (has NODE_ROLE_METHODS M = false ->
        Js.includes "method not available for tenant token" (message e) = true).
Proof.
  intros Hout Hrole Htenant.
  unfold authorizeGatewayMethod, roleOf in *.
  destruct (connect cl) as [conn|]; [|discriminate].
  injection Hrole as Hrole. rewrite Hrole, Htenant, Hout.
  change (String.eqb "operator" "node") with false.
  change (String.eqb "operator" "operator") with true.
  destruct (has NODE_ROLE_METHODS M) eqn:Hnode.
  - eexists. split; [reflexivity|]. split; [reflexivity|].
    split; [reflexivity|discriminate].
  - cbn [negb andb]. eexists. split; [reflexivity|]. split; [reflexivity|].
    split; [reflexivity|].
    intros _. reflexivity.
Qed.

Lemma tenant_blocked_outside_allowlist_witness :
  exists e,
    authorizeGatewayMethod "wizard.start" (Some tenantAdminClient) = Some e
    /\ code e = INVALID_REQUEST
    /\ message e = "method not available for tenant token: wizard.start".
Proof.
  assert (has TENANT_ALLOWED_METHODS "wizard.start" = false) as H1
    by (vm_compute; reflexivity).
  assert (roleOf tenantAdminClient = Some "operator") as H2 by reflexivity.
  assert (truthyOpt (tenantId tenantAdminClient) = true) as H3 by reflexivity.
  destruct (tenant_blocked_outside_allowlist "wizard.start" tenantAdminClient H1 H2 H3)
    as (e & He & Hc & Hm & _).
  exists e. repeat split; [exact He|exact Hc|].
  rewrite Hm. vm_compute. reflexivity.
Defined.

End AuthFacts.

(* ===================================================================== *)
(** * PTY sessions *)
(* ===================================================================== *)

Module TerminalFacts.
Import Protocol Terminal.

Lemma mapGet_mapSet_same k v m : mapGet k (mapSet k v m) = Some v.
Proof.
  induction m as [|[k' v'] m IH]; simpl.
  - now rewrite String.eqb_refl.
  - destruct (String.eqb k k') eqn:E; simpl; rewrite E; [reflexivity|exact IH].
Qed.

Lemma mapGet_mapSet_other k k' v m :
  k <> k' -> mapGet k' (mapSet k v m) = mapGet k' m.
Proof.
  intros Hne. induction m as [|[k0 v0] m IH]; simpl.
  - destruct (String.eqb k' k) eqn:E; [|reflexivity].
    apply String.eqb_eq in E. congruence.
  - destruct (String.eqb k k0) eqn:E; simpl.
    + apply String.eqb_eq in E. subst k0.
      destruct (String.eqb k' k) eqn:E'; [|reflexivity].
      apply String.eqb_eq in E'. congruence.
    + now rewrite IH.
Qed.

Lemma mapGet_In k v m : mapGet k m = Some v -> In v (mapValues m).
Proof.
  induction m as [|[k' v'] m IH]; simpl; [discriminate|].
  destruct (String.eqb k k'); intros H.
  - left. congruence.
  - right. auto.
Qed.

Lemma mapValues_mapSet v k v' m :
  In v (mapValues (mapSet k v' m)) -> v = v' \/ In v (mapValues m).
Proof.
  induction m as [|[k0 v0] m IH]; simpl.
  - intros [H|[]]. now left.
  - destruct (String.eqb k k0); simpl.
    + intros [H|H]; [now left|right; now right].
    + intros [H|H]; [right; now left|].
      destruct (IH H); [now left|right; now right].
Qed.

Lemma mapValues_mapDelete v k m :
  In v (mapValues (mapDelete k m)) -> In v (mapValues m).
Proof.
  induction m as [|[k0 v0] m IH]; simpl; [tauto|].
  destruct (String.eqb k k0); simpl; [now right|].
  intros [H|H]; [now left|right; auto].
Qed.

(** Scenario S5: tenant A owns terminal [t-a]. *)
Definition ptyA : BwrapPtyHandle := {| pid := 4242; received := []; faulty := None |}.

Definition sessionA : Session :=
  {| s_terminalId := "t-a"; s_tenantId := "tenant-a"; s_connId := "conn-a";
     s_pty := ptyA; s_createdAt := 1000; s_lastActivityAt := 1000 |}.

Definition stateA : State :=
  {| terminalSessions := [("t-a", sessionA)]; cleanupInterval := true |}.

Definition clientOf (tenant : option string) (scopes : list string) : GatewayClient :=
  {| connect := Some {| role := Some "operator"; scopes := Some scopes |};
     connId := Some "conn-b";
     tenantId := tenant |}.

Definition writeX : WriteParams :=
  {| wp_terminalId := Some "t-a"; wp_data := Some "x" |}.

Example S5_cross_tenant_write :
  terminal_write (Some (clientOf (Some "tenant-b") ["operator.read"; "operator.write"]))
    writeX 2000 stateA
  = (stateA, respondError UNAUTHORIZED "Access denied").
Proof. reflexivity. Qed.

Example S5_lists :
  snd (terminal_list (Some (clientOf (Some "tenant-a") ["operator.read"])) stateA)
  = respondOk (Sessions [ {| i_terminalId := "t-a"; i_tenantId := "tenant-a";
                             i_pid := 4242; i_createdAt := 1000;
                             i_lastActivityAt := 1000 |} ])
  /\ snd (terminal_list (Some (clientOf (Some "tenant-b") ["operator.read"])) stateA)
     = respondOk (Sessions []).
Proof. split; reflexivity. Qed.

(** C2, as stated, fails: a caller authenticated as tenant B whose
    connection carries [operator.admin] writes to tenant A's PTY; the data
    reaches the process and [lastActivityAt] moves. *)
Lemma tenant_admin_writes_across_tenants :
  let caller := clientOf (Some "tenant-b") ["operator.admin"] in
  let result := terminal_write (Some caller) writeX 2000 stateA in
  mapGet "t-a" (terminalSessions stateA) = Some sessionA
  /\ getTenantId (Some caller) = Some "tenant-b"
  /\ s_tenantId sessionA = "tenant-a"
  /\ snd result = respondOk (Written 1)
  /\ receivedBy "t-a" (fst result) = [PtyWrite "x"]
  /\ option_map s_lastActivityAt (mapGet "t-a" (terminalSessions (fst result)))
     = Some 2000%Z.
Proof. vm_compute. repeat split; reflexivity. Qed.

(** C2 (amended): a [terminal.write] aimed at a session of another tenant
    is answered [UNAUTHORIZED] and leaves the session map untouched (no
    data forwarded, [lastActivityAt] unchanged) exactly when the caller
    lacks the [operator.admin] scope; a caller holding that scope,
    tenant-authenticated or not, has the data forwarded. *)
Theorem write_cross_tenant (st : State) (terminalId data : string)
    (session : Session) (client : option GatewayClient) (now : Z) :
  Js.truthy terminalId = true ->
  mapGet terminalId (terminalSessions st) = Some session ->
  getTenantId client <> Some (s_tenantId session) ->
  let params := {| wp_terminalId := Some terminalId; wp_data := Some data |} in
  (hasAdminScope client = false ->
     terminal_write client params now st
     = (st, respondError UNAUTHORIZED "Access denied"))
  /\ (hasAdminScope client = true -> faulty (s_pty session) = None ->
        snd (terminal_write client params now st)
        = respondOk (Written (String.length data))
        /\ receivedBy terminalId (fst (terminal_write client params now st))
           = (received (s_pty session) ++ [PtyWrite data])%list).
Proof.
  intros Htid Hget Hother params.
  assert (sameTenant (s_tenantId session) (getTenantId client) = false) as Hdiff.
  { unfold sameTenant. destruct (getTenantId client) as [t|]; [|reflexivity].
    destruct (String.eqb (s_tenantId session) t) eqn:E; [|reflexivity].
    apply String.eqb_eq in E. congruence. }
  unfold terminal_write, params.
  cbn [wp_terminalId wp_data truthyOpt default from_option id].
  rewrite Htid. cbn [negb]. rewrite Hget, Hdiff. split.
  - intros Hadmin. now rewrite Hadmin.
  - intros Hadmin Hok. rewrite Hadmin. cbn [negb andb].
    unfold ptyCall. rewrite Hok. cbn [fst snd]. split; [reflexivity|].
    unfold receivedBy, withSessions. cbn [terminalSessions].
    now rewrite mapGet_mapSet_same.
Qed.

Lemma write_cross_tenant_witness :
  terminal_write (Some (clientOf (Some "tenant-b") ["operator.read"; "operator.write"]))
    writeX 2000 stateA
  = (stateA, respondError UNAUTHORIZED "Access denied").
Proof.
  apply (write_cross_tenant stateA "t-a" "x" sessionA
           (Some (clientOf (Some "tenant-b") ["operator.read"; "operator.write"]))
           2000%Z).
  - reflexivity.
  - reflexivity.
  - discriminate.
  - reflexivity.
Defined.

(** Every handler keeps the sessions owned by non-empty tenant ids. *)
Lemma spawn_keeps_owned client params spawned uuid now st :
  sessionsOwned st ->
  sessionsOwned (fst (terminal_spawn client params spawned uuid now st)).
Proof.
  unfold sessionsOwned. intros Hinv. unfold terminal_spawn.
  destruct (getTenantId client) as [tenantId|]; [|exact Hinv].
  destruct (Js.truthy tenantId) eqn:Ht; [|exact Hinv]. cbn [negb].
  destruct client as [cl|]; [|exact Hinv].
  destruct (truthyOpt (connId cl)); [|exact Hinv]. cbn [negb].
  destruct spawned as [pty|msg]; [|exact Hinv].
  cbn [fst terminalSessions]. apply List.Forall_forall. intros v Hin.
  apply mapValues_mapSet in Hin. destruct Hin as [->|Hin].
  - exact Ht.
  - rewrite List.Forall_forall in Hinv. auto.
Qed.

Lemma write_keeps_owned client params now st :
  sessionsOwned st -> sessionsOwned (fst (terminal_write client params now st)).
Proof.
  unfold sessionsOwned. intros Hinv. unfold terminal_write.
  destruct (truthyOpt (wp_terminalId params)); [|exact Hinv]. cbn [negb].
  destruct (wp_data params) as [data|]; [|exact Hinv].
  destruct (mapGet _ (terminalSessions st)) as [session|] eqn:Hget; [|exact Hinv].
  destruct (negb (hasAdminScope client) && _); [exact Hinv|].
  destruct (ptyCall _ _) as [pty'|msg]; [|exact Hinv].
  cbn [fst withSessions terminalSessions]. apply List.Forall_forall. intros v Hin.
  apply mapValues_mapSet in Hin. rewrite List.Forall_forall in Hinv.
  destruct Hin as [->|Hin]; [|auto].
  cbn [s_tenantId]. apply Hinv. eapply mapGet_In. exact Hget.
Qed.

Lemma resize_keeps_owned client params now st :
  sessionsOwned st -> sessionsOwned (fst (terminal_resize client params now st)).
Proof.
  unfold sessionsOwned. intros Hinv. unfold terminal_resize.
  destruct (truthyOpt (rp_terminalId params)); [|exact Hinv]. cbn [negb].
  destruct (option_map _ (rp_cols params)) as [cols|]; [|exact Hinv].
  destruct (option_map _ (rp_rows params)) as [rows|]; [|exact Hinv].
  destruct (mapGet _ (terminalSessions st)) as [session|] eqn:Hget; [|exact Hinv].
  destruct (negb (hasAdminScope client) && _); [exact Hinv|].
  destruct (ptyCall _ _) as [pty'|msg]; [|exact Hinv].
  cbn [fst withSessions terminalSessions]. apply List.Forall_forall. intros v Hin.
  apply mapValues_mapSet in Hin. rewrite List.Forall_forall in Hinv.
  destruct Hin as [->|Hin]; [|auto].
  cbn [s_tenantId]. apply Hinv. eapply mapGet_In. exact Hget.
Qed.

Lemma close_keeps_owned client terminalId st :
  sessionsOwned st -> sessionsOwned (fst (terminal_close client terminalId st)).
Proof.
  unfold sessionsOwned. intros Hinv. unfold terminal_close.
  destruct (truthyOpt terminalId); [|exact Hinv]. cbn [negb].
  destruct (mapGet _ (terminalSessions st)) as [session|]; [|exact Hinv].
  destruct (negb (hasAdminScope client) && _); [exact Hinv|].
  assert (Forall (fun s => Js.truthy (s_tenantId s) = true)
            (mapValues (mapDelete (default "" terminalId) (terminalSessions st)))) as H.
  { apply List.Forall_forall. intros v Hin. apply mapValues_mapDelete in Hin.
    rewrite List.Forall_forall in Hinv. auto. }
  destruct (ptyCall _ _); exact H.
Qed.

Lemma sameTenant_tenantless sessionTenant tenantId :
  Js.truthy sessionTenant = true ->
  truthyOpt tenantId = false ->
  sameTenant sessionTenant tenantId = false.
Proof.
  intros Hs Hc. destruct tenantId as [t|]; [|reflexivity]. simpl in *.
  destruct (String.eqb sessionTenant t) eqn:E; [|reflexivity].
  apply String.eqb_eq in E. congruence.
Qed.

(** C10: whatever sessions are stored (each owned by a non-empty tenant
    id), [terminal.list] called over a connection without tenant id and
    without [operator.admin] answers with an empty [sessions] array. *)
Theorem list_tenantless_non_admin_empty (st : State) (client : option GatewayClient) :
  sessionsOwned st ->
  truthyOpt (getTenantId client) = false ->
  hasAdminScope client = false ->
  terminal_list client st = (st, respondOk (Sessions [])).
Proof.
  intros Hinv Hnone Hadmin. unfold terminal_list. rewrite Hadmin.
  f_equal. f_equal. f_equal.
  unfold sessionsOwned in Hinv.
  induction (mapValues (terminalSessions st)) as [|s l IH]; [reflexivity|].
  inversion Hinv as [|? ? Hs Hl]; subst. cbn [List.filter orb].
  rewrite (sameTenant_tenantless _ _ Hs Hnone). now apply IH.
Qed.

Lemma list_tenantless_non_admin_empty_witness :
  terminal_list (Some (clientOf None ["operator.read"; "operator.write"])) stateA
  = (stateA, respondOk (Sessions [])).
Proof.
  apply (list_tenantless_non_admin_empty stateA
           (Some (clientOf None ["operator.read"; "operator.write"]))).
  - repeat constructor.
  - reflexivity.
  - reflexivity.
Defined.

End TerminalFacts.

(* ===================================================================== *)
(** * Session keys *)
(* ===================================================================== *)

Module SessionKeyFacts.
Import Js SessionKey.

Ltac ascii_cases c := destruct c as [[] [] [] [] [] [] [] []].

Lemma lowerChar_idem c : lowerChar (lowerChar c) = lowerChar c.
Proof. ascii_cases c; reflexivity. Qed.

Lemma isWhiteSpace_lowerChar c : isWhiteSpace (lowerChar c) = isWhiteSpace c.
Proof. ascii_cases c; reflexivity. Qed.

Lemma lowerChar_idChar c : isIdChar c = true -> lowerChar c = c.
Proof. ascii_cases c; intros H; try reflexivity; discriminate H. Qed.

Lemma idCharI_lower c : isIdCharI c = true -> isIdChar (lowerChar c) = true.
Proof. ascii_cases c; intros H; try reflexivity; discriminate H. Qed.

Lemma alnumI_idCharI c : isAlnumI c = true -> isIdCharI c = true.
Proof. ascii_cases c; intros H; try reflexivity; discriminate H. Qed.

Lemma lowerAlnum_idChar c : isLowerAlnum c = true -> isIdChar c = true.
Proof. unfold isIdChar. now intros ->. Qed.

Lemma idChar_not_space c : isIdChar c = true -> isWhiteSpace c = false.
Proof. ascii_cases c; intros H; try reflexivity; discriminate H. Qed.

Lemma idChar_not_colon c : isIdChar c = true -> negb (Ascii.eqb c ":") = true.
Proof. ascii_cases c; intros H; try reflexivity; discriminate H. Qed.

Lemma toLowerCase_idem s : toLowerCase (toLowerCase s) = toLowerCase s.
Proof. induction s as [|c s IH]; simpl; [reflexivity|]. now rewrite lowerChar_idem, IH. Qed.

Lemma toLowerCase_app a b : toLowerCase (a +:+ b) = toLowerCase a +:+ toLowerCase b.
Proof. induction a as [|c a IH]; simpl; [reflexivity|]. now rewrite IH. Qed.

Lemma isEmpty_toLowerCase s : isEmpty (toLowerCase s) = isEmpty s.
Proof. now destruct s. Qed.

Lemma allChars_impl (p q : ascii -> bool) s :
  (forall c, p c = true -> q c = true) -> allChars p s = true -> allChars q s = true.
Proof.
  intros Hpq. induction s as [|c s IH]; simpl; [reflexivity|].
  intros H. apply andb_prop in H as [Hc Hs]. now rewrite (Hpq _ Hc), IH.
Qed.

Lemma toLowerCase_idChars s : allChars isIdChar s = true -> toLowerCase s = s.
Proof.
  induction s as [|c s IH]; simpl; [reflexivity|].
  intros H. apply andb_prop in H as [Hc Hs]. now rewrite (lowerChar_idChar _ Hc), IH.
Qed.

Lemma idChars_of_lower s :
  allChars isIdCharI s = true -> allChars isIdChar (toLowerCase s) = true.
Proof.
  induction s as [|c s IH]; simpl; [reflexivity|].
  intros H. apply andb_prop in H as [Hc Hs]. now rewrite (idCharI_lower _ Hc), IH.
Qed.

(** *** Dropping prefixes and suffixes *)

Lemma dropEndWhile_lower s :
  dropEndWhile isWhiteSpace (toLowerCase s) = toLowerCase (dropEndWhile isWhiteSpace s).
Proof.
  induction s as [|c s IH]; simpl; [reflexivity|].
  rewrite IH, isWhiteSpace_lowerChar, isEmpty_toLowerCase.
  now destruct (isWhiteSpace c && isEmpty (dropEndWhile isWhiteSpace s)).
Qed.

Lemma dropEndWhile_idem p s : dropEndWhile p (dropEndWhile p s) = dropEndWhile p s.
Proof.
  induction s as [|c s IH]; simpl; [reflexivity|].
  destruct (p c && isEmpty (dropEndWhile p s)) eqn:E; simpl; [reflexivity|].
  now rewrite IH, E.
Qed.

Lemma isEmpty_app_r a b : b <> EmptyString -> isEmpty (a +:+ b) = false.
Proof.
  intros Hne. destruct a; [|reflexivity].
  change (EmptyString +:+ b) with b. destruct b; [congruence|reflexivity].
Qed.

Lemma dropEndWhile_app p a b :
  dropEndWhile p b = b -> b <> EmptyString -> dropEndWhile p (a +:+ b) = a +:+ b.
Proof.
  intros Hb Hne. induction a as [|c a IH]; [exact Hb|].
  change (String c a +:+ b) with (String c (a +:+ b)). cbn [dropEndWhile].
  rewrite IH, (isEmpty_app_r a b Hne), andb_false_r. reflexivity.
Qed.

Lemma dropStartWhile_none p q s :
  (forall c, q c = true -> p c = false) ->
  allChars q s = true -> dropStartWhile p s = s.
Proof.
  intros Hqp. destruct s as [|c s]; simpl; [reflexivity|].
  intros H. apply andb_prop in H as [Hc _]. now rewrite (Hqp _ Hc).
Qed.

Lemma dropEndWhile_none p q s :
  (forall c, q c = true -> p c = false) ->
  allChars q s = true -> dropEndWhile p s = s.
Proof.
  intros Hqp. induction s as [|c s IH]; simpl; [reflexivity|].
  intros H. apply andb_prop in H as [Hc Hs]. now rewrite (Hqp _ Hc), IH.
Qed.

Lemma allChars_dropStartWhile p q s :
  allChars q s = true -> allChars q (dropStartWhile p s) = true.
Proof.
  induction s as [|c s IH]; simpl; [reflexivity|].
  intros H. destruct (p c); [|exact H].
  apply andb_prop in H as [_ Hs]. auto.
Qed.

Lemma allChars_dropEndWhile p q s :
  allChars q s = true -> allChars q (dropEndWhile p s) = true.
Proof.
  induction s as [|c s IH]; simpl; [reflexivity|].
  intros H. apply andb_prop in H as [Hc Hs].
  destruct (p c && isEmpty (dropEndWhile p s)); simpl; [reflexivity|].
  now rewrite Hc, IH.
Qed.

Lemma allChars_sliceTo q n s :
  allChars q s = true -> allChars q (sliceTo n s) = true.
Proof.
  revert s. induction n as [|n IH]; intros [|c s]; simpl; try reflexivity.
  intros H. apply andb_prop in H as [Hc Hs]. now rewrite Hc, IH.
Qed.

Lemma allChars_replaceInvalid b s : allChars isIdChar (replaceInvalid b s) = true.
Proof.
  revert b. induction s as [|c s IH]; intros b; simpl; [reflexivity|].
  destruct (isIdChar c) eqn:E; simpl; [now rewrite E, IH|].
  destruct b; simpl; now rewrite IH.
Qed.

Lemma trim_idChars s : allChars isIdChar s = true -> trim s = s.
Proof.
  intros H. unfold trim.
  rewrite (dropStartWhile_none _ _ _ idChar_not_space H).
  exact (dropEndWhile_none _ _ _ idChar_not_space H).
Qed.

Lemma lacks_idChars s : allChars isIdChar s = true -> lacks ":" s = true.
Proof. apply allChars_impl. exact idChar_not_colon. Qed.

Lemma breakAt_app sep a b :
  lacks sep a = true -> breakAt sep (a +:+ String sep b) = Some (a, b).
Proof.
  unfold lacks. induction a as [|c a IH]; simpl.
  - now rewrite Ascii.eqb_refl.
  - intros H. apply andb_prop in H as [Hc Ha].
    apply negb_true_iff in Hc. now rewrite Hc, IH.
Qed.

(** *** The normalizers *)

Lemma trim_trimmed s : dropEndWhile isWhiteSpace (trim s) = trim s.
Proof. unfold trim. apply dropEndWhile_idem. Qed.

Lemma normalizeMainKey_nonempty v : normalizeMainKey v <> EmptyString.
Proof.
  unfold normalizeMainKey.
  destruct (truthy (trim (default "" v))) eqn:E; [|discriminate].
  unfold truthy in E. rewrite <- isEmpty_toLowerCase in E.
  destruct (toLowerCase _); [discriminate|congruence].
Qed.

Lemma normalizeMainKey_trimmed v :
  dropEndWhile isWhiteSpace (normalizeMainKey v) = normalizeMainKey v.
Proof.
  unfold normalizeMainKey.
  destruct (truthy (trim (default "" v))); [|reflexivity].
  now rewrite dropEndWhile_lower, trim_trimmed.
Qed.

Lemma normalizeMainKey_lower v :
  toLowerCase (normalizeMainKey v) = normalizeMainKey v.
Proof.
  unfold normalizeMainKey.
  destruct (truthy (trim (default "" v))); [|reflexivity].
  apply toLowerCase_idem.
Qed.

Lemma normalizeAgentId_idChars v : allChars isIdChar (normalizeAgentId v) = true.
Proof.
  unfold normalizeAgentId.
  destruct (truthy (trim (default "" v))); [|reflexivity]. cbn [negb].
  destruct (VALID_ID_RE (trim (default "" v))) eqn:Hre.
  - apply idChars_of_lower. unfold VALID_ID_RE in Hre.
    destruct (trim (default "" v)) as [|c rest]; [discriminate|].
    apply andb_prop in Hre as [Hre _]. apply andb_prop in Hre as [Hc Hrest].
    simpl. now rewrite (alnumI_idCharI _ Hc), Hrest.
  - match goal with |- context [truthy ?r] => destruct (truthy r) end; [|reflexivity].
    apply allChars_sliceTo, allChars_dropEndWhile, allChars_dropStartWhile,
      allChars_replaceInvalid.
Qed.

Lemma normalizeAgentId_nonempty v : isEmpty (normalizeAgentId v) = false.
Proof.
  unfold normalizeAgentId.
  destruct (truthy (trim (default "" v))) eqn:Ht; [|reflexivity]. cbn [negb].
  destruct (VALID_ID_RE _).
  - rewrite isEmpty_toLowerCase. unfold truthy in Ht. now destruct (isEmpty _).
  - match goal with |- context [truthy ?r] => destruct (truthy r) eqn:Hr end;
      [|reflexivity].
    unfold truthy in Hr. now destruct (isEmpty _).
Qed.

Lemma validTenantId_idChars id :
  Tenants.isValidTenantId id = true -> allChars isIdChar id = true.
Proof.
  unfold Tenants.isValidTenantId, Tenants.TENANT_ID_PATTERN.
  destruct id as [|c rest]; [discriminate|]. intros H.
  apply andb_prop in H as [H _]. apply andb_prop in H as [Hc Hrest].
  simpl. now rewrite (lowerAlnum_idChar _ Hc), Hrest.
Qed.

(** C9: for a valid tenant id, any agent id and any optional main key,
    parsing the key that [buildTenantSessionKey] builds succeeds and gives
    back the lowercased tenant id, the normalized agent id and the
    normalized main key ([main] when absent or blank). *)
Theorem parse_build_roundtrip (tenantId agentId : string) (mainKey : option string) :
  Tenants.isValidTenantId tenantId = true ->
  exists parsed,
    parseTenantSessionKey (buildTenantSessionKey tenantId agentId mainKey) = Some parsed
    /\ pt_tenantId parsed = toLowerCase tenantId
    /\ pt_agentId parsed = normalizeAgentId (Some agentId)
    /\ pt_rest parsed = normalizeMainKey mainKey.
Proof.
  intros Hvalid.
  pose proof (validTenantId_idChars _ Hvalid) as Hid.
  pose proof (normalizeAgentId_idChars (Some agentId)) as Haid.
  set (aid := normalizeAgentId (Some agentId)) in *.
  set (mk := normalizeMainKey mainKey).
  assert (buildTenantSessionKey tenantId agentId mainKey
          = "tenant:" +:+ tenantId +:+ ":agent:" +:+ aid +:+ ":" +:+ mk) as Hkey.
  { unfold buildTenantSessionKey, buildAgentMainSessionKey, TENANT_KEY_PREFIX.
    now rewrite (trim_idChars _ Hid), (toLowerCase_idChars _ Hid). }
  rewrite Hkey, (toLowerCase_idChars _ Hid). clear Hkey.
  unfold parseTenantSessionKey.
  assert (toLowerCase (trim ("tenant:" +:+ tenantId +:+ ":agent:" +:+ aid +:+ ":" +:+ mk))
          = "tenant:" +:+ tenantId +:+ ":agent:" +:+ aid +:+ ":" +:+ mk) as Hnorm.
  { unfold trim. cbn [dropStartWhile String.append isWhiteSpace].
    change (dropStartWhile isWhiteSpace
              ("tenant:" +:+ tenantId +:+ ":agent:" +:+ aid +:+ ":" +:+ mk))
      with ("tenant:" +:+ tenantId +:+ ":agent:" +:+ aid +:+ ":" +:+ mk).
    replace ("tenant:" +:+ tenantId +:+ ":agent:" +:+ aid +:+ ":" +:+ mk)
      with (("tenant:" +:+ tenantId +:+ ":agent:" +:+ aid +:+ ":") +:+ mk)
      by (now rewrite !JsFacts.append_assoc).
    rewrite dropEndWhile_app
      by (apply normalizeMainKey_trimmed || apply normalizeMainKey_nonempty).
    rewrite !toLowerCase_app.
    rewrite (toLowerCase_idChars _ Hid), (toLowerCase_idChars _ Haid).
    unfold mk. rewrite normalizeMainKey_lower. reflexivity. }
  rewrite Hnorm. clear Hnorm.
  change (startsWith TENANT_KEY_PREFIX
            ("tenant:" +:+ tenantId +:+ ":agent:" +:+ aid +:+ ":" +:+ mk)) with true.
  cbn [negb].
  change (sliceFrom (String.length TENANT_KEY_PREFIX)
            ("tenant:" +:+ tenantId +:+ ":agent:" +:+ aid +:+ ":" +:+ mk))
    with (tenantId +:+ String ":" ("agent:" +:+ aid +:+ ":" +:+ mk)).
  rewrite (breakAt_app _ _ _ (lacks_idChars _ Hid)).
  assert (truthy tenantId = true) as ->.
  { destruct tenantId; [discriminate Hvalid|reflexivity]. }
  change (truthy ("agent:" +:+ aid +:+ ":" +:+ mk)) with true. cbn [negb orb].
  unfold parseAgentSessionKey.
  change (startsWith "agent:" ("agent:" +:+ aid +:+ ":" +:+ mk)) with true.
  change (sliceFrom 6 ("agent:" +:+ aid +:+ ":" +:+ mk)) with (aid +:+ String ":" mk).
  rewrite (breakAt_app _ _ _ (lacks_idChars _ Haid)).
  unfold aid at 1. rewrite normalizeAgentId_nonempty.
  eexists. split; [reflexivity|]. cbn. repeat split.
Qed.

Lemma parse_build_roundtrip_witness :
  exists parsed,
    parseTenantSessionKey (buildTenantSessionKey "demo" "Be ta" (Some " Main:Thread "))
    = Some parsed
    /\ pt_tenantId parsed = "demo"
    /\ pt_agentId parsed = "be-ta"
    /\ pt_rest parsed = "main:thread".
Proof.
  destruct (parse_build_roundtrip "demo" "Be ta" (Some " Main:Thread ") eq_refl)
    as (parsed & Hp & Ht & Ha & Hr).
  exists parsed. split; [exact Hp|]. split; [exact Ht|]. split; [exact Ha|exact Hr].
Defined.

End SessionKeyFacts.

(* ===================================================================== *)
(** * Session-key scoping at the HTTP surface *)
(* ===================================================================== *)

Module HttpFacts.
Import Js HttpUtils.

Example scope_adds_prefix :
  scopeSessionKeyToTenant "agent:beta:openai:123" (Some "tenant-a")
  = ScopeOk "tenant:tenant-a:agent:beta:openai:123".
Proof. reflexivity. Qed.

Example scope_keeps_matching :
  scopeSessionKeyToTenant "tenant:tenant-a:agent:beta:openai:123" (Some "tenant-a")
  = ScopeOk "tenant:tenant-a:agent:beta:openai:123".
Proof. reflexivity. Qed.

Example scope_without_tenant :
  scopeSessionKeyToTenant "agent:beta:openai:123" None
  = ScopeOk "agent:beta:openai:123".
Proof. reflexivity. Qed.

Example S4_runner_key :
  agentRuns (handleOpenAiHttpRequest (Some "tenant-a") "agent:beta:openai:custom")
  = ["tenant:tenant-a:agent:beta:openai:custom"].
Proof. reflexivity. Qed.

Lemma tenantPrefixOf_key y rest :
  lacks ":" y = true ->
  tenantPrefixOf ("tenant:" +:+ y +:+ ":" +:+ rest) = Some y.
Proof.
  intros Hy. unfold tenantPrefixOf.
  change (startsWith "tenant:" ("tenant:" +:+ y +:+ ":" +:+ rest)) with true.
  change (sliceFrom 7 ("tenant:" +:+ y +:+ ":" +:+ rest)) with (y +:+ String ":" rest).
  now rewrite SessionKeyFacts.breakAt_app.
Qed.

(** C3: a session key with prefix [tenant:Y:] presented under an
    authenticated tenant id [X] other than [Y] is refused by
    [scopeSessionKeyToTenant] with an error that contains
    [does not match authenticated tenant]; the chat-completions endpoint
    answers [403 forbidden] and the agent runner is not invoked. *)
Theorem mismatched_tenant_key_refused (y rest x : string) :
  lacks ":" y = true ->
  x <> y ->
  let key := "tenant:" +:+ y +:+ ":" +:+ rest in
  (exists msg,
      scopeSessionKeyToTenant key (Some x) = ScopeErr msg
      /\ includes "does not match authenticated tenant" msg = true)
  /\ reply (handleOpenAiHttpRequest (Some x) key)
     = {| statusCode := 403; errorType := Some "forbidden" |}
  /\ agentRuns (handleOpenAiHttpRequest (Some x) key) = [].
Proof.
  intros Hy Hne key.
  assert (scopeSessionKeyToTenant key (Some x)
          = ScopeErr "does not match authenticated tenant") as Hscope.
  { unfold scopeSessionKeyToTenant, key. rewrite (tenantPrefixOf_key _ _ Hy).
    destruct (String.eqb y x) eqn:E; [|reflexivity].
    apply String.eqb_eq in E. congruence. }
  split.
  - eexists. split; [exact Hscope|reflexivity].
  - unfold handleOpenAiHttpRequest. rewrite Hscope. split; reflexivity.
Qed.

Lemma mismatched_tenant_key_refused_witness :
  reply (handleOpenAiHttpRequest (Some "tenant-a") "tenant:other:agent:beta:openai:custom")
  = {| statusCode := 403; errorType := Some "forbidden" |}
  /\ agentRuns (handleOpenAiHttpRequest (Some "tenant-a")
                  "tenant:other:agent:beta:openai:custom") = [].
Proof.
  assert (lacks ":" "other" = true) as H1 by reflexivity.
  assert ("tenant-a" <> "other") as H2 by discriminate.
  exact (proj2 (mismatched_tenant_key_refused "other" "agent:beta:openai:custom"
                  "tenant-a" H1 H2)).
Defined.

End HttpFacts.

(* ===================================================================== *)
(** * Paths *)
(* ===================================================================== *)

Module PathFacts.
Import Js.

Lemma split_nonempty sep s : split sep s <> [].
Proof.
  destruct s as [|c s]; simpl; [discriminate|].
  destruct (Ascii.eqb c sep); [discriminate|].
  destruct (split sep s); discriminate.
Qed.

Lemma split_app sep a b :
  split sep (a +:+ String sep b) = (split sep a ++ split sep b)%list.
Proof.
  induction a as [|c a IH].
  - change (EmptyString +:+ String sep b) with (String sep b).
    simpl. now rewrite Ascii.eqb_refl.
  - change (String c a +:+ String sep b) with (String c (a +:+ String sep b)).
    simpl. rewrite IH. destruct (Ascii.eqb c sep); [reflexivity|].
    pose proof (split_nonempty sep a) as Hne.
    destruct (split sep a); [congruence|reflexivity].
Qed.

Lemma split_lacking sep s : lacks sep s = true -> split sep s = [s].
Proof.
  unfold lacks. induction s as [|c s IH]; simpl; [reflexivity|].
  intros H. apply andb_prop in H as [Hc Hs]. apply negb_true_iff in Hc.
  now rewrite Hc, IH.
Qed.

Lemma split_parts_lack sep s : Forall (fun p => lacks sep p = true) (split sep s).
Proof.
  induction s as [|c s IH]; simpl; [repeat constructor|].
  destruct (Ascii.eqb c sep) eqn:E; [constructor; [reflexivity|exact IH]|].
  destruct (split sep s) as [|h t].
  - constructor; [|constructor]. unfold lacks. simpl. now rewrite E.
  - inversion IH as [|? ? Hh Ht]; subst. constructor; [|exact Ht].
    unfold lacks in *. simpl. now rewrite E, Hh.
Qed.

Lemma split_join sep parts :
  Forall (fun p => lacks sep p = true) parts -> parts <> [] ->
  split sep (join (String sep EmptyString) parts) = parts.
Proof.
  induction parts as [|p rest IH]; [congruence|].
  intros Hall _. inversion Hall as [|? ? Hp Hrest]; subst.
  destruct rest as [|q rest].
  - simpl. now apply split_lacking.
  - change (join (String sep EmptyString) (p :: q :: rest))
      with (p +:+ String sep (join (String sep EmptyString) (q :: rest))).
    rewrite split_app, (split_lacking _ _ Hp), IH; [reflexivity|exact Hrest|discriminate].
Qed.

Lemma join_app sep l1 l2 :
  l1 <> [] -> l2 <> [] ->
  join sep (l1 ++ l2) = join sep l1 +:+ sep +:+ join sep l2.
Proof.
  intros H1 H2. induction l1 as [|a l1 IH]; [congruence|].
  destruct l1 as [|b l1].
  - destruct l2; [congruence|reflexivity].
  - change (join sep ((a :: b :: l1) ++ l2))
      with (a +:+ sep +:+ join sep ((b :: l1) ++ l2)).
    rewrite IH by discriminate.
    change (join sep (a :: b :: l1)) with (a +:+ sep +:+ join sep (b :: l1)).
    now rewrite !JsFacts.append_assoc.
Qed.

Lemma endsWith_app suf a : endsWith suf (a +:+ suf) = true.
Proof.
  induction a as [|c a IH].
  - change (EmptyString +:+ suf) with suf.
    destruct suf; simpl; [reflexivity|]. now rewrite Ascii.eqb_refl, String.eqb_refl.
  - change (String c a +:+ suf) with (String c (a +:+ suf)).
    cbn [endsWith]. rewrite IH. apply orb_true_r.
Qed.

Lemma endsWith_lacking c s : lacks c s = true -> endsWith (String c EmptyString) s = false.
Proof.
  unfold lacks. induction s as [|x s IH]; [reflexivity|].
  cbn [allChars]. intros H. apply andb_prop in H as [Hx Hs].
  apply negb_true_iff in Hx. cbn [endsWith String.eqb]. now rewrite Hx, IH.
Qed.

Lemma endsWith_app_lacking c a s :
  lacks c s = true -> s <> EmptyString ->
  endsWith (String c EmptyString) (a +:+ s) = false.
Proof.
  intros Hs Hne. induction a as [|x a IH].
  - now apply endsWith_lacking.
  - change (String x a +:+ s) with (String x (a +:+ s)).
    cbn [endsWith String.eqb]. rewrite IH.
    pose proof (SessionKeyFacts.isEmpty_app_r a s Hne) as He.
    destruct (a +:+ s); [discriminate|]. simpl. now destruct (Ascii.eqb x c).
Qed.

(** *** Segment normalization *)

Import Path.

Lemma normalizeSegments_app b stack l1 l2 :
  normalizeSegments b stack (l1 ++ l2)
  = normalizeSegments b (rev (normalizeSegments b stack l1)) l2.
Proof.
  revert stack. induction l1 as [|s l1 IH]; intros stack.
  - simpl. now rewrite rev_involutive.
  - cbn [app normalizeSegments].
    destruct (String.eqb s "" || String.eqb s "."); [apply IH|].
    destruct (String.eqb s ".."); [|apply IH].
    destruct stack as [|top stack]; [apply IH|].
    destruct (String.eqb top ".."); apply IH.
Qed.

(** Segments that the walk skips or keeps, none of them [..]. *)
Definition kept (s : string) : bool :=
  negb (String.eqb s "" || String.eqb s ".").

Lemma normalizeSegments_no_dotdot b stack l :
  Forall (fun s => String.eqb s ".." = false) l ->
  normalizeSegments b stack l = (rev stack ++ List.filter kept l)%list.
Proof.
  intros Hall. revert stack.
  induction Hall as [|s l Hs Hl IH]; intros stack.
  - simpl. now rewrite app_nil_r.
  - cbn [normalizeSegments List.filter]. unfold kept at 1.
    destruct (String.eqb s "" || String.eqb s "."); cbn [negb]; [apply IH|].
    rewrite Hs, IH. cbn [rev]. now rewrite <- app_assoc.
Qed.

Lemma normalSegment_kept s : isNormalSegment s = true -> kept s = true.
Proof.
  unfold isNormalSegment, kept. intros H.
  apply andb_prop in H as [H _]. apply andb_prop in H as [H _].
  apply andb_prop in H as [H1 H2].
  apply negb_true_iff in H1, H2. now rewrite H1, H2.
Qed.

Lemma normalSegment_not_dotdot s : isNormalSegment s = true -> String.eqb s ".." = false.
Proof.
  unfold isNormalSegment. intros H.
  apply andb_prop in H as [H _]. apply andb_prop in H as [_ H].
  now apply negb_true_iff in H.
Qed.

Lemma normalSegment_lacks s : isNormalSegment s = true -> lacks "/" s = true.
Proof. unfold isNormalSegment. intros H. now apply andb_prop in H as [_ H]. Qed.

Lemma filter_kept_normal l :
  Forall (fun s => isNormalSegment s = true) l -> List.filter kept l = l.
Proof.
  induction 1 as [|s l Hs Hl IH]; [reflexivity|].
  cbn [List.filter]. now rewrite (normalSegment_kept _ Hs), IH.
Qed.

Lemma normalizeSegments_normal b stack l :
  Forall (fun s => isNormalSegment s = true) l ->
  normalizeSegments b stack l = (rev stack ++ l)%list.
Proof.
  intros Hall. rewrite normalizeSegments_no_dotdot.
  - now rewrite filter_kept_normal.
  - eapply List.Forall_impl; [|exact Hall]. exact normalSegment_not_dotdot.
Qed.

(** Below the root, everything the walk keeps is a normal segment. *)
Lemma normalizeSegments_rooted stack l :
  Forall (fun s => isNormalSegment s = true) stack ->
  Forall (fun s => lacks "/" s = true) l ->
  Forall (fun s => isNormalSegment s = true) (normalizeSegments false stack l).
Proof.
  intros Hstack Hl. revert stack Hstack.
  induction Hl as [|s l Hs Hl IH]; intros stack Hstack.
  - simpl. apply List.Forall_rev. exact Hstack.
  - cbn [normalizeSegments].
    destruct (String.eqb s "" || String.eqb s ".") eqn:E1; [now apply IH|].
    destruct (String.eqb s "..") eqn:E2.
    + destruct stack as [|top stack]; [now apply IH|].
      inversion Hstack; subst.
      destruct (String.eqb top ".."); now apply IH.
    + apply IH. constructor; [|exact Hstack].
      apply orb_false_iff in E1 as [E0 E1].
      unfold isNormalSegment. now rewrite E0, E1, E2, Hs.
Qed.

Lemma normalizeString_rooted path :
  Forall (fun s => isNormalSegment s = true)
         (normalizeSegments false [] (split "/" path)).
Proof. apply normalizeSegments_rooted; [constructor|apply split_parts_lack]. Qed.

(** *** [join] under an absolute base *)

Lemma isAbsolute_cons path : isAbsolute path = true -> exists rest, path = String "/" rest.
Proof.
  unfold isAbsolute. destruct path as [|c rest]; cbn [startsWith]; [discriminate|].
  intros H. apply andb_prop in H as [H _]. apply Ascii.eqb_eq in H. subst. eauto.
Qed.

Lemma join_under_absolute base name id :
  isAbsolute base = true ->
  isNormalSegment name = true ->
  isNormalSegment id = true ->
  exists parent,
    Path.join [base; name; id] = parent +:+ "/" +:+ name +:+ "/" +:+ id.
Proof.
  intros Habs Hname Hid.
  pose proof (normalSegment_lacks _ Hname) as Ln.
  pose proof (normalSegment_lacks _ Hid) as Li.
  assert (id <> EmptyString) as Hidne by (intros ->; discriminate Hid).
  assert (name <> EmptyString) as Hnamene by (intros ->; discriminate Hname).
  destruct (isAbsolute_cons _ Habs) as [rest ->].
  unfold Path.join. cbn [List.filter truthy isEmpty negb].
  assert (truthy name = true) as -> by now apply JsFacts.truthy_nonempty.
  assert (truthy id = true) as -> by now apply JsFacts.truthy_nonempty.
  cbn [Js.join].
  set (joined := String "/" rest +:+ "/" +:+ name +:+ "/" +:+ id).
  unfold normalize.
  change (isEmpty joined) with false. change (isAbsolute joined) with true.
  assert (endsWith "/" joined = false) as ->.
  { unfold joined.
    replace (String "/" rest +:+ "/" +:+ name +:+ "/" +:+ id)
      with ((String "/" rest +:+ "/" +:+ name +:+ "/") +:+ id)
      by now rewrite !JsFacts.append_assoc.
    now apply endsWith_app_lacking. }
  cbn [negb]. unfold normalizeString.
  assert (split "/" joined
          = (split "/" (String "/" rest) ++ [name; id])%list) as ->.
  { unfold joined.
    change (String "/" rest +:+ "/" +:+ name +:+ "/" +:+ id)
      with (String "/" rest +:+ String "/" (name +:+ String "/" id)).
    rewrite !split_app, (split_lacking _ _ Ln), (split_lacking _ _ Li).
    reflexivity. }
  rewrite normalizeSegments_app, normalizeSegments_normal
    by (repeat constructor; assumption).
  rewrite rev_involutive.
  set (above := normalizeSegments false [] (split "/" (String "/" rest))).
  destruct above as [|a above'] eqn:Ha.
  - exists EmptyString. cbn [app Js.join isEmpty].
    destruct (name +:+ "/" +:+ id) eqn:E; [|reflexivity].
    destruct name; [congruence|discriminate E].
  - rewrite join_app by discriminate.
    exists ("/" +:+ Js.join "/" (a :: above')).
    assert (isEmpty (Js.join "/" (a :: above') +:+ "/" +:+ Js.join "/" [name; id]) = false)
      as ->.
    { apply SessionKeyFacts.isEmpty_app_r. discriminate. }
    cbn [Js.join]. now rewrite !JsFacts.append_assoc.
Qed.

Lemma join_under_absolute_suffix base name id :
  isAbsolute base = true ->
  isNormalSegment name = true ->
  isNormalSegment id = true ->
  endsWith ("/" +:+ name +:+ "/" +:+ id) (Path.join [base; name; id]) = true.
Proof.
  intros Habs Hname Hid.
  destruct (join_under_absolute base name id Habs Hname Hid) as [parent ->].
  apply endsWith_app.
Qed.

End PathFacts.

(* ===================================================================== *)
(** * Tenant registry *)
(* ===================================================================== *)

Module TenantFacts.
Import Js Tenants.

Lemma join_split sep s : join (String sep EmptyString) (split sep s) = s.
Proof.
  induction s as [|c s IH]; [reflexivity|].
  cbn [split]. pose proof (PathFacts.split_nonempty sep s) as Hne.
  destruct (Ascii.eqb c sep) eqn:E.
  - apply Ascii.eqb_eq in E. subst c.
    destruct (split sep s) as [|h t]; [congruence|].
    change (join (String sep "") ("" :: h :: t))
      with (String sep (join (String sep "") (h :: t))).
    now rewrite IH.
  - destruct (split sep s) as [|h t]; [congruence|].
    destruct t as [|h' t].
    + simpl in *. now rewrite IH.
    + change (join (String sep "") (String c h :: h' :: t))
        with (String c (join (String sep "") (h :: h' :: t))).
      now rewrite IH.
Qed.

Lemma parse_build_token id secret :
  lacks ":" id = true -> id <> EmptyString -> secret <> EmptyString ->
  parseTenantToken (buildTenantToken id secret) = Some (id, secret).
Proof.
  intros Hid Hne Hsecret. unfold parseTenantToken, buildTenantToken.
  change (startsWith "tenant:" ("tenant:" +:+ id +:+ ":" +:+ secret)) with true.
  cbn [negb].
  change ("tenant:" +:+ id +:+ ":" +:+ secret)
    with ("tenant" +:+ String ":" (id +:+ String ":" secret)).
  rewrite !PathFacts.split_app, (PathFacts.split_lacking _ _ Hid).
  change (split ":" "tenant") with ["tenant"]. cbn [app].
  pose proof (PathFacts.split_nonempty ":" secret) as Hparts.
  pose proof (join_split ":" secret) as Hjoin.
  destruct (split ":" secret) as [|h t]; [congruence|].
  rewrite Hjoin.
  apply JsFacts.truthy_nonempty in Hne, Hsecret. now rewrite Hne, Hsecret.
Qed.

Lemma generateToken_nonempty bytes : bytes <> [] -> generateToken bytes <> EmptyString.
Proof.
  unfold generateToken. intros Hne.
  destruct bytes as [|a [|b [|c rest]]]; [congruence|discriminate ..].
Qed.

Lemma safeEqualHash_same h : safeEqualHash h h = Returned true.
Proof.
  unfold safeEqualHash, timingSafeEqual. rewrite !Nat.eqb_refl. cbn [negb].
  now rewrite bool_decide_eq_true_2.
Qed.

(** What [loadTenantRegistry] reads in a given world. *)
Definition registryOf (env : Env) (w : World) : LoadedRegistry :=
  match files w !! resolveTenantRegistryPath env with
  | Some (RegistryDoc version tenants) =>
      if (version =? 1)%Z then {| lr_tenants := tenants; lr_shared := false |}
      else {| lr_tenants := EMPTY_REGISTRY_tenants w; lr_shared := true |}
  | _ => {| lr_tenants := EMPTY_REGISTRY_tenants w; lr_shared := true |}
  end.

(** The tenants registered in a world, as own keys of the loaded registry. *)
Definition registered (env : Env) (w : World) : gmap string TenantEntry :=
  lr_tenants (registryOf env w).

Lemma loadTenantRegistry_run env w :
  loadTenantRegistry env w = (Returned (registryOf env w), w).
Proof.
  unfold loadTenantRegistry, registryOf, bind, get, ret.
  destruct (files w !! resolveTenantRegistryPath env) as [[version tenants| | |]|];
    try reflexivity.
  now destruct (version =? 1)%Z.
Qed.

Lemma registryOf_saved env w tenants :
  files w !! resolveTenantRegistryPath env = Some (RegistryDoc 1 tenants) ->
  registryOf env w = {| lr_tenants := tenants; lr_shared := false |}.
Proof. unfold registryOf. now intros ->. Qed.

Lemma validTenantId_normalSegment id :
  isValidTenantId id = true -> Path.isNormalSegment id = true.
Proof.
  intros Hvalid. pose proof (SessionKeyFacts.validTenantId_idChars _ Hvalid) as Hchars.
  unfold Path.isNormalSegment.
  assert (lacks "/" id = true) as ->.
  { eapply SessionKeyFacts.allChars_impl; [|exact Hchars].
    intros c. SessionKeyFacts.ascii_cases c; intros H; try reflexivity; discriminate H. }
  destruct id as [|c rest]; [discriminate Hvalid|].
  unfold isValidTenantId, TENANT_ID_PATTERN in Hvalid.
  apply andb_prop in Hvalid as [Hvalid _]. apply andb_prop in Hvalid as [Hc _].
  assert (Ascii.eqb c "." = false) as Hdot.
  { revert Hc. SessionKeyFacts.ascii_cases c; intros H; try reflexivity; discriminate H. }
  cbn [String.eqb]. now rewrite Hdot.
Qed.

Section Registry.
Variable hashToken : string -> string.

(** For every valid tenant id that is neither registered nor the name of
    a member of [Object.prototype], creation succeeds and the token it
    returns validates to a context for that tenant whose state directory
    ends with [/tenants/{tenantId}]. *)
Lemma create_then_validate (tenantId : string) (displayName : option string)
    (env : Env) (randomBytes : list Byte.byte) (now later : Date) (w : World) :
  isValidTenantId tenantId = true ->
  arrayIncludes tenantId objectPrototypeKeys = false ->
  registered env w !! tenantId = None ->
  List.length randomBytes = TOKEN_BYTES ->
  Path.isAbsolute (resolveStateDir env) = true ->
  exists created w1 context w2,
    createTenant hashToken tenantId displayName env randomBytes now w
    = (Returned created, w1)
    /\ r_tenantId created = tenantId
    /\ validateTenantToken hashToken (r_token created) env later w1
       = (Returned (Some context), w2)
    /\ c_tenantId context = tenantId
    /\ endsWith ("/tenants/" +:+ tenantId) (c_stateDir context) = true.
Proof.
  intros Hvalid Hproto Hfresh Hlen Habs.
  pose proof (SessionKeyFacts.validTenantId_idChars _ Hvalid) as Hchars.
  assert (tenantId <> EmptyString) as Hne by (intros ->; discriminate Hvalid).
  assert (generateToken randomBytes <> EmptyString) as Htoken.
  { apply generateToken_nonempty. intros ->. discriminate Hlen. }
  unfold createTenant. rewrite Hvalid. cbn [negb].
  unfold bind at 1. rewrite loadTenantRegistry_run.
  unfold getProperty. unfold registered in Hfresh. rewrite Hfresh, Hproto.
  set (token := generateToken randomBytes) in *.
  set (entry := {| e_tokenHash := hashToken token; e_createdAt := toISOString now;
                   e_lastSeenAt := None; e_displayName := displayName;
                   e_disabled := None; e_quotas := None |}).
  set (tenants' := <[tenantId := entry]> (lr_tenants (registryOf env w))).
  match goal with
  | |- exists c w1 x w2, ?run w = _ /\ _ =>
      destruct (run w) as [out w1] eqn:Hrun
  end.
  assert (out = Returned {| r_tenantId := tenantId;
                            r_token := buildTenantToken tenantId token;
                            r_createdAt := toISOString now |}
          /\ files w1 !! resolveTenantRegistryPath env = Some (RegistryDoc 1 tenants'))
    as [-> Hsaved].
  { unfold assignTenant, saveTenantRegistry, initializeTenantDirectories,
      bind, modify, ret in Hrun.
    destruct (lr_shared (registryOf env w)); cbn in Hrun;
      injection Hrun as <- <-; (split; [reflexivity|]);
      cbn [files mkdir writeFile]; apply lookup_insert_eq. }
  exists {| r_tenantId := tenantId; r_token := buildTenantToken tenantId token;
            r_createdAt := toISOString now |}, w1.
  unfold validateTenantToken. cbn [r_token r_tenantId].
  rewrite (parse_build_token _ _ (SessionKeyFacts.lacks_idChars _ Hchars) Hne Htoken).
  unfold bind at 1. rewrite loadTenantRegistry_run, (registryOf_saved _ _ _ Hsaved).
  cbn [lr_tenants]. unfold getProperty, tenants' at 1. rewrite lookup_insert_eq.
  cbn [e_disabled entry default from_option id e_tokenHash].
  unfold bind at 1, liftOutcome. rewrite safeEqualHash_same. cbn [negb].
  match goal with
  | |- exists x w2, _ /\ _ /\ ?run w1 = _ /\ _ =>
      destruct (run w1) as [out2 w2] eqn:Hrun2
  end.
  unfold assignTenant, saveTenantRegistry, bind, modify, ret in Hrun2.
  cbn in Hrun2. injection Hrun2 as <- <-.
  eexists _, _. split; [reflexivity|]. split; [reflexivity|].
  split; [reflexivity|]. split; [reflexivity|].
  cbn [c_stateDir]. unfold resolveTenantStateDir. cbn [Protocol.truthyOpt].
  apply JsFacts.truthy_nonempty in Hne. rewrite Hne. cbn [negb default from_option id].
  apply (PathFacts.join_under_absolute_suffix _ "tenants" tenantId Habs eq_refl).
  now apply validTenantId_normalSegment.
Qed.

Lemma bufferFrom_inj a b : bufferFrom a = bufferFrom b -> a = b.
Proof.
  revert b. induction a as [|x a IH]; intros [|y b]; cbn [bufferFrom].
  - reflexivity.
  - destruct (codeUnit y <? 128)%N; discriminate.
  - destruct (codeUnit x <? 128)%N; discriminate.
  - assert (codeUnit x = codeUnit y -> x = y) as Hinj.
    { unfold codeUnit. intros H.
      rewrite <- (ascii_N_embedding x), <- (ascii_N_embedding y). now rewrite H. }
    destruct (codeUnit x <? 128)%N eqn:Ex, (codeUnit y <? 128)%N eqn:Ey;
      [apply N.ltb_lt in Ex, Ey | apply N.ltb_lt in Ex; apply N.ltb_ge in Ey
      | apply N.ltb_ge in Ex; apply N.ltb_lt in Ey
      | apply N.ltb_ge in Ex, Ey ]; intros H.
    + injection H as H0 Hrest. f_equal; [now apply Hinj|now apply IH].
    + injection H as H0 _. exfalso.
      remember (codeUnit y / 64)%N as q. remember (codeUnit x) as n. lia.
    + injection H as H0 _. exfalso.
      remember (codeUnit x / 64)%N as q. remember (codeUnit y) as n. lia.
    + injection H as H0 H1 Hrest. f_equal; [|now apply IH].
      apply Hinj.
      rewrite (N.div_mod (codeUnit x) 64), (N.div_mod (codeUnit y) 64) by discriminate.
      remember (codeUnit x / 64)%N as qx. remember (codeUnit y / 64)%N as qy.
      remember (codeUnit x mod 64)%N as rx. remember (codeUnit y mod 64)%N as ry.
      assert (qx = qy) as -> by lia. assert (rx = ry) as -> by lia. reflexivity.
Qed.

Lemma safeEqualHash_true a b : safeEqualHash a b = Returned true -> a = b.
Proof.
  unfold safeEqualHash, timingSafeEqual.
  destruct (String.length a =? String.length b)%nat; cbn [negb]; [|discriminate].
  destruct (List.length _ =? List.length _)%nat; [|discriminate].
  intros [= H]. apply bool_decide_eq_true_1 in H. now apply bufferFrom_inj.
Qed.

(** A token is accepted only when the hash of the presented secret is
    the stored hash of an enabled tenant (built-ins of [Object.prototype]
    carrying no hash, as in a process that has written none on them). *)
Lemma validate_requires_matching_hash (token : string) (env : Env) (now : Date)
    (w w' : World) (context : TenantContext) :
  validateTenantToken hashToken token env now w = (Returned (Some context), w') ->
  exists tenantId secret entry,
    parseTenantToken token = Some (tenantId, secret)
    /\ registered env w !! tenantId = Some entry
    /\ e_disabled entry <> Some true
    /\ hashToken secret = e_tokenHash entry
    /\ c_tenantId context = tenantId.
Proof.
  unfold validateTenantToken.
  destruct (parseTenantToken token) as [[tenantId secret]|]; [|discriminate].
  unfold bind at 1. rewrite loadTenantRegistry_run. unfold getProperty.
  destruct (lr_tenants (registryOf env w) !! tenantId) as [entry|] eqn:Hentry.
  - destruct (e_disabled entry) as [[]|] eqn:Hdis; cbn [default from_option id];
      try discriminate; unfold bind at 1, liftOutcome;
      destruct (safeEqualHash (hashToken secret) (e_tokenHash entry))
        as [[]|msg] eqn:Heq; cbn [negb]; try discriminate;
      intros Hrun; unfold assignTenant, saveTenantRegistry, bind, modify, ret in Hrun;
      (destruct (lr_shared (registryOf env w)); cbn in Hrun;
       injection Hrun as <- _;
       exists tenantId, secret, entry;
       (split; [reflexivity|]); (split; [exact Hentry|]);
       (split; [congruence|]); (split; [now apply safeEqualHash_true|reflexivity])).
  - destruct (arrayIncludes tenantId objectPrototypeKeys); discriminate.
Qed.

(** C4 fails at the valid, unregistered tenant id [constructor]: the
    registry is a plain object, [registry.tenants["constructor"]] is the
    inherited [Object] function, so [createTenant] reports the tenant as
    existing; it issues no token and changes nothing. *)
Theorem constructor_cannot_be_created (displayName : option string) (env : Env)
    (randomBytes : list Byte.byte) (now : Date) (w : World) :
  registered env w !! "constructor" = None ->
  isValidTenantId "constructor" = true
  /\ createTenant hashToken "constructor" displayName env randomBytes now w
     = (Threw ("Tenant already exists: " +:+ dquote +:+ "constructor" +:+ dquote), w).
Proof.
  intros Hfresh. unfold registered in Hfresh. split; [reflexivity|].
  unfold createTenant. change (isValidTenantId "constructor") with true.
  cbn [negb]. unfold bind at 1. rewrite loadTenantRegistry_run.
  unfold getProperty. rewrite Hfresh. reflexivity.
Qed.

End Registry.

(** The registry of a first run: no file, nothing in memory. *)
Definition freshWorld : World :=
  {| files := ∅; dirs := ∅; EMPTY_REGISTRY_tenants := ∅ |}.

Definition someEnv : Env := {| resolveStateDir := "/home/oc/.openclaw" |}.
Definition someDate : Date :=
  {| getFullYear := 2026; getMonth := 10; getTime := 1793664000000;
     toISOString := "2026-11-03T00:00:00.000Z" |}.

(** Scenario S1: [tenants create demo] on a first run, then validation. *)
Definition zeroBytes : list Byte.byte := repeat Byte.x00 32.

Example S1_create_demo :
  let created := createTenant (fun s => s) "demo" None someEnv zeroBytes
                   someDate freshWorld in
  let token := "tenant:demo:AAAAAAAAAAAAAAAAAAAAAAAAAAAAAAAAAAAAAAAAAAA" in
  fst created
  = Returned {| r_tenantId := "demo"; r_token := token;
                r_createdAt := "2026-11-03T00:00:00.000Z" |}
  /\ fst (validateTenantToken (fun s => s) token someEnv someDate (snd created))
     = Returned (Some {| c_tenantId := "demo";
                         c_tokenHash := "AAAAAAAAAAAAAAAAAAAAAAAAAAAAAAAAAAAAAAAAAAA";
                         c_stateDir := "/home/oc/.openclaw/tenants/demo";
                         c_createdAt := "2026-11-03T00:00:00.000Z";
                         c_lastSeenAt := Some "2026-11-03T00:00:00.000Z" |}).
Proof. vm_compute. split; reflexivity. Qed.

Lemma create_then_validate_demo :
  exists created w1 context w2,
    createTenant (fun s => s) "demo" None someEnv zeroBytes someDate freshWorld
    = (Returned created, w1)
    /\ r_tenantId created = "demo"
    /\ validateTenantToken (fun s => s) (r_token created) someEnv someDate w1
       = (Returned (Some context), w2)
    /\ c_tenantId context = "demo"
    /\ endsWith "/tenants/demo" (c_stateDir context) = true.
Proof.
  apply (create_then_validate (fun s => s) "demo" None someEnv zeroBytes
           someDate someDate freshWorld); reflexivity.
Defined.

Lemma constructor_cannot_be_created_witness :
  createTenant (fun s => s) "constructor" None someEnv [] someDate freshWorld
  = (Threw ("Tenant already exists: " +:+ dquote +:+ "constructor" +:+ dquote),
     freshWorld).
Proof.
  assert (registered someEnv freshWorld !! "constructor" = None) as H by reflexivity.
  exact (proj2 (constructor_cannot_be_created (fun s => s) None someEnv []
                  someDate freshWorld H)).
Defined.

End TenantFacts.

(* ===================================================================== *)
(** * Usage ledger *)
(* ===================================================================== *)

Module UsageFacts.
Import Js Tenants Usage.
Local Open Scope Z_scope.

Definition env0 : Env := TenantFacts.someEnv.
Definition november : Date := TenantFacts.someDate.

Example period_november : getCurrentPeriod november = "2026-11".
Proof. reflexivity. Qed.

Example reset_december : getQuotaResetTimestamp november = 1796083200000.
Proof. reflexivity. Qed.

Example history_path_october :
  resolveTenantUsageHistoryPath "demo" "2026-10" env0
  = "/home/oc/.openclaw/tenants/demo/usage/2026-10.json".
Proof. vm_compute. reflexivity. Qed.

(** C6: when the stored snapshot belongs to another period than the
    current one, [loadTenantUsage] writes that snapshot, unchanged, to
    the history path of its own period and returns a snapshot of the
    current period with every counter at zero. *)
Theorem load_archives_stale_period (tenantId : string) (env : Env) (now : Date)
    (w : World) (stored : TenantUsageSnapshot) :
  files w !! resolveTenantUsageCurrentPath tenantId env = Some (UsageDoc stored) ->
  u_period stored <> getCurrentPeriod now ->
  exists fresh w',
    loadTenantUsage tenantId env now w = (Returned fresh, w')
    /\ files w'
       = <[resolveTenantUsageHistoryPath tenantId (u_period stored) env
           := UsageDoc stored]> (files w)
    /\ files w' !! resolveTenantUsageHistoryPath tenantId (u_period stored) env
       = Some (UsageDoc stored)
    /\ u_tenantId fresh = tenantId
    /\ u_period fresh = getCurrentPeriod now
    /\ countersZero fresh.
Proof.
  intros Hstored Hperiod.
  unfold loadTenantUsage, bind at 1, get. rewrite Hstored.
  destruct (String.eqb (u_period stored) (getCurrentPeriod now)) eqn:E.
  { apply String.eqb_eq in E. congruence. }
  cbn [negb]. unfold archiveUsageSnapshot, bind, modify, ret.
  eexists _, _. split; [reflexivity|]. cbn [files writeFile mkdir].
  split; [reflexivity|]. split; [apply lookup_insert_eq|].
  unfold countersZero. cbn. repeat split.
Qed.

Definition octoberUsage : TenantUsageSnapshot :=
  {| u_tenantId := "demo"; u_period := "2026-10";
     totalTokens := 1500; inputTokens := 1000; outputTokens := 400;
     cacheReadTokens := 60; cacheWriteTokens := 40; totalCostCents := 37;
     diskUsageBytes := 4096; workspaceBytes := 2048; agentDataBytes := 1024;
     memoryDbBytes := 1024; totalSessions := 3; activeSessions := 1;
     totalMessages := 12; totalRequests := 20; requestsThisMinute := 2;
     requestsThisHour := 9; sandboxCpuSeconds := 5; sandboxPeakMemoryMB := 128;
     updatedAt := 1793000000000; quotaResetAt := 1793491200000 |}.

Definition octoberWorld : World :=
  {| files := {[ resolveTenantUsageCurrentPath "demo" env0 := UsageDoc octoberUsage ]};
     dirs := ∅; EMPTY_REGISTRY_tenants := ∅ |}.

Lemma load_archives_stale_period_witness :
  exists fresh w',
    loadTenantUsage "demo" env0 november octoberWorld = (Returned fresh, w')
    /\ files w' !! "/home/oc/.openclaw/tenants/demo/usage/2026-10.json"
       = Some (UsageDoc octoberUsage)
    /\ u_period fresh = "2026-11"
    /\ countersZero fresh.
Proof.
  assert (files octoberWorld !! resolveTenantUsageCurrentPath "demo" env0
          = Some (UsageDoc octoberUsage)) as H1 by apply lookup_singleton_eq.
  assert (u_period octoberUsage <> getCurrentPeriod november) as H2 by discriminate.
  destruct (load_archives_stale_period "demo" env0 november octoberWorld octoberUsage
              H1 H2) as (fresh & w' & Hrun & _ & Hfile & _ & Hp & Hz).
  exists fresh, w'. split; [exact Hrun|]. split; [|split; [exact Hp|exact Hz]].
  rewrite <- history_path_october. exact Hfile.
Defined.

(** ** Rate limiting *)

(** [loadRateLimitState] reads and never throws; what it returns need
    not be a state. *)
Lemma loadRateLimitState_run tenantId env now w :
  exists parsed, loadRateLimitState tenantId env now w = (Returned parsed, w).
Proof.
  unfold loadRateLimitState, bind, get, ret.
  destruct (files w !! resolveTenantRateLimitPath tenantId env) as [[| |state|]|];
    eauto.
Qed.

Lemma checkAndRecordRequest_denied tenantId quotas env now w rc w' :
  checkAndRecordRequest tenantId quotas env now w = (Returned rc, w') ->
  rc_allowed rc = false ->
  w' = w
  /\ (rc_reason rc = Some "Rate limit exceeded (per minute)"
      \/ rc_reason rc = Some "Rate limit exceeded (per hour)").
Proof.
  unfold checkAndRecordRequest. unfold bind at 1.
  destruct (loadRateLimitState_run tenantId env now w) as [parsed ->].
  destruct parsed as [| |state|]; try discriminate.
  destruct (atLimit _ (requestsPerMinute quotas)).
  { unfold ret. intros [= <- <-] _. split; [reflexivity|now left]. }
  destruct (atLimit _ (requestsPerHour quotas)).
  { unfold ret. intros [= <- <-] _. split; [reflexivity|now right]. }
  unfold bind. intros Hrun Hdenied. exfalso.
  destruct (saveRateLimitState _ _ _ w) as [[[]|msg] w1]; [|discriminate Hrun].
  destruct (loadTenantUsage _ _ _ w1) as [[snapshot|msg] w2]; [|discriminate Hrun].
  destruct (saveTenantUsage _ _ _ _ w2) as [[[]|msg] w3]; [|discriminate Hrun].
  unfold ret in Hrun. injection Hrun as <- <-. discriminate Hdenied.
Qed.

Section Enforcement.
Variable toFixed1 : Q -> string.

(** C8 (amended): whenever [checkQuotaBeforeRequest] denies with reason
    [rate_limited], nothing has been recorded and the returned object is
    exactly [{allowed: false, reason, message}] with one of the two
    rate-limit messages; it carries no retry-after field. *)
Theorem rate_limited_shape (tenantId : string) (quotas : TenantQuotas) (env : Env)
    (now : Date) (w w' : World) (result : JsObject) :
  checkQuotaBeforeRequest toFixed1 tenantId quotas env now w = (Returned result, w') ->
  getField "reason" result = JsString "rate_limited" ->
  w' = w
  /\ (result = denied (JsString "rate_limited")
                      (JsString "Rate limit exceeded (per minute)")
      \/ result = denied (JsString "rate_limited")
                         (JsString "Rate limit exceeded (per hour)"))
  /\ keys result = ["allowed"; "reason"; "message"]
  /\ getField "retryAfterMs" result = JsUndefined
  /\ hasRetryAfterHint result = false.
Proof.
  unfold checkQuotaBeforeRequest. unfold bind at 1.
  destruct (checkAndRecordRequest tenantId quotas env now w) as [[rc|msg] w1] eqn:Hrate;
    [|discriminate].
  destruct (rc_allowed rc) eqn:Hallowed; cbn [negb].
  - (* the rate check passed: every later answer has another reason *)
    unfold bind. intros Hrun Hreason. exfalso.
    destruct (getTenantQuotaStatus _ _ _ _ w1) as [[status|msg] w2]; [|discriminate Hrun].
    unfold ret in Hrun.
    destruct (isOverTokenLimit status);
      [injection Hrun as <- <-; discriminate Hreason|].
    destruct (isOverCostLimit status);
      [injection Hrun as <- <-; discriminate Hreason|].
    destruct (isOverDiskLimit status);
      [injection Hrun as <- <-; discriminate Hreason|].
    destruct (atSessionLimit status quotas);
      [injection Hrun as <- <-; discriminate Hreason|].
    injection Hrun as <- <-. discriminate Hreason.
  - unfold ret. intros [= <- <-] _.
    destruct (checkAndRecordRequest_denied _ _ _ _ _ _ _ Hrate Hallowed) as [-> Hmsg].
    split; [reflexivity|].
    destruct Hmsg as [-> | ->]; (split; [auto|]); repeat split.
Qed.

End Enforcement.

(** One request already sits in the minute window; the limit is one. *)
Definition busyWorld : World :=
  {| files := {[ resolveTenantRateLimitPath "demo" env0 :=
                   RateLimitDoc {| minuteWindow := [getTime november - 1];
                                   hourWindow := [getTime november - 1];
                                   lastCleanup := getTime november - 1 |} ]};
     dirs := ∅; EMPTY_REGISTRY_tenants := ∅ |}.

Definition onePerMinute : TenantQuotas :=
  {| monthlyTokenLimit := None; monthlyTokenSoftLimit := None;
     monthlyCostLimitCents := None; monthlyCostSoftLimitCents := None;
     diskSpaceLimitBytes := None; maxConcurrentSessions := None;
     requestsPerMinute := Some 1; requestsPerHour := None;
     maxSandboxCpuPercent := None; maxSandboxMemoryMB := None;
     maxSandboxDiskMB := None; maxSandboxPids := None |}.

(** C8, as stated, fails: the denial returned for a full minute window
    has the three properties [allowed], [reason], [message] and nothing
    that hints at when to retry. *)
Lemma rate_limited_without_retry_hint :
  let run := checkQuotaBeforeRequest (fun _ => EmptyString) "demo" onePerMinute
               env0 november busyWorld in
  fst run = Returned [ ("allowed", JsBoolean false);
                       ("reason", JsString "rate_limited");
                       ("message", JsString "Rate limit exceeded (per minute)") ]
  /\ (forall result, fst run = Returned result -> hasRetryAfterHint result = false).
Proof.
  assert (fst (checkQuotaBeforeRequest (fun _ => EmptyString) "demo" onePerMinute
                 env0 november busyWorld)
          = Returned [ ("allowed", JsBoolean false);
                       ("reason", JsString "rate_limited");
                       ("message", JsString "Rate limit exceeded (per minute)") ]) as H
    by (vm_compute; reflexivity).
  cbv zeta. split; [exact H|].
  intros result Hr. rewrite H in Hr. injection Hr as <-. reflexivity.
Qed.

Lemma rate_limited_shape_witness :
  keys [ ("allowed", JsBoolean false);
         ("reason", JsString "rate_limited");
         ("message", JsString "Rate limit exceeded (per minute)") ]
  = ["allowed"; "reason"; "message"].
Proof.
  assert (checkQuotaBeforeRequest (fun _ => EmptyString) "demo" onePerMinute
            env0 november busyWorld
          = (Returned [ ("allowed", JsBoolean false);
                        ("reason", JsString "rate_limited");
                        ("message", JsString "Rate limit exceeded (per minute)") ],
             busyWorld)) as Hrun by (vm_compute; reflexivity).
  exact (proj1 (proj2 (proj2 (rate_limited_shape (fun _ => EmptyString) "demo"
                                onePerMinute env0 november busyWorld busyWorld _
                                Hrun eq_refl)))).
Defined.

End UsageFacts.

(* ===================================================================== *)
(** * Archive extraction *)
(* ===================================================================== *)

Module BackupFacts.
Import Js Path Backup.

(** Scenario S7: a traversal path, an escaping symlink, and benign entries. *)
Definition hostileArchive : list ReadEntry :=
  [ {| path := "../escape.txt"; type := File; linkpath := None |};
    {| path := "inner"; type := SymbolicLink; linkpath := Some "../../escape" |};
    {| path := "workspace/"; type := Directory; linkpath := None |};
    {| path := "workspace/notes.txt"; type := File; linkpath := None |};
    {| path := "/etc/passwd"; type := File; linkpath := None |} ].

Example S7_extraction :
  extractTarGz "/srv" hostileArchive "/home/oc/.openclaw/tenants/demo"
  = [ {| path := "workspace/"; type := Directory; linkpath := None |};
      {| path := "workspace/notes.txt"; type := File; linkpath := None |} ].
Proof. vm_compute. reflexivity. Qed.

(** An absolute path is not rejected as such: an entry whose absolute
    path lies below the target directory passes the filter, and it is
    [tar], run without [preservePaths], that strips the root. *)
Lemma absolute_path_inside_target_accepted :
  let e := {| path := "/srv/t/x"; type := File; linkpath := None |} in
  Path.isAbsolute (path e) = true
  /\ securityFilter "/cwd" (Path.resolve "/cwd" ["/srv/t"]) (path e) e = true
  /\ In e (extractTarGz "/cwd" [e] "/srv/t").
Proof. vm_compute. repeat split; left; reflexivity. Qed.

Lemma securityFilter_spec cwd target e :
  securityFilter cwd target (path e) e
  = negb (isLinkType (type e) && negb (inside target (resolvedLink cwd target e)))
    && inside target (resolvedEntry cwd target e).
Proof.
  unfold securityFilter, inside, resolvedLink, resolvedEntry.
  destruct (isLinkType (type e)); cbn [andb negb];
    repeat match goal with
           | |- context [startsWith ?x ?y] => destruct (startsWith x y)
           | |- context [String.eqb ?x ?y] => destruct (String.eqb x y)
           end; reflexivity.
Qed.

(** *** Resolved paths *)

Lemma resolveArgs_absolute cwd args acc :
  isAbsolute cwd = true -> snd (resolveArgs (args ++ [cwd]) acc) = true.
Proof.
  intros Hcwd. revert acc. induction args as [|p args IH]; intros acc.
  - cbn [app resolveArgs].
    destruct (PathFacts.isAbsolute_cons _ Hcwd) as [rest ->].
    cbn [isEmpty]. change (isAbsolute (String "/" rest)) with true. reflexivity.
  - cbn [app resolveArgs]. destruct (isEmpty p); [apply IH|].
    destruct (isAbsolute p); [reflexivity|apply IH].
Qed.

(** With an absolute working directory, [resolve] yields [/] followed by
    normal segments. *)
Lemma resolve_form cwd args :
  isAbsolute cwd = true ->
  exists segments,
    Forall (fun s => isNormalSegment s = true) segments
    /\ Path.resolve cwd args = "/" +:+ Js.join "/" segments.
Proof.
  intros Hcwd. unfold Path.resolve.
  pose proof (resolveArgs_absolute cwd (rev args) "" Hcwd) as Habs.
  destruct (resolveArgs (rev args ++ [cwd]) "") as [resolvedPath resolvedAbsolute].
  cbn [snd] in Habs. subst resolvedAbsolute. cbn [negb].
  eexists. split; [|reflexivity]. apply PathFacts.normalizeString_rooted.
Qed.

Lemma split_rooted segments :
  Forall (fun s => isNormalSegment s = true) segments -> segments <> [] ->
  split "/" ("/" +:+ Js.join "/" segments) = EmptyString :: segments.
Proof.
  intros Hall Hne.
  change ("/" +:+ Js.join "/" segments)
    with (EmptyString +:+ String "/" (Js.join "/" segments)).
  rewrite PathFacts.split_app, PathFacts.split_join; [reflexivity| |exact Hne].
  eapply List.Forall_impl; [|exact Hall]. exact PathFacts.normalSegment_lacks.
Qed.

(** A relative path without [..] resolves below the directory it is
    resolved against. *)
Lemma resolve_below cwd segments p :
  Forall (fun s => isNormalSegment s = true) segments -> segments <> [] ->
  isAbsolute p = false ->
  forallb (fun s => negb (String.eqb s "..")) (split "/" p) = true ->
  Path.resolve cwd ["/" +:+ Js.join "/" segments; p]
  = "/" +:+ Js.join "/" (segments ++ List.filter PathFacts.kept (split "/" p)).
Proof.
  intros Hall Hne Hrel Hdots.
  set (target := "/" +:+ Js.join "/" segments).
  assert (Forall (fun s => String.eqb s ".." = false) (split "/" p)) as Hp.
  { apply List.Forall_forall. intros s Hin.
    rewrite forallb_forall in Hdots. apply negb_true_iff. auto. }
  assert (Forall (fun s => String.eqb s ".." = false) segments) as Hs.
  { eapply List.Forall_impl; [|exact Hall]. exact PathFacts.normalSegment_not_dotdot. }
  assert (forall parts,
             Forall (fun s => String.eqb s ".." = false) parts ->
             normalizeSegments false [] ((EmptyString :: segments) ++ parts)
             = (segments ++ List.filter PathFacts.kept parts)%list) as Hwalk.
  { intros parts Hparts. rewrite PathFacts.normalizeSegments_no_dotdot.
    - rewrite List.filter_app. cbn [rev app List.filter].
      change (PathFacts.kept "") with false. cbn iota.
      now rewrite (PathFacts.filter_kept_normal _ Hall).
    - apply Forall_app. split; [constructor; [reflexivity|exact Hs]|exact Hparts]. }
  unfold Path.resolve. cbn [rev app resolveArgs].
  change (isEmpty target) with false. change (isAbsolute target) with true.
  rewrite Hrel. destruct p as [|c p'].
  - cbn [isEmpty negb]. unfold normalizeString.
    change (target +:+ "/" +:+ "") with (target +:+ String "/" "").
    rewrite PathFacts.split_app. unfold target. rewrite (split_rooted _ Hall Hne).
    now rewrite Hwalk by exact Hp.
  - cbn [isEmpty negb]. set (p := String c p') in *. unfold normalizeString.
    change (target +:+ "/" +:+ p +:+ "/" +:+ "")
      with (target +:+ String "/" (p +:+ String "/" "")).
    rewrite !PathFacts.split_app. unfold target. rewrite (split_rooted _ Hall Hne).
    rewrite Hwalk.
    + rewrite List.filter_app. change (List.filter PathFacts.kept (split "/" "")) with (@nil string).
      now rewrite app_nil_r.
    + apply Forall_app. split; [exact Hp|repeat constructor].
Qed.

Lemma inside_below segments extra :
  segments <> [] ->
  inside ("/" +:+ Js.join "/" segments) ("/" +:+ Js.join "/" (segments ++ extra)) = true.
Proof.
  intros Hne. unfold inside. destruct extra as [|x extra].
  - rewrite app_nil_r, String.eqb_refl. apply orb_true_r.
  - rewrite PathFacts.join_app by (assumption || discriminate).
    replace ("/" +:+ Js.join "/" segments +:+ "/" +:+ Js.join "/" (x :: extra))
      with ((("/" +:+ Js.join "/" segments) +:+ Path.sep) +:+ Js.join "/" (x :: extra))
      by (unfold Path.sep; now rewrite !JsFacts.append_assoc).
    now rewrite JsFacts.startsWith_app.
Qed.

Lemma benign_passes cwd targetDir e :
  isAbsolute cwd = true ->
  Path.resolve cwd [targetDir] <> "/" ->
  benign e = true ->
  securityFilter cwd (Path.resolve cwd [targetDir]) (path e) e = true.
Proof.
  intros Hcwd Hroot Hbenign.
  destruct (resolve_form cwd [targetDir] Hcwd) as (segments & Hall & Hform).
  assert (segments <> []) as Hne.
  { intros ->. apply Hroot. rewrite Hform. reflexivity. }
  unfold benign in Hbenign.
  apply andb_prop in Hbenign as [Hbenign Hdots].
  apply andb_prop in Hbenign as [Hlink Hrel].
  apply negb_true_iff in Hlink, Hrel.
  rewrite securityFilter_spec, Hlink. cbn [andb negb].
  unfold resolvedEntry. rewrite Hform, (resolve_below _ _ _ Hall Hne Hrel Hdots).
  now apply inside_below.
Qed.

(** What the filter does reject: every entry whose own resolved path lies
    outside the resolved target directory, and every link whose
    [linkpath], read from the directory of the entry, leads outside it;
    rejected entries are not handed on, and every benign entry of the
    same archive still is.  For a symbolic link that reading is the one
    the file system makes; for a hard link it is not, see
    [ExtractionFacts]. *)
Lemma extraction_filter (cwd targetDir : string) (archive : list ReadEntry)
    (e : ReadEntry) :
  In e archive ->
  let target := Path.resolve cwd [targetDir] in
  (inside target (resolvedEntry cwd target e) = false ->
     securityFilter cwd target (path e) e = false
     /\ ~ In e (extractTarGz cwd archive targetDir))
  /\ (isLinkType (type e) = true ->
      inside target (resolvedLink cwd target e) = false ->
        securityFilter cwd target (path e) e = false
        /\ ~ In e (extractTarGz cwd archive targetDir))
  /\ (isAbsolute cwd = true -> target <> "/" -> benign e = true ->
        In e (extractTarGz cwd archive targetDir)).
Proof.
  intros Hin target.
  assert (forall x, In x (extractTarGz cwd archive targetDir)
                    <-> In x archive /\ securityFilter cwd target (path x) x = true)
    as Hextract.
  { intros x. unfold extractTarGz. rewrite filter_In. reflexivity. }
  split; [|split].
  - intros Hout.
    assert (securityFilter cwd target (path e) e = false) as Hf
      by (rewrite securityFilter_spec, Hout; apply andb_false_r).
    split; [exact Hf|]. rewrite Hextract. intros [_ H]. congruence.
  - intros Hlink Hout.
    assert (securityFilter cwd target (path e) e = false) as Hf
      by (rewrite securityFilter_spec, Hlink, Hout; reflexivity).
    split; [exact Hf|]. rewrite Hextract. intros [_ H]. congruence.
  - intros Hcwd Hroot Hbenign. apply Hextract. split; [exact Hin|].
    now apply benign_passes.
Qed.

Example extraction_filter_S7 :
  ~ In {| path := "../escape.txt"; type := File; linkpath := None |}
       (extractTarGz "/srv" hostileArchive "/home/oc/.openclaw/tenants/demo")
  /\ ~ In {| path := "inner"; type := SymbolicLink; linkpath := Some "../../escape" |}
          (extractTarGz "/srv" hostileArchive "/home/oc/.openclaw/tenants/demo")
  /\ In {| path := "workspace/notes.txt"; type := File; linkpath := None |}
        (extractTarGz "/srv" hostileArchive "/home/oc/.openclaw/tenants/demo").
Proof.
  split; [|split].
  - assert (In {| path := "../escape.txt"; type := File; linkpath := None |}
               hostileArchive) as Hin by (left; reflexivity).
    pose proof (extraction_filter "/srv" "/home/oc/.openclaw/tenants/demo"
                  hostileArchive _ Hin) as H.
    cbv zeta in H. destruct H as (Hout & _ & _).
    match type of Hout with
    | ?outside -> _ =>
        assert outside as Houtside by (vm_compute; reflexivity)
    end.
    exact (proj2 (Hout Houtside)).
  - assert (In {| path := "inner"; type := SymbolicLink;
                  linkpath := Some "../../escape" |}
               hostileArchive) as Hin by (right; left; reflexivity).
    pose proof (extraction_filter "/srv" "/home/oc/.openclaw/tenants/demo"
                  hostileArchive _ Hin) as H.
    cbv zeta in H. destruct H as (_ & Hlink & _).
    match type of Hlink with
    | ?link -> ?outside -> _ =>
        assert link as Hl by reflexivity;
        assert outside as Houtside by (vm_compute; reflexivity)
    end.
    exact (proj2 (Hlink Hl Houtside)).
  - assert (In {| path := "workspace/notes.txt"; type := File; linkpath := None |}
               hostileArchive) as Hin by (do 3 right; left; reflexivity).
    pose proof (extraction_filter "/srv" "/home/oc/.openclaw/tenants/demo"
                  hostileArchive _ Hin) as H.
    cbv zeta in H. destruct H as (_ & _ & Hbenign).
    match type of Hbenign with
    | ?abs -> ?notroot -> ?ok -> _ =>
        assert abs as Habs by reflexivity;
        assert notroot as Hroot by (vm_compute; discriminate);
        assert ok as Hok by (vm_compute; reflexivity)
    end.
    exact (Hbenign Habs Hroot Hok).
Defined.

End BackupFacts.

(* ===================================================================== *)
(** * Method authorization: scope classes *)
(* ===================================================================== *)

Module AuthProps.
Import Protocol MethodAuth.

(** Turns [has S m = true], for a set written out as a list, into the
    case of each listed method. *)
Ltac enumerate H :=
  unfold has in H; apply bool_decide_eq_true in H;
  apply elem_of_list_to_set in H;
  repeat (apply elem_of_cons in H as [->|H]);
  [..|apply elem_of_nil in H; destruct H].

Lemma write_not_node method :
  has WRITE_METHODS method = true -> has NODE_ROLE_METHODS method = false.
Proof.
  intros H. unfold WRITE_METHODS in H. enumerate H; vm_compute; reflexivity.
Qed.

Lemma read_only_read method :
  has READ_METHODS method = true ->
  has NODE_ROLE_METHODS method = false
  /\ has APPROVAL_METHODS method = false
  /\ has PAIRING_METHODS method = false
  /\ has WRITE_METHODS method = false.
Proof.
  intros H. unfold READ_METHODS in H.
  enumerate H; vm_compute; repeat split; reflexivity.
Qed.

Lemma allowed_no_admin_prefix method :
  has TENANT_ALLOWED_METHODS method = true ->
  existsb (fun prefix => Js.startsWith prefix method) ADMIN_METHOD_PREFIXES = false.
Proof.
  intros H. unfold TENANT_ALLOWED_METHODS in H.
  enumerate H; vm_compute; reflexivity.
Qed.

Ltac split_scope s granted more H :=
  revert H; destruct (Js.arrayIncludes s granted);
  [intros H; rewrite (H eq_refl)
  |intros _; destruct (Js.arrayIncludes s more)].

Ltac refuted :=
  match goal with
  | |- Some _ = None -> _ => let H := fresh in intros H; discriminate H
  end.

Definition connection (r : option string) (granted : list string)
    (cid tenant : option string) : GatewayClient :=
  {| connect := Some {| role := r; scopes := Some granted |};
     connId := cid; tenantId := tenant |}.

(** X1: Methods of the node role are decided by the role alone: whatever the
    scopes and the tenant id of a connection, such a method is authorized
    exactly for the role [node], and everyone else is answered
    [unauthorized role]. *)
Theorem node_methods_closed_to_operators (method : string) (cl : GatewayClient)
    (r : string) :
  has NODE_ROLE_METHODS method = true ->
  roleOf cl = Some r ->
  (authorizeGatewayMethod method (Some cl) = None <-> r = "node")
  /\ (r <> "node" ->
      authorizeGatewayMethod method (Some cl) = unauthorizedRole r).
Proof.
  intros Hnode Hrole. unfold authorizeGatewayMethod, roleOf in *.
  destruct (connect cl) as [conn|]; [|discriminate].
  injection Hrole as Hrole. rewrite Hrole, Hnode.
  destruct (String.eqb r "node") eqn:E.
  - apply String.eqb_eq in E. split; [tauto|congruence].
  - apply String.eqb_neq in E. split; [|reflexivity].
    split; [discriminate|congruence].
Qed.

Lemma node_methods_closed_to_operators_witness :
  authorizeGatewayMethod "skills.bins"
    (Some (connection (Some "operator") ["operator.admin"] None (Some "tenant-a")))
  = unauthorizedRole "operator".
Proof.
  assert (has NODE_ROLE_METHODS "skills.bins" = true) as H1 by (vm_compute; reflexivity).
  assert (roleOf (connection (Some "operator") ["operator.admin"] None (Some "tenant-a"))
          = Some "operator") as H2 by reflexivity.
  pose proof (node_methods_closed_to_operators "skills.bins" _ "operator" H1 H2)
    as [_ H].
  apply H. discriminate.
Defined.

(** X2: No connection lacking both [operator.admin] and [operator.write] is
    ever authorized for a method of the write class, whatever its role,
    tenant id and other scopes. *)
Theorem write_methods_need_write_scope (method : string) (cl : GatewayClient)
    (conn : ConnectParams) :
  connect cl = Some conn ->
  has WRITE_METHODS method = true ->
  Js.arrayIncludes ADMIN_SCOPE (default [] (scopes conn)) = false ->
  Js.arrayIncludes WRITE_SCOPE (default [] (scopes conn)) = false ->
  exists e,
    authorizeGatewayMethod method (Some cl) = Some e /\ code e = INVALID_REQUEST.
Proof.
  intros Hconn Hwrite Hadmin Hscope.
  pose proof (write_not_node method Hwrite) as Hnode.
  unfold authorizeGatewayMethod. rewrite Hconn, Hnode, Hwrite, Hadmin, Hscope.
  unfold unauthorizedRole, missingScope. cbn [negb andb orb].
  repeat match goal with
         | |- context [if ?b then _ else _] => destruct b; cbn [negb andb orb]
         end; eexists; split; reflexivity.
Qed.

Lemma write_methods_need_write_scope_witness :
  exists e,
    authorizeGatewayMethod "terminal.write"
      (Some (connection None ["operator.read"; "operator.pairing"] None (Some "tenant-a")))
    = Some e /\ code e = INVALID_REQUEST.
Proof.
  apply (write_methods_need_write_scope "terminal.write" _
           {| role := None; scopes := Some ["operator.read"; "operator.pairing"] |});
    vm_compute; reflexivity.
Defined.

(** X3: For an operator connection without a tenant id, a method of the read
    class is authorized exactly when the connection holds
    [operator.admin], [operator.read] or [operator.write]; otherwise the
    answer is [missing scope: operator.read]. *)
Theorem read_methods_open_to_read_or_write (method : string) (cl : GatewayClient)
    (conn : ConnectParams) :
  connect cl = Some conn ->
  default "operator" (role conn) = "operator" ->
  truthyOpt (tenantId cl) = false ->
  has READ_METHODS method = true ->
  authorizeGatewayMethod method (Some cl)
  = if Js.arrayIncludes ADMIN_SCOPE (default [] (scopes conn))
       || Js.arrayIncludes READ_SCOPE (default [] (scopes conn))
       || Js.arrayIncludes WRITE_SCOPE (default [] (scopes conn))
    then None
    else missingScope "operator.read".
Proof.
  intros Hconn Hrole Htenant Hread.
  destruct (read_only_read method Hread) as (Hnode & Happr & Hpair & Hwrite).
  unfold authorizeGatewayMethod.
  rewrite Hconn, Hrole, Htenant, Hnode, Happr, Hpair, Hread.
  change (String.eqb "operator" "node") with false.
  change (String.eqb "operator" "operator") with true.
  cbn [negb andb].
  rewrite Hwrite.
  destruct (Js.arrayIncludes ADMIN_SCOPE _); [reflexivity|].
  destruct (Js.arrayIncludes READ_SCOPE _); [reflexivity|].
  destruct (Js.arrayIncludes WRITE_SCOPE _); reflexivity.
Qed.

Lemma read_methods_open_to_read_or_write_witness :
  authorizeGatewayMethod "chat.history"
    (Some (connection None ["operator.write"] (Some "c1") None)) = None.
Proof.
  pose proof (read_methods_open_to_read_or_write "chat.history"
                (connection None ["operator.write"] (Some "c1") None)
                {| role := None; scopes := Some ["operator.write"] |}) as H.
  repeat match type of H with
         | ?A -> _ => let Ha := fresh in
                      assert A as Ha by (vm_compute; reflexivity);
                      specialize (H Ha); clear Ha
         end.
  exact H.
Defined.

(** X4: A method of the tenant allow-list that belongs to none of the
    approval, pairing, read and write classes (and is no node method) is
    authorized for a tenant operator with no scope at all, while an
    operator without a tenant id needs [operator.admin] for it. *)
Theorem tenant_allowlist_replaces_admin_scope (method : string)
    (cl : GatewayClient) (conn : ConnectParams) :
  connect cl = Some conn ->
  default "operator" (role conn) = "operator" ->
  has TENANT_ALLOWED_METHODS method = true ->
  has NODE_ROLE_METHODS method = false ->
  has APPROVAL_METHODS method = false ->
  has PAIRING_METHODS method = false ->
  has READ_METHODS method = false ->
  has WRITE_METHODS method = false ->
  authorizeGatewayMethod method (Some cl)
  = if truthyOpt (tenantId cl)
       || Js.arrayIncludes ADMIN_SCOPE (default [] (scopes conn))
    then None
    else missingScope "operator.admin".
Proof.
  intros Hconn Hrole Hallowed Hnode Happr Hpair Hread Hwrite.
  pose proof (allowed_no_admin_prefix method Hallowed) as Hprefix.
  unfold authorizeGatewayMethod.
  rewrite Hconn, Hrole, Hallowed, Hnode, Happr, Hpair, Hread, Hwrite, Hprefix.
  change (String.eqb "operator" "node") with false.
  change (String.eqb "operator" "operator") with true.
  cbn [negb andb].
  destruct (truthyOpt (tenantId cl)); cbn [negb andb orb];
    destruct (Js.arrayIncludes ADMIN_SCOPE _); try reflexivity.
  repeat match goal with
         | |- context [if ?b then _ else _] => destruct b
         end; reflexivity.
Qed.

Lemma tenant_allowlist_replaces_admin_scope_witness :
  authorizeGatewayMethod "config.set"
    (Some (connection None [] (Some "c1") (Some "tenant-a"))) = None
  /\ authorizeGatewayMethod "config.set"
       (Some (connection None ["operator.read"; "operator.write"] (Some "c1") None))
     = missingScope "operator.admin".
Proof.
  split.
  - pose proof (tenant_allowlist_replaces_admin_scope "config.set"
                  (connection None [] (Some "c1") (Some "tenant-a"))
                  {| role := None; scopes := Some [] |}) as H.
    repeat match type of H with
           | ?A -> _ => let Ha := fresh in
                        assert A as Ha by (vm_compute; reflexivity);
                        specialize (H Ha); clear Ha
           end.
    exact H.
  - pose proof (tenant_allowlist_replaces_admin_scope "config.set"
                  (connection None ["operator.read"; "operator.write"] (Some "c1") None)
                  {| role := None;
                     scopes := Some ["operator.read"; "operator.write"] |}) as H.
    repeat match type of H with
           | ?A -> _ => let Ha := fresh in
                        assert A as Ha by (vm_compute; reflexivity);
                        specialize (H Ha); clear Ha
           end.
    exact H.
Defined.

(** X5: Granting a connection further scopes never takes an authorization
    away: a call authorized with the scopes [granted] stays authorized
    with any list that includes them, role and tenant id unchanged. *)
Theorem more_scopes_never_revoke (method : string) (r cid tenant : option string)
    (granted more : list string) :
  (forall s, Js.arrayIncludes s granted = true -> Js.arrayIncludes s more = true) ->
  authorizeGatewayMethod method (Some (connection r granted cid tenant)) = None ->
  authorizeGatewayMethod method (Some (connection r more cid tenant)) = None.
Proof.
  intros Hsub. unfold authorizeGatewayMethod, connection.
  cbn [connect role scopes tenantId default from_option id].
  pose proof (Hsub ADMIN_SCOPE) as Hadmin.
  pose proof (Hsub APPROVALS_SCOPE) as Happr.
  pose proof (Hsub PAIRING_SCOPE) as Hpair.
  pose proof (Hsub READ_SCOPE) as Hread.
  pose proof (Hsub WRITE_SCOPE) as Hwrite.
  unfold missingScope, unauthorizedRole.
  destruct (has NODE_ROLE_METHODS method); [tauto|].
  destruct (String.eqb (from_option id "operator" r) "node"); [tauto|].
  destruct (String.eqb (from_option id "operator" r) "operator"); [|tauto].
  cbn [negb].
  destruct (truthyOpt tenant && negb (has TENANT_ALLOWED_METHODS method)); [tauto|].
  match goal with
  | |- context [if existsb ?f ?l then ?a else ?b] =>
      generalize (if existsb f l then a else b)
  end.
  revert Hadmin Happr Hpair Hread Hwrite. clear Hsub.
  generalize (Js.arrayIncludes ADMIN_SCOPE granted) (Js.arrayIncludes ADMIN_SCOPE more)
             (Js.arrayIncludes APPROVALS_SCOPE granted)
             (Js.arrayIncludes APPROVALS_SCOPE more)
             (Js.arrayIncludes PAIRING_SCOPE granted)
             (Js.arrayIncludes PAIRING_SCOPE more)
             (Js.arrayIncludes READ_SCOPE granted) (Js.arrayIncludes READ_SCOPE more)
             (Js.arrayIncludes WRITE_SCOPE granted) (Js.arrayIncludes WRITE_SCOPE more)
             (has APPROVAL_METHODS method) (has PAIRING_METHODS method)
             (has READ_METHODS method) (has WRITE_METHODS method).
  clear. intros a a' b b' p p' r r' w w' A P R W Ha Hb Hp Hr Hw unclassified.
  destruct a; [rewrite (Ha eq_refl); reflexivity|]. clear Ha.
  destruct a'; [reflexivity|].
  destruct A, b; try rewrite (Hb eq_refl); cbn [negb andb orb]; try refuted; clear Hb;
    destruct P, p; try rewrite (Hp eq_refl); cbn [negb andb orb]; try refuted; clear Hp;
    destruct r; try rewrite (Hr eq_refl); clear Hr;
    destruct w; try rewrite (Hw eq_refl); clear Hw;
    destruct R, W; cbn [negb andb orb]; try refuted;
    try (intros _; reflexivity); try exact (fun H => H);
    destruct r', w'; cbn [negb andb orb];
    first [refuted | intros _; reflexivity | exact (fun H => H)].
Qed.

Lemma more_scopes_never_revoke_witness :
  authorizeGatewayMethod "chat.send"
    (Some (connection None ["operator.write"; "operator.read"] None None)) = None.
Proof.
  apply (more_scopes_never_revoke "chat.send" None None None ["operator.write"]).
  - intros s H. cbn in H |- *. destruct (String.eqb s "operator.write"); [reflexivity|].
    discriminate.
  - vm_compute. reflexivity.
Defined.

End AuthProps.

(* ===================================================================== *)
(** * PTY sessions: life cycle *)
(* ===================================================================== *)

Module TerminalProps.
Import Protocol Terminal.
Local Open Scope Z_scope.

Lemma nodup_inv (k : string) (l : list string) :
  NoDup (k :: l) -> ~ In k l /\ NoDup l.
Proof.
  intros H. apply NoDup_cons in H as [H1 H2]. split; [|exact H2].
  now rewrite <- list_elem_of_In.
Qed.

Lemma nodup_intro (k : string) (l : list string) :
  ~ In k l -> NoDup l -> NoDup (k :: l).
Proof.
  intros H1 H2. apply NoDup_cons. split; [|exact H2].
  now rewrite list_elem_of_In.
Qed.

Lemma mapGet_None k m : mapGet k m = None <-> ~ In k (map fst m).
Proof.
  induction m as [|[k' v] m IH]; simpl; [tauto|].
  destruct (String.eqb k k') eqn:E.
  - apply String.eqb_eq in E. split; [discriminate|]. intros H. destruct H. now left.
  - apply String.eqb_neq in E. rewrite IH. split; [|tauto].
    intros H [H'|H']; [congruence|tauto].
Qed.

Lemma mapSet_fresh k v m : mapGet k m = None -> mapSet k v m = (m ++ [(k, v)])%list.
Proof.
  induction m as [|[k' v'] m IH]; simpl; [reflexivity|].
  destruct (String.eqb k k'); [discriminate|]. intros H. now rewrite IH.
Qed.

Lemma mapSet_keys k v v0 m :
  mapGet k m = Some v0 -> map fst (mapSet k v m) = map fst m.
Proof.
  induction m as [|[k' v'] m IH]; simpl; [discriminate|].
  destruct (String.eqb k k'); simpl; [reflexivity|].
  intros H. now rewrite IH.
Qed.

Lemma mapSet_length k v v0 m :
  mapGet k m = Some v0 -> List.length (mapSet k v m) = List.length m.
Proof.
  induction m as [|[k' v'] m IH]; simpl; [discriminate|].
  destruct (String.eqb k k'); simpl; [reflexivity|].
  intros H. now rewrite IH.
Qed.

Lemma filter_all {A} (f : A -> bool) (l : list A) :
  (forall x, In x l -> f x = true) -> List.filter f l = l.
Proof.
  induction l as [|a l IH]; simpl; [reflexivity|].
  intros H. rewrite (H a) by now left. rewrite IH; [reflexivity|].
  intros x Hx. apply H. now right.
Qed.

Lemma mapDelete_filter k m :
  NoDup (map fst m) ->
  mapDelete k m = List.filter (fun e => negb (String.eqb k (fst e))) m.
Proof.
  induction m as [|[k' v'] m IH]; simpl; [reflexivity|].
  intros Hnd. apply nodup_inv in Hnd as [Hnotin Hnd'].
  destruct (String.eqb k k') eqn:E; simpl.
  - apply String.eqb_eq in E. subst k'. symmetry. apply filter_all.
    intros [k0 v0] Hin. simpl. apply negb_true_iff. apply String.eqb_neq.
    intros ->. apply Hnotin. apply in_map_iff. now exists (k0, v0).
  - now rewrite IH.
Qed.

Lemma filter_keys_NoDup (f : string * Session -> bool) m :
  NoDup (map fst m) -> NoDup (map fst (List.filter f m)).
Proof.
  induction m as [|e m IH]; simpl; [trivial|].
  intros Hnd. apply nodup_inv in Hnd as [Hnotin Hnd'].
  destruct (f e); simpl; [|auto].
  apply nodup_intro; [|auto].
  intros Hin. apply Hnotin. apply in_map_iff in Hin as (x & Hx & Hin).
  apply List.filter_In in Hin as [Hin _]. apply in_map_iff. now exists x.
Qed.

Lemma mapGet_filter (keep : Session -> bool) k m :
  NoDup (map fst m) ->
  mapGet k (List.filter (fun e => keep (snd e)) m)
  = match mapGet k m with
    | Some s => if keep s then Some s else None
    | None => None
    end.
Proof.
  induction m as [|[k' v'] m IH]; simpl; [reflexivity|].
  intros Hnd. apply nodup_inv in Hnd as [Hnotin Hnd'].
  destruct (String.eqb k k') eqn:E.
  - apply String.eqb_eq in E. subst k'.
    destruct (keep v') eqn:K; simpl; [now rewrite String.eqb_refl|].
    rewrite IH by assumption.
    apply mapGet_None in Hnotin. now rewrite Hnotin.
  - destruct (keep v'); simpl; [rewrite E|]; now apply IH.
Qed.

Lemma filter_filter {A} (f g : A -> bool) (l : list A) :
  List.filter f (List.filter g l) = List.filter (fun x => g x && f x) l.
Proof.
  induction l as [|a l IH]; simpl; [reflexivity|].
  destruct (g a); simpl; [destruct (f a)|]; now rewrite IH.
Qed.

(** The loop of [sweep], started on any accumulator with distinct ids. *)
Lemma sweep_loop (doomed : Session -> bool) (l : SessionMap) :
  forall (acc : SessionMap) (n : nat),
    NoDup (map fst acc) ->
    fold_left
      (fun (a : SessionMap * nat) (entry : string * Session) =>
         if doomed (snd entry)
         then (mapDelete (fst entry) (fst a), S (snd a))
         else a)
      l (acc, n)
    = (List.filter
         (fun e => negb (existsb (fun d => String.eqb (fst d) (fst e))
                           (List.filter (fun d => doomed (snd d)) l)))
         acc,
       (n + List.length (List.filter (fun d => doomed (snd d)) l))%nat).
Proof.
  induction l as [|[k v] l IH]; intros acc n Hnd; simpl.
  - rewrite filter_all by reflexivity. f_equal. lia.
  - destruct (doomed v) eqn:D; simpl.
    + rewrite IH by (rewrite mapDelete_filter by assumption;
                     now apply filter_keys_NoDup).
      rewrite mapDelete_filter by assumption. rewrite filter_filter.
      f_equal; [|lia].
      apply List.filter_ext. intros [k0 v0]. simpl.
      now rewrite negb_orb.
    + now apply IH.
Qed.

Lemma sweep_filter (doomed : Session -> bool) (m : SessionMap) :
  NoDup (map fst m) ->
  sweep doomed m
  = (List.filter (fun e => negb (doomed (snd e))) m,
     List.length (List.filter (fun e => doomed (snd e)) m)).
Proof.
  intros Hnd. unfold sweep. rewrite sweep_loop by assumption. simpl. f_equal.
  apply List.filter_ext_in. intros [k v] Hin. simpl. f_equal.
  destruct (doomed v) eqn:D.
  - apply existsb_exists. exists (k, v). split; [|apply String.eqb_refl].
    apply List.filter_In. now split.
  - apply not_true_is_false. intros H.
    apply existsb_exists in H as ([k' v'] & Hin' & E). simpl in E.
    apply String.eqb_eq in E. subst k'.
    apply List.filter_In in Hin' as [Hin' D']. simpl in D'.
    assert (v' = v) as ->; [|congruence].
    clear D D'. induction m as [|[k0 v0] m IH]; [destruct Hin|].
    simpl in Hnd. apply nodup_inv in Hnd as [Hnotin Hnd'].
    destruct Hin as [Hin|Hin], Hin' as [Hin'|Hin']; try congruence.
    + injection Hin as -> ->. destruct Hnotin. apply in_map_iff. now exists (k, v').
    + injection Hin' as -> ->. destruct Hnotin. apply in_map_iff. now exists (k, v).
    + now apply IH.
Qed.

Lemma filter_length_split {A} (f : A -> bool) (l : list A) :
  (List.length (List.filter f l)
   + List.length (List.filter (fun x => negb (f x)) l))%nat = List.length l.
Proof.
  induction l as [|a l IH]; simpl; [reflexivity|].
  destruct (f a); simpl; lia.
Qed.

Lemma mapGet_mapDelete_other k k' m :
  k <> k' -> mapGet k' (mapDelete k m) = mapGet k' m.
Proof.
  intros Hne. induction m as [|[k0 v0] m IH]; simpl; [reflexivity|].
  destruct (String.eqb k k0) eqn:E; simpl.
  - apply String.eqb_eq in E. subst k0.
    destruct (String.eqb k' k) eqn:E'; [|reflexivity].
    apply String.eqb_eq in E'. congruence.
  - now rewrite IH.
Qed.

Lemma mapGet_mapDelete_same k m :
  NoDup (map fst m) -> mapGet k (mapDelete k m) = None.
Proof.
  induction m as [|[k0 v0] m IH]; simpl; [reflexivity|].
  intros Hnd. apply nodup_inv in Hnd as [Hnotin Hnd'].
  destruct (String.eqb k k0) eqn:E; simpl.
  - apply String.eqb_eq in E. subst k0. now apply mapGet_None.
  - rewrite E. now apply IH.
Qed.

Lemma mapDelete_length k v m :
  mapGet k m = Some v -> S (List.length (mapDelete k m)) = List.length m.
Proof.
  revert v. induction m as [|[k0 v0] m IH]; simpl; [discriminate|].
  intros v. destruct (String.eqb k k0); simpl; [reflexivity|].
  intros H. now rewrite (IH v).
Qed.

Lemma sameTenant_true t tenantId : sameTenant t tenantId = true -> tenantId = Some t.
Proof.
  destruct tenantId as [t'|]; simpl; [|discriminate].
  intros H. apply String.eqb_eq in H. now subst.
Qed.

Lemma access_granted client session :
  negb (hasAdminScope client) && negb (sameTenant (s_tenantId session) (getTenantId client))
  = false ->
  hasAdminScope client = true \/ getTenantId client = Some (s_tenantId session).
Proof.
  destruct (hasAdminScope client); [now left|]. simpl.
  intros H. apply negb_false_iff in H. right. now apply sameTenant_true.
Qed.

(** [terminal.write] keeps the ids of the map distinct. *)
Lemma write_keeps_unique client params now st :
  uniqueIds st -> uniqueIds (fst (terminal_write client params now st)).
Proof.
  unfold uniqueIds, terminal_write. intros Hnd.
  destruct (negb (truthyOpt (wp_terminalId params))); [exact Hnd|].
  destruct (wp_data params) as [data|]; [|exact Hnd].
  destruct (mapGet _ _) as [session|] eqn:G; [|exact Hnd].
  destruct (_ && _); [exact Hnd|].
  destruct (ptyCall _ _); [|exact Hnd].
  simpl. now rewrite (mapSet_keys _ _ _ _ G).
Qed.

(** X6: Whichever of the four mutating handlers refuses a request
    ([ok = false]: bad parameters, unknown terminal, access denied, or a
    failing PTY on spawn, write and resize) leaves the session map and
    the reaper flag exactly as they were. *)
Theorem refused_requests_change_nothing (client : option GatewayClient) (now : Z)
    (st : State) :
  (forall params spawned uuid,
      ok (snd (terminal_spawn client params spawned uuid now st)) = false ->
      fst (terminal_spawn client params spawned uuid now st) = st)
  /\ (forall params,
         ok (snd (terminal_write client params now st)) = false ->
         fst (terminal_write client params now st) = st)
  /\ (forall params,
         ok (snd (terminal_resize client params now st)) = false ->
         fst (terminal_resize client params now st) = st)
  /\ (forall terminalId,
         ok (snd (terminal_close client terminalId st)) = false ->
         fst (terminal_close client terminalId st) = st).
Proof.
  repeat split.
  - intros params spawned uuid. unfold terminal_spawn.
    destruct (getTenantId client); [|reflexivity].
    destruct (negb (Js.truthy _)); [reflexivity|].
    destruct client as [cl|]; [|reflexivity].
    destruct (negb (truthyOpt (connId cl))); [reflexivity|].
    destruct spawned; [discriminate|reflexivity].
  - intros params. unfold terminal_write.
    destruct (negb (truthyOpt _)); [reflexivity|].
    destruct (wp_data params); [|reflexivity].
    destruct (mapGet _ _); [|reflexivity].
    destruct (_ && _); [reflexivity|].
    destruct (ptyCall _ _); [discriminate|reflexivity].
  - intros params. unfold terminal_resize.
    destruct (negb (truthyOpt _)); [reflexivity|].
    destruct (option_map _ (rp_cols params)); [|reflexivity].
    destruct (option_map _ (rp_rows params)); [|reflexivity].
    destruct (mapGet _ _); [|reflexivity].
    destruct (_ && _); [reflexivity|].
    destruct (ptyCall _ _); [discriminate|reflexivity].
  - intros terminalId. unfold terminal_close.
    destruct (negb (truthyOpt _)); [reflexivity|].
    destruct (mapGet _ _); [|reflexivity].
    destruct (_ && _); [reflexivity|].
    destruct (ptyCall _ _); discriminate.
Qed.

Lemma refused_requests_change_nothing_witness :
  fst (terminal_close
         (Some (TerminalFacts.clientOf (Some "tenant-b") ["operator.write"]))
         (Some "t-a") TerminalFacts.stateA)
  = TerminalFacts.stateA.
Proof.
  pose proof (refused_requests_change_nothing
                (Some (TerminalFacts.clientOf (Some "tenant-b") ["operator.write"]))
                2000 TerminalFacts.stateA) as (_ & _ & _ & H).
  apply H. reflexivity.
Defined.

(** X7: A spawn by a tenant connection whose sandbox process starts answers
    with the new id and a size clamped to 10..500 columns and 5..200
    rows, stores the session under that id for the caller's tenant with
    both timestamps at the current time, and leaves every other id of the
    map as it was. *)
Theorem spawn_registers_session (cl : GatewayClient) (tenant : string)
    (params : SpawnParams) (pty : BwrapPtyHandle) (uuid : string) (now : Z)
    (st : State) :
  tenantId cl = Some tenant ->
  Js.truthy tenant = true ->
  truthyOpt (connId cl) = true ->
  exists cols rows session,
    snd (terminal_spawn (Some cl) params (inl pty) uuid now st)
    = respondOk (Spawned uuid (pid pty) cols rows)
    /\ 10 <= cols <= 500 /\ 5 <= rows <= 200
    /\ mapGet uuid (terminalSessions
                      (fst (terminal_spawn (Some cl) params (inl pty) uuid now st)))
       = Some session
    /\ s_tenantId session = tenant
    /\ s_pty session = pty
    /\ s_createdAt session = now
    /\ s_lastActivityAt session = now
    /\ forall k, k <> uuid ->
         mapGet k (terminalSessions
                     (fst (terminal_spawn (Some cl) params (inl pty) uuid now st)))
         = mapGet k (terminalSessions st).
Proof.
  intros Htenant Htruthy Hconn. unfold terminal_spawn.
  cbn [getTenantId]. rewrite Htenant, Htruthy, Hconn. cbn [negb fst snd].
  eexists _, _, _. split; [reflexivity|].
  split; [destruct (sp_cols params); unfold clamp; lia|].
  split; [destruct (sp_rows params); unfold clamp; lia|].
  cbn [terminalSessions].
  split; [apply TerminalFacts.mapGet_mapSet_same|].
  repeat (split; [reflexivity|]).
  intros k Hk. apply TerminalFacts.mapGet_mapSet_other. congruence.
Qed.

Lemma spawn_registers_session_witness :
  exists cols rows session,
    snd (terminal_spawn (Some (TerminalFacts.clientOf (Some "tenant-b") []))
           {| sp_cols := Some 100000; sp_rows := Some 0; sp_shell := None |}
           (inl TerminalFacts.ptyA) "t-b" 3000 TerminalFacts.stateA)
    = respondOk (Spawned "t-b" 4242 cols rows)
    /\ 10 <= cols <= 500 /\ 5 <= rows <= 200
    /\ mapGet "t-b"
         (terminalSessions
            (fst (terminal_spawn (Some (TerminalFacts.clientOf (Some "tenant-b") []))
                    {| sp_cols := Some 100000; sp_rows := Some 0; sp_shell := None |}
                    (inl TerminalFacts.ptyA) "t-b" 3000 TerminalFacts.stateA)))
       = Some session
    /\ s_tenantId session = "tenant-b".
Proof.
  destruct (spawn_registers_session
              (TerminalFacts.clientOf (Some "tenant-b") []) "tenant-b"
              {| sp_cols := Some 100000; sp_rows := Some 0; sp_shell := None |}
              TerminalFacts.ptyA "t-b" 3000 TerminalFacts.stateA
              eq_refl eq_refl eq_refl)
    as (cols & rows & session & H1 & H2 & H3 & H4 & H5 & _).
  exists cols, rows, session. repeat split; try assumption; tauto.
Defined.

(** X8: A spawn under a fresh id does not show in the listing of any
    non-admin connection of another tenant (or of none): that listing is
    the same before and after. *)
Theorem spawn_invisible_to_other_tenants (cl other : GatewayClient)
    (params : SpawnParams) (spawned : BwrapPtyHandle + string) (uuid : string)
    (now : Z) (st : State) :
  mapGet uuid (terminalSessions st) = None ->
  hasAdminScope (Some other) = false ->
  tenantId other <> tenantId cl ->
  snd (terminal_list (Some other)
         (fst (terminal_spawn (Some cl) params spawned uuid now st)))
  = snd (terminal_list (Some other) st).
Proof.
  intros Hfresh Hadmin Hne. unfold terminal_spawn. cbn [getTenantId].
  destruct (tenantId cl) as [tenant|] eqn:Htenant; [|reflexivity].
  destruct (negb (Js.truthy tenant)); [reflexivity|].
  destruct (negb (truthyOpt (connId cl))); [reflexivity|].
  destruct spawned as [pty|msg]; [|reflexivity].
  unfold terminal_list. cbn [fst snd terminalSessions getTenantId].
  rewrite Hadmin. cbn [orb]. do 3 f_equal.
  rewrite mapSet_fresh by assumption.
  unfold mapValues. rewrite map_app, List.filter_app. cbn [map List.filter snd s_tenantId].
  assert (sameTenant tenant (tenantId other) = false) as ->.
  { destruct (tenantId other) as [t'|]; [|reflexivity]. simpl.
    apply String.eqb_neq. congruence. }
  apply app_nil_r.
Qed.

Lemma spawn_invisible_to_other_tenants_witness :
  snd (terminal_list (Some (TerminalFacts.clientOf (Some "tenant-a") ["operator.read"]))
         (fst (terminal_spawn (Some (TerminalFacts.clientOf (Some "tenant-b") []))
                 {| sp_cols := None; sp_rows := None; sp_shell := None |}
                 (inl TerminalFacts.ptyA) "t-b" 3000 TerminalFacts.stateA)))
  = snd (terminal_list (Some (TerminalFacts.clientOf (Some "tenant-a") ["operator.read"]))
           TerminalFacts.stateA).
Proof.
  apply spawn_invisible_to_other_tenants.
  - reflexivity.
  - reflexivity.
  - discriminate.
Defined.

(** X9: A write that is answered [ok] was made by an admin connection or by
    the tenant that owns the terminal; it appends the data to what that
    terminal's process has received, reports the number of characters,
    sets the session's last activity to the current time, and leaves
    every other terminal of the map untouched. *)
Theorem write_reaches_only_target (client : option GatewayClient)
    (params : WriteParams) (now : Z) (st st' : State) (n : nat) :
  terminal_write client params now st = (st', respondOk (Written n)) ->
  exists tid data session,
    wp_terminalId params = Some tid
    /\ wp_data params = Some data
    /\ n = String.length data
    /\ mapGet tid (terminalSessions st) = Some session
    /\ (hasAdminScope client = true
        \/ getTenantId client = Some (s_tenantId session))
    /\ receivedBy tid st' = (received (s_pty session) ++ [PtyWrite data])%list
    /\ option_map s_lastActivityAt (mapGet tid (terminalSessions st')) = Some now
    /\ option_map s_tenantId (mapGet tid (terminalSessions st'))
       = Some (s_tenantId session)
    /\ forall k, k <> tid ->
         mapGet k (terminalSessions st') = mapGet k (terminalSessions st).
Proof.
  unfold terminal_write.
  destruct (wp_terminalId params) as [tid|] eqn:Htid; [|discriminate].
  cbn [truthyOpt default from_option id].
  destruct (negb (Js.truthy tid)); [discriminate|].
  destruct (wp_data params) as [data|]; [|discriminate].
  destruct (mapGet tid (terminalSessions st)) as [session|] eqn:G; [|discriminate].
  destruct (_ && _) eqn:Haccess; [discriminate|].
  unfold ptyCall. destruct (faulty (s_pty session)); [discriminate|].
  intros H. injection H as <- <-.
  exists tid, data, session.
  repeat (split; [reflexivity|]).
  split; [exact G|].
  split; [now apply access_granted|].
  unfold receivedBy. cbn [terminalSessions withSessions].
  rewrite TerminalFacts.mapGet_mapSet_same. cbn.
  repeat (split; [reflexivity|]).
  intros k Hk. apply TerminalFacts.mapGet_mapSet_other. congruence.
Qed.

Lemma write_reaches_only_target_witness :
  exists tid,
    receivedBy tid
      (fst (terminal_write (Some (TerminalFacts.clientOf (Some "tenant-a") []))
              TerminalFacts.writeX 2000 TerminalFacts.stateA))
    <> [].
Proof.
  assert (terminal_write (Some (TerminalFacts.clientOf (Some "tenant-a") []))
            TerminalFacts.writeX 2000 TerminalFacts.stateA
          = (fst (terminal_write (Some (TerminalFacts.clientOf (Some "tenant-a") []))
                    TerminalFacts.writeX 2000 TerminalFacts.stateA),
             respondOk (Written 1))) as E by reflexivity.
  destruct (write_reaches_only_target _ _ _ _ _ _ E)
    as (tid & data & session & _ & _ & _ & _ & _ & H & _).
  exists tid. rewrite H. now destruct (received (s_pty session)).
Defined.

(** X10: A close that is answered [ok] removes the terminal from the map even
    when killing the process throws: the count drops by one, the other
    terminals stay, and a later write to the same id is answered
    [NOT_FOUND] for every caller. *)
Theorem close_removes_session (client : option GatewayClient) (tid : string)
    (st st' : State) (warning : option string) :
  uniqueIds st ->
  terminal_close client (Some tid) st = (st', respondOk (Closed warning)) ->
  mapGet tid (terminalSessions st') = None
  /\ S (getTerminalSessionsCount st') = getTerminalSessionsCount st
  /\ (forall k, k <> tid ->
        mapGet k (terminalSessions st') = mapGet k (terminalSessions st))
  /\ (forall caller data now,
        terminal_write caller {| wp_terminalId := Some tid; wp_data := Some data |}
                       now st'
        = (st', respondError NOT_FOUND "Terminal session not found")).
Proof.
  intros Hnd. unfold terminal_close. cbn [truthyOpt default from_option id].
  destruct (negb (Js.truthy tid)) eqn:Htruthy; [discriminate|].
  destruct (mapGet tid (terminalSessions st)) as [session|] eqn:G; [|discriminate].
  destruct (_ && _); [discriminate|].
  intros H.
  assert (st' = withSessions (mapDelete tid (terminalSessions st)) st) as ->.
  { destruct (ptyCall _ _); now injection H as <- _. }
  clear H. cbn [terminalSessions withSessions].
  assert (mapGet tid (mapDelete tid (terminalSessions st)) = None) as Hgone
    by now apply mapGet_mapDelete_same.
  split; [exact Hgone|].
  split; [unfold getTerminalSessionsCount; cbn [terminalSessions];
          now apply (mapDelete_length _ session)|].
  split; [intros k Hk; apply mapGet_mapDelete_other; congruence|].
  intros caller data now. unfold terminal_write.
  cbn [wp_terminalId wp_data truthyOpt default from_option id terminalSessions
       withSessions].
  rewrite Htruthy, Hgone. reflexivity.
Qed.

Lemma close_removes_session_witness :
  mapGet "t-a"
    (terminalSessions
       (fst (terminal_close (Some (TerminalFacts.clientOf (Some "tenant-a") []))
               (Some "t-a") TerminalFacts.stateA)))
  = None.
Proof.
  assert (uniqueIds TerminalFacts.stateA) as Hnd.
  { unfold uniqueIds. simpl. apply NoDup_singleton. }
  pose proof (close_removes_session
                (Some (TerminalFacts.clientOf (Some "tenant-a") []))
                "t-a" TerminalFacts.stateA _ None Hnd eq_refl) as (H & _).
  exact H.
Defined.

(** X11: [closeAllTenantTerminals] removes exactly the sessions of the given
    tenant and returns how many there were: afterwards an id maps to what
    it did before unless its session belonged to the tenant, in which
    case it is gone, and the sizes before and after differ by the number
    returned. *)
Theorem closeAllTenantTerminals_exact (tenant : string) (st : State) :
  uniqueIds st ->
  (forall k,
      mapGet k (terminalSessions (fst (closeAllTenantTerminals tenant st)))
      = match mapGet k (terminalSessions st) with
        | Some s => if String.eqb (s_tenantId s) tenant then None else Some s
        | None => None
        end)
  /\ (snd (closeAllTenantTerminals tenant st)
      + getTerminalSessionsCount (fst (closeAllTenantTerminals tenant st))
      = getTerminalSessionsCount st)%nat
  /\ snd (closeAllTenantTerminals tenant st)
     = List.length (List.filter (fun s => String.eqb (s_tenantId s) tenant)
                                (mapValues (terminalSessions st))).
Proof.
  intros Hnd. unfold closeAllTenantTerminals.
  rewrite sweep_filter by exact Hnd.
  cbn [fst snd terminalSessions withSessions]. unfold getTerminalSessionsCount.
  cbn [terminalSessions]. split; [|split].
  - intros k.
    rewrite (mapGet_filter (fun s => negb (String.eqb (s_tenantId s) tenant)))
      by exact Hnd.
    destruct (mapGet k (terminalSessions st)) as [s|]; [|reflexivity].
    now destruct (String.eqb (s_tenantId s) tenant).
  - apply (filter_length_split (fun e => String.eqb (s_tenantId (snd e)) tenant)).
  - unfold mapValues. generalize (terminalSessions st). intros l.
    induction l as [|[k s] l IH]; simpl; [reflexivity|].
    destruct (String.eqb (s_tenantId s) tenant); simpl; now rewrite IH.
Qed.

Lemma closeAllTenantTerminals_exact_witness :
  snd (closeAllTenantTerminals "tenant-a" TerminalFacts.stateA) = 1%nat.
Proof.
  assert (uniqueIds TerminalFacts.stateA) as Hnd.
  { unfold uniqueIds. simpl. apply NoDup_singleton. }
  pose proof (closeAllTenantTerminals_exact "tenant-a" TerminalFacts.stateA Hnd)
    as (_ & _ & H).
  rewrite H. reflexivity.
Defined.

(** X12: One run of the idle reaper at time [now] removes exactly the sessions
    whose last activity lies more than five minutes back: an id maps to
    what it did before unless [now - lastActivityAt > 300000]. *)
Theorem cleanupIdle_exact (now : Z) (st : State) :
  uniqueIds st ->
  forall k,
    mapGet k (terminalSessions (cleanupIdle now st))
    = match mapGet k (terminalSessions st) with
      | Some s => if now - s_lastActivityAt s >? 300000 then None else Some s
      | None => None
      end.
Proof.
  intros Hnd k. unfold cleanupIdle. rewrite sweep_filter by exact Hnd.
  cbn [fst terminalSessions withSessions].
  rewrite (mapGet_filter
             (fun s => negb (now - s_lastActivityAt s >? TERMINAL_IDLE_TIMEOUT_MS)))
    by exact Hnd.
  destruct (mapGet k (terminalSessions st)) as [s|]; [|reflexivity].
  change TERMINAL_IDLE_TIMEOUT_MS with 300000.
  now destruct (now - s_lastActivityAt s >? 300000).
Qed.

Lemma cleanupIdle_exact_witness :
  mapGet "t-a" (terminalSessions (cleanupIdle 301001 TerminalFacts.stateA)) = None
  /\ mapGet "t-a" (terminalSessions (cleanupIdle 301000 TerminalFacts.stateA))
     = Some TerminalFacts.sessionA.
Proof.
  assert (uniqueIds TerminalFacts.stateA) as Hnd.
  { unfold uniqueIds. simpl. apply NoDup_singleton. }
  split.
  - rewrite (cleanupIdle_exact 301001 TerminalFacts.stateA Hnd "t-a"). reflexivity.
  - rewrite (cleanupIdle_exact 301000 TerminalFacts.stateA Hnd "t-a"). reflexivity.
Defined.

(** X13: Activity defers the reaper: after a write answered [ok] at time
    [now], a reaper run at any time up to five minutes later still finds
    the terminal in the map. *)
Theorem write_defers_reaper (client : option GatewayClient) (params : WriteParams)
    (tid : string) (now later : Z) (st : State) :
  uniqueIds st ->
  wp_terminalId params = Some tid ->
  ok (snd (terminal_write client params now st)) = true ->
  later - now <= 300000 ->
  exists session,
    mapGet tid (terminalSessions
                  (cleanupIdle later (fst (terminal_write client params now st))))
    = Some session
    /\ s_lastActivityAt session = now.
Proof.
  intros Hnd Htid Hok Hlater.
  pose proof (write_keeps_unique client params now st Hnd) as Hnd'.
  unfold cleanupIdle. rewrite sweep_filter by exact Hnd'.
  cbn [fst terminalSessions withSessions].
  rewrite (mapGet_filter
             (fun s => negb (later - s_lastActivityAt s >? TERMINAL_IDLE_TIMEOUT_MS)))
    by exact Hnd'.
  change TERMINAL_IDLE_TIMEOUT_MS with 300000.
  revert Hok. unfold terminal_write. rewrite Htid.
  cbn [truthyOpt default from_option id].
  destruct (negb (Js.truthy tid)); [discriminate|].
  destruct (wp_data params) as [data|]; [|discriminate].
  destruct (mapGet tid (terminalSessions st)) as [session|]; [|discriminate].
  destruct (_ && _); [discriminate|].
  destruct (ptyCall _ _) as [pty'|]; [|discriminate].
  intros _. cbn [fst terminalSessions withSessions].
  rewrite TerminalFacts.mapGet_mapSet_same. cbn [s_lastActivityAt].
  destruct (later - now >? 300000) eqn:E; [lia|].
  eexists. split; reflexivity.
Qed.

Lemma write_defers_reaper_witness :
  exists session,
    mapGet "t-a"
      (terminalSessions
         (cleanupIdle 302000
            (fst (terminal_write (Some (TerminalFacts.clientOf (Some "tenant-a") []))
                    TerminalFacts.writeX 2000 TerminalFacts.stateA))))
    = Some session
    /\ s_lastActivityAt session = 2000.
Proof.
  assert (uniqueIds TerminalFacts.stateA) as Hnd.
  { unfold uniqueIds. simpl. apply NoDup_singleton. }
  apply (write_defers_reaper
           (Some (TerminalFacts.clientOf (Some "tenant-a") []))
           TerminalFacts.writeX "t-a" 2000 302000 TerminalFacts.stateA Hnd
           eq_refl eq_refl).
  lia.
Defined.

End TerminalProps.

(* ===================================================================== *)
(** * Session keys: normal forms *)
(* ===================================================================== *)

Module SessionKeyProps.
Import Js SessionKey JsFacts SessionKeyFacts.

Lemma length_toLowerCase s : String.length (toLowerCase s) = String.length s.
Proof. induction s as [|c s IH]; simpl; [reflexivity|now rewrite IH]. Qed.

Lemma length_sliceTo n s : (String.length (sliceTo n s) <= n)%nat.
Proof.
  revert s. induction n as [|n IH]; intros s; simpl; [lia|].
  destruct s as [|c s]; simpl; [lia|]. specialize (IH s). lia.
Qed.

Lemma VALID_ID_RE_length s : VALID_ID_RE s = true -> (String.length s <= 64)%nat.
Proof.
  destruct s as [|c rest]; [discriminate|]. simpl. intros H.
  apply andb_prop in H as [_ H]. apply Nat.leb_le in H. lia.
Qed.

Lemma startsWith_inv p s : startsWith p s = true -> exists t, s = p +:+ t.
Proof.
  revert s. induction p as [|c p IH]; intros s; simpl.
  - intros _. now exists s.
  - destruct s as [|d s]; [discriminate|]. intros H.
    apply andb_prop in H as [Hc Hp]. apply Ascii.eqb_eq in Hc. subst d.
    destruct (IH s Hp) as [t ->]. now exists t.
Qed.

Lemma app_nonempty_r a b : b <> EmptyString -> a +:+ b <> EmptyString.
Proof.
  intros Hb H. destruct a as [|c a]; [now apply Hb|discriminate].
Qed.

Lemma dropStartWhile_lower s :
  dropStartWhile isWhiteSpace (toLowerCase s)
  = toLowerCase (dropStartWhile isWhiteSpace s).
Proof.
  induction s as [|c s IH]; simpl; [reflexivity|].
  rewrite isWhiteSpace_lowerChar. now destruct (isWhiteSpace c).
Qed.

(** A key of the form [agent:{id}:{tail}] with a trimmed, non-empty tail
    is its own trimmed form. *)
Lemma trim_agent_key id tail :
  dropEndWhile isWhiteSpace tail = tail -> tail <> EmptyString ->
  trim ("agent:" +:+ id +:+ ":" +:+ tail) = "agent:" +:+ id +:+ ":" +:+ tail.
Proof.
  intros Htail Hne. unfold trim.
  change (dropStartWhile isWhiteSpace ("agent:" +:+ id +:+ ":" +:+ tail))
    with ("agent:" +:+ id +:+ ":" +:+ tail).
  apply dropEndWhile_app; [|now apply app_nonempty_r, app_nonempty_r].
  apply dropEndWhile_app; [|now apply app_nonempty_r].
  now apply dropEndWhile_app.
Qed.

Lemma lower_agent_key id tail :
  allChars isIdChar id = true -> toLowerCase tail = tail ->
  toLowerCase ("agent:" +:+ id +:+ ":" +:+ tail) = "agent:" +:+ id +:+ ":" +:+ tail.
Proof.
  intros Hid Htail. rewrite !toLowerCase_app, Htail, (toLowerCase_idChars id Hid).
  reflexivity.
Qed.

(** What [toAgentStoreSessionKey] returns, in the three respects a
    second pass looks at. *)
Lemma store_key_normal agentId requestKey mainKey :
  let key := toAgentStoreSessionKey agentId requestKey mainKey in
  startsWith "agent:" key = true /\ toLowerCase key = key /\ trim key = key.
Proof.
  unfold toAgentStoreSessionKey.
  set (raw := trim (default "" requestKey)).
  destruct (negb (truthy raw) || String.eqb raw DEFAULT_MAIN_KEY) eqn:Hmain.
  - unfold buildAgentMainSessionKey. cbv zeta. split; [apply startsWith_app|]. split.
    + apply lower_agent_key;
        [apply normalizeAgentId_idChars|apply normalizeMainKey_lower].
    + apply trim_agent_key;
        [apply normalizeMainKey_trimmed|apply normalizeMainKey_nonempty].
  - apply orb_false_iff in Hmain as [Htruthy _].
    apply negb_false_iff in Htruthy.
    assert (dropEndWhile isWhiteSpace (toLowerCase raw) = toLowerCase raw) as Hend
      by (unfold raw; now rewrite dropEndWhile_lower, trim_trimmed).
    assert (toLowerCase raw <> EmptyString) as Hne.
    { intros H. unfold truthy in Htruthy. rewrite <- isEmpty_toLowerCase in Htruthy.
      now rewrite H in Htruthy. }
    cbv zeta. destruct (startsWith "agent:" (toLowerCase raw)) eqn:Hagent.
    + split; [exact Hagent|]. split; [apply toLowerCase_idem|].
      apply startsWith_inv in Hagent as [t Ht]. unfold trim. rewrite Ht in *.
      exact Hend.
    + assert (startsWith "agent:"
                ("agent:" +:+ normalizeAgentId (Some agentId) +:+ ":" +:+ toLowerCase raw)
              = true
              /\ toLowerCase
                   ("agent:" +:+ normalizeAgentId (Some agentId) +:+ ":"
                    +:+ toLowerCase raw)
                 = "agent:" +:+ normalizeAgentId (Some agentId) +:+ ":"
                   +:+ toLowerCase raw
              /\ trim ("agent:" +:+ normalizeAgentId (Some agentId) +:+ ":"
                       +:+ toLowerCase raw)
                 = "agent:" +:+ normalizeAgentId (Some agentId) +:+ ":"
                   +:+ toLowerCase raw) as H.
      { split; [apply startsWith_app|]. split.
        - apply lower_agent_key; [apply normalizeAgentId_idChars|apply toLowerCase_idem].
        - now apply trim_agent_key. }
      destruct (startsWith "subagent:" (toLowerCase raw)); exact H.
Qed.

(** X14: Whatever it is given, [normalizeAgentId] returns a non-empty id of at
    most 64 characters, all of them in [[a-z0-9_-]]; so does
    [normalizeAccountId]. *)
Theorem normalized_ids_are_safe (value : option string) :
  (normalizeAgentId value <> EmptyString
   /\ (String.length (normalizeAgentId value) <= 64)%nat
   /\ allChars isIdChar (normalizeAgentId value) = true)
  /\ (normalizeAccountId value <> EmptyString
      /\ (String.length (normalizeAccountId value) <= 64)%nat
      /\ allChars isIdChar (normalizeAccountId value) = true).
Proof.
  split.
  - split; [|split].
    + pose proof (normalizeAgentId_nonempty value) as H. intros E.
      now rewrite E in H.
    + unfold normalizeAgentId.
      destruct (truthy (trim (default "" value))); [|simpl; lia]. cbn [negb].
      destruct (VALID_ID_RE (trim (default "" value))) eqn:Hre.
      * rewrite length_toLowerCase. now apply VALID_ID_RE_length.
      * match goal with |- context [truthy ?r] => destruct (truthy r) end;
          [apply length_sliceTo|simpl; lia].
    + apply normalizeAgentId_idChars.
  - unfold normalizeAccountId.
    destruct (truthy (trim (default "" value))) eqn:Ht;
      [|repeat split; [discriminate|simpl; lia]].
    cbn [negb].
    destruct (VALID_ID_RE (trim (default "" value))) eqn:Hre.
    + split; [|split].
      * intros E. unfold truthy in Ht. rewrite <- isEmpty_toLowerCase in Ht.
        now rewrite E in Ht.
      * rewrite length_toLowerCase. now apply VALID_ID_RE_length.
      * apply idChars_of_lower. unfold VALID_ID_RE in Hre.
        destruct (trim (default "" value)) as [|c rest]; [discriminate|].
        apply andb_prop in Hre as [Hre _]. apply andb_prop in Hre as [Hc Hrest].
        simpl. now rewrite (alnumI_idCharI _ Hc), Hrest.
    + match goal with |- context [truthy ?r] => destruct (truthy r) eqn:Hr end.
      * split; [|split].
        -- intros E. now rewrite E in Hr.
        -- apply length_sliceTo.
        -- apply allChars_sliceTo, allChars_dropEndWhile, allChars_dropStartWhile,
             allChars_replaceInvalid.
      * repeat split; [discriminate|simpl; lia].
Qed.

(** X15: Store keys are stable: the key [toAgentStoreSessionKey] returns
    starts with [agent:], is lower-case and trimmed, and passing it back
    in as the request key, for any agent id and main key, returns it
    unchanged. *)
Theorem store_key_is_fixed_point (agentId agentId' : string)
    (requestKey mainKey mainKey' : option string) :
  let key := toAgentStoreSessionKey agentId requestKey mainKey in
  startsWith "agent:" key = true
  /\ toLowerCase key = key
  /\ toAgentStoreSessionKey agentId' (Some key) mainKey' = key.
Proof.
  intros key.
  destruct (store_key_normal agentId requestKey mainKey) as (Hagent & Hlower & Htrim).
  fold key in Hagent, Hlower, Htrim.
  split; [exact Hagent|]. split; [exact Hlower|].
  unfold toAgentStoreSessionKey. cbn [default from_option id].
  rewrite Htrim, Hlower, Hagent.
  destruct (startsWith_inv _ _ Hagent) as [t Ht]. rewrite Ht.
  reflexivity.
Qed.

(** X16: Every key [buildAgentPeerSessionKey] builds has the form
    [agent:{id}:{rest}] with [id] the normalized agent id and [rest]
    non-empty, and since [id] holds no colon, cutting the key after
    [agent:] at the next colon gives back exactly [id] and [rest]. *)
Theorem peer_key_carries_agent_id (params : PeerKeyParams) :
  exists rest,
    buildAgentPeerSessionKey params
    = "agent:" +:+ normalizeAgentId (Some (pk_agentId params)) +:+ ":" +:+ rest
    /\ rest <> EmptyString
    /\ breakAt ":" (sliceFrom 6 (buildAgentPeerSessionKey params))
       = Some (normalizeAgentId (Some (pk_agentId params)), rest).
Proof.
  assert (forall rest,
             buildAgentPeerSessionKey params
             = "agent:" +:+ normalizeAgentId (Some (pk_agentId params)) +:+ ":" +:+ rest ->
             rest <> EmptyString ->
             exists rest',
               buildAgentPeerSessionKey params
               = "agent:" +:+ normalizeAgentId (Some (pk_agentId params)) +:+ ":"
                 +:+ rest'
               /\ rest' <> EmptyString
               /\ breakAt ":" (sliceFrom 6 (buildAgentPeerSessionKey params))
                  = Some (normalizeAgentId (Some (pk_agentId params)), rest')) as Hform.
  { intros rest Hkey Hne. exists rest. split; [exact Hkey|]. split; [exact Hne|].
    rewrite Hkey.
    change (sliceFrom 6 ("agent:" +:+ normalizeAgentId (Some (pk_agentId params))
                         +:+ ":" +:+ rest))
      with (normalizeAgentId (Some (pk_agentId params)) +:+ String ":" rest).
    apply breakAt_app, lacks_idChars, normalizeAgentId_idChars. }
  assert (forall tail, String ":" tail <> EmptyString) as Hcolon by discriminate.
  unfold buildAgentPeerSessionKey in *. cbv zeta in *.
  destruct (String.eqb (default "direct" (pk_peerKind params)) "direct");
    [destruct (default DmMain (pk_dmScope params))|];
    repeat match goal with
           | |- context [if truthy ?x then _ else _] => destruct (truthy x)
           end;
    unfold buildAgentMainSessionKey in *;
    rewrite ?append_assoc in *;
    (eapply Hform; [reflexivity|]);
    first [ apply normalizeMainKey_nonempty
          | discriminate
          | apply app_nonempty_r; discriminate
          | apply app_nonempty_r, app_nonempty_r; discriminate ].
Qed.

Lemma findCanonical_sound candidates entries c :
  findCanonical candidates entries = Some c ->
  truthy c = true
  /\ exists canonical ids id,
       In (canonical, ids) entries /\ c = trim canonical /\ In id ids
       /\ In (normalizeToken (Some id)) candidates.
Proof.
  induction entries as [|[canonical ids] entries IH]; simpl; [discriminate|].
  destruct (truthy (trim canonical)) eqn:Ht; cbn [negb].
  - destruct (matchesCandidate candidates ids) eqn:Hm.
    + intros H. injection H as <-. split; [exact Ht|].
      exists canonical, ids.
      assert (exists id, In id ids /\ In (normalizeToken (Some id)) candidates)
        as (id & Hin & Hc).
      { clear -Hm. induction ids as [|id ids IH]; simpl in Hm; [discriminate|].
        destruct (truthy (normalizeToken (Some id))
                  && arrayIncludes (normalizeToken (Some id)) candidates) eqn:E.
        - apply andb_prop in E as [_ E]. unfold arrayIncludes in E.
          apply existsb_exists in E as (x & Hx & Heq).
          apply String.eqb_eq in Heq. subst x.
          exists id. split; [now left|exact Hx].
        - destruct (IH Hm) as (id' & Hin & Hc). exists id'. split; [now right|exact Hc]. }
      exists id. repeat split; [now left|exact Hin|exact Hc].
    + intros H. destruct (IH H) as (Hc & canonical' & ids' & id & Hin & rest).
      split; [exact Hc|]. exists canonical', ids', id. split; [now right|exact rest].
  - intros H. destruct (IH H) as (Hc & canonical' & ids' & id & Hin & rest).
    split; [exact Hc|]. exists canonical', ids', id. split; [now right|exact rest].
Qed.

(** X17: [resolveLinkedPeerId] reports a link only when it is there: the name
    returned is the trimmed, non-empty name of an identity of the links
    one of whose ids equals, after trimming and lower-casing, the peer id
    or the peer id prefixed with the channel; a blank peer id is never
    linked. *)
Theorem linked_peer_is_listed (identityLinks : option (list (string * list string)))
    (channel peerId c : string) :
  resolveLinkedPeerId identityLinks channel peerId = Some c ->
  truthy c = true
  /\ truthy (trim peerId) = true
  /\ exists entries canonical ids id,
       identityLinks = Some entries
       /\ In (canonical, ids) entries
       /\ c = trim canonical
       /\ In id ids
       /\ (normalizeToken (Some id) = normalizeToken (Some (trim peerId))
           \/ normalizeToken (Some id)
              = normalizeToken
                  (Some (normalizeToken (Some channel) +:+ ":" +:+ trim peerId))).
Proof.
  unfold resolveLinkedPeerId.
  destruct identityLinks as [entries|]; [|discriminate].
  destruct (truthy (trim peerId)) eqn:Hpeer; cbn [negb]; [|discriminate].
  cbv zeta.
  set (candidates :=
         ((if truthy (normalizeToken (Some (trim peerId)))
           then [normalizeToken (Some (trim peerId))] else [])
          ++ (if truthy (normalizeToken (Some channel))
              then
                if truthy (normalizeToken
                             (Some (normalizeToken (Some channel) +:+ ":" +:+ trim peerId)))
                then [normalizeToken
                        (Some (normalizeToken (Some channel) +:+ ":" +:+ trim peerId))]
                else []
              else []))%list).
  intros H.
  assert (findCanonical candidates entries = Some c) as Hfound
    by (destruct candidates; [discriminate|exact H]).
  destruct (findCanonical_sound _ _ _ Hfound)
    as (Hc & canonical & ids & id & Hin & Heq & Hid & Hcand).
  split; [exact Hc|]. split; [reflexivity|].
  exists entries, canonical, ids, id. repeat (split; [assumption || reflexivity|]).
  unfold candidates in Hcand. apply in_app_or in Hcand as [Hcand|Hcand].
  - destruct (truthy (normalizeToken (Some (trim peerId)))); [|destruct Hcand].
    destruct Hcand as [Hcand|[]]. now left.
  - destruct (truthy (normalizeToken (Some channel))); [|destruct Hcand].
    destruct (truthy (normalizeToken (Some (_ +:+ ":" +:+ trim peerId))));
      [|destruct Hcand].
    destruct Hcand as [Hcand|[]]. now right.
Qed.

Lemma linked_peer_is_listed_witness :
  exists entries canonical ids id,
    Some [(" alice ", ["telegram:42"; "Discord:Alice#1"])] = Some entries
    /\ In (canonical, ids) entries
    /\ "alice" = trim canonical
    /\ In id ids
    /\ (normalizeToken (Some id) = normalizeToken (Some (trim " 42 "))
        \/ normalizeToken (Some id)
           = normalizeToken
               (Some (normalizeToken (Some "Telegram") +:+ ":" +:+ trim " 42 "))).
Proof.
  assert (resolveLinkedPeerId
            (Some [(" alice ", ["telegram:42"; "Discord:Alice#1"])])
            "Telegram" " 42 " = Some "alice") as H by (vm_compute; reflexivity).
  exact (proj2 (proj2 (linked_peer_is_listed _ _ _ _ H))).
Defined.

End SessionKeyProps.

(* ===================================================================== *)
(** * Paths below an absolute base *)
(* ===================================================================== *)

Module PathProps.
Import Js Path JsFacts PathFacts.

(** The segments of an absolute path, normalized. *)
Definition baseSegments (base : string) : list string :=
  normalizeSegments false [] (split "/" base).

Definition normalSegments (l : list string) : Prop :=
  List.Forall (fun s => isNormalSegment s = true) l.

Lemma normalSegment_nonempty s : isNormalSegment s = true -> s <> EmptyString.
Proof. intros H ->. discriminate H. Qed.

Lemma join_segments_nonempty l :
  l <> [] -> normalSegments l -> Js.join "/" l <> EmptyString.
Proof.
  intros Hne Hl. destruct l as [|x t]; [congruence|].
  inversion Hl as [|? ? Hx Ht]; subst.
  pose proof (normalSegment_nonempty _ Hx) as Hxne.
  destruct t as [|y t]; cbn [Js.join]; [exact Hxne|].
  destruct x; [now elim Hxne|discriminate].
Qed.

Lemma endsWith_join_segments a l :
  l <> [] -> normalSegments l ->
  endsWith "/" (a +:+ "/" +:+ Js.join "/" l) = false.
Proof.
  revert a. induction l as [|x t IH]; intros a Hne Hl; [congruence|].
  inversion Hl as [|? ? Hx Ht]; subst.
  destruct t as [|y t].
  - cbn [Js.join]. rewrite <- append_assoc.
    apply endsWith_app_lacking;
      [now apply normalSegment_lacks|now apply normalSegment_nonempty].
  - change (Js.join "/" (x :: y :: t)) with (x +:+ "/" +:+ Js.join "/" (y :: t)).
    replace (a +:+ "/" +:+ x +:+ "/" +:+ Js.join "/" (y :: t))
      with ((a +:+ "/" +:+ x) +:+ "/" +:+ Js.join "/" (y :: t))
      by now rewrite !append_assoc.
    apply IH; [discriminate|exact Ht].
Qed.

Lemma normalSegments_lack l :
  normalSegments l -> List.Forall (fun p => lacks "/" p = true) l.
Proof.
  intros H. eapply List.Forall_impl; [|exact H].
  intros s. apply normalSegment_lacks.
Qed.

Lemma filter_truthy_segments l : normalSegments l -> List.filter truthy l = l.
Proof.
  intros H. apply TerminalProps.filter_all. intros x Hx.
  apply truthy_nonempty, normalSegment_nonempty.
  now apply (proj1 (List.Forall_forall _ _) H).
Qed.

Lemma baseSegments_normal base : normalSegments (baseSegments base).
Proof. apply normalizeString_rooted. Qed.

(** [path.join(base, ...segments)] for an absolute base and segments that
    name entries: the base's normalized segments followed by the given
    ones, under the root. *)
Lemma join_absolute base l :
  isAbsolute base = true -> normalSegments l -> l <> [] ->
  Path.join (base :: l) = "/" +:+ Js.join "/" (baseSegments base ++ l).
Proof.
  intros Habs Hl Hne.
  destruct (isAbsolute_cons _ Habs) as [rest ->].
  unfold Path.join. cbn [List.filter truthy isEmpty negb].
  rewrite (filter_truthy_segments l Hl).
  assert (Js.join "/" (String "/" rest :: l)
          = String "/" rest +:+ "/" +:+ Js.join "/" l) as Hjoined
    by (destruct l; [congruence|reflexivity]).
  rewrite Hjoined. unfold normalize.
  change (isEmpty (String "/" rest +:+ "/" +:+ Js.join "/" l)) with false.
  change (isAbsolute (String "/" rest +:+ "/" +:+ Js.join "/" l)) with true.
  rewrite (endsWith_join_segments _ l Hne Hl). cbn [negb]. unfold normalizeString.
  change (String "/" rest +:+ "/" +:+ Js.join "/" l)
    with (String "/" rest +:+ String "/" (Js.join "/" l)).
  rewrite split_app, (split_join "/" l (normalSegments_lack l Hl) Hne).
  rewrite normalizeSegments_app, (normalizeSegments_normal _ _ l Hl), rev_involutive.
  fold (baseSegments (String "/" rest)).
  assert (isEmpty (Js.join "/" (baseSegments (String "/" rest) ++ l)) = false) as ->.
  { assert (Js.join "/" (baseSegments (String "/" rest) ++ l) <> EmptyString) as H.
    { apply join_segments_nonempty; [destruct (baseSegments _); [exact Hne|discriminate]|].
      apply List.Forall_app. split; [apply baseSegments_normal|exact Hl]. }
    destruct (Js.join "/" (baseSegments (String "/" rest) ++ l)) eqn:E;
      [now elim H|reflexivity]. }
  reflexivity.
Qed.

(** A path already in that form has its segments as normalized segments. *)
Lemma baseSegments_rooted l :
  normalSegments l -> baseSegments ("/" +:+ Js.join "/" l) = l.
Proof.
  intros Hl. unfold baseSegments.
  change ("/" +:+ Js.join "/" l) with (EmptyString +:+ String "/" (Js.join "/" l)).
  rewrite split_app. change (split "/" EmptyString) with [EmptyString].
  cbn [app normalizeSegments String.eqb orb].
  destruct l as [|x t].
  - reflexivity.
  - rewrite (split_join "/" (x :: t) (normalSegments_lack _ Hl)) by discriminate.
    now rewrite (normalizeSegments_normal _ _ _ Hl).
Qed.

(** Containment of rooted paths is the prefix order on their segments. *)
Lemma under_segments l1 l2 :
  normalSegments l1 -> normalSegments l2 -> l1 <> [] ->
  Tenants.under ("/" +:+ Js.join "/" l1) ("/" +:+ Js.join "/" l2) = true ->
  exists more, l2 = (l1 ++ more)%list.
Proof.
  intros H1 H2 Hne Hunder. unfold Tenants.under in Hunder.
  pose proof (join_segments_nonempty l1 Hne H1) as Hj.
  assert (Js.join "/" l2 = Js.join "/" l1
          \/ exists t, Js.join "/" l2 = Js.join "/" l1 +:+ String "/" t) as Hcases.
  { apply orb_prop in Hunder as [H|H].
    - apply String.eqb_eq in H. injection H as H. now left.
    - apply SessionKeyProps.startsWith_inv in H as [t Ht].
      rewrite !append_assoc in Ht. injection Ht as Ht. right. now exists t. }
  assert (l2 <> []) as Hne2.
  { intros ->. destruct Hcases as [H|[t H]]; cbn [Js.join] in H.
    - now elim Hj.
    - destruct (Js.join "/" l1); [now elim Hj|discriminate]. }
  rewrite <- (split_join "/" l2 (normalSegments_lack _ H2) Hne2).
  destruct Hcases as [H|[t H]]; rewrite H.
  - exists []. rewrite app_nil_r.
    now rewrite (split_join "/" l1 (normalSegments_lack _ H1) Hne).
  - exists (split "/" t). rewrite split_app.
    now rewrite (split_join "/" l1 (normalSegments_lack _ H1) Hne).
Qed.

End PathProps.

(* ===================================================================== *)
(** * Archive extraction: where accepted links point *)
(* ===================================================================== *)

Module ExtractionFacts.
Import Js Path Backup JsFacts PathFacts PathProps BackupFacts.

Lemma dropEndWhile_all p s : allChars p s = true -> dropEndWhile p s = EmptyString.
Proof.
  induction s as [|c s IH]; [reflexivity|]. cbn [allChars dropEndWhile].
  intros H. apply andb_prop in H as [Hc Hs]. now rewrite (IH Hs), Hc.
Qed.

Lemma dropEndWhile_cut p a c b :
  p c = false -> allChars p b = true ->
  dropEndWhile p (a +:+ String c b) = a +:+ String c EmptyString.
Proof.
  intros Hc Hb. induction a as [|x a IH].
  - change (dropEndWhile p (String c b) = String c EmptyString).
    cbn [dropEndWhile]. now rewrite (dropEndWhile_all _ _ Hb), Hc.
  - change (String x a +:+ String c b) with (String x (a +:+ String c b)).
    cbn [dropEndWhile]. rewrite IH.
    assert (isEmpty (a +:+ String c EmptyString) = false) as -> by now destruct a.
    now rewrite andb_false_r.
Qed.

Lemma sliceTo_app a b : sliceTo (String.length a) (a +:+ b) = a.
Proof.
  induction a as [|x a IH]; [now destruct b|].
  change (String x a +:+ b) with (String x (a +:+ b)).
  cbn [String.length sliceTo]. now rewrite IH.
Qed.

Lemma length_snoc a c : String.length (a +:+ String c EmptyString) = S (String.length a).
Proof.
  induction a as [|x a IH]; [reflexivity|].
  change (String x a +:+ String c EmptyString) with (String x (a +:+ String c EmptyString)).
  cbn [String.length]. now rewrite IH.
Qed.

(** [path.dirname] of a rooted path of at least two segments drops the
    last one. *)
Lemma dirname_rooted segments last :
  normalSegments segments -> segments <> [] -> isNormalSegment last = true ->
  dirname ("/" +:+ Js.join "/" (segments ++ [last])) = "/" +:+ Js.join "/" segments.
Proof.
  intros Hs Hne Hlast.
  pose proof (join_segments_nonempty segments Hne Hs) as Hj.
  pose proof (normalSegment_lacks _ Hlast) as Hlack.
  pose proof (normalSegment_nonempty _ Hlast) as Hlne.
  rewrite join_app by (assumption || discriminate). cbn [Js.join].
  set (j := Js.join "/" segments) in *.
  change ("/" +:+ j +:+ "/" +:+ last) with (String "/" (j +:+ String "/" last)).
  assert (dropEndWhile isSlash (j +:+ String "/" last) = j +:+ String "/" last)
    as Hnotrail.
  { change (j +:+ String "/" last) with (j +:+ "/" +:+ last).
    rewrite <- append_assoc.
    apply SessionKeyFacts.dropEndWhile_app; [|exact Hlne].
    apply (SessionKeyFacts.dropEndWhile_none _ (fun c => negb (isSlash c)));
      [|exact Hlack].
    intros c Hc. now apply negb_true_iff in Hc. }
  assert (dropEndWhile (fun c => negb (isSlash c)) (j +:+ String "/" last) = j +:+ "/")
    as Hup by now apply dropEndWhile_cut.
  unfold dirname. cbv zeta. rewrite Hnotrail, Hup.
  change (isSlash "/") with true. rewrite length_snoc.
  assert (isEmpty (j +:+ "/") = false) as -> by now destruct j.
  destruct j as [|c j']; [now elim Hj|].
  cbn [andb String.length Nat.eqb Nat.sub].
  change (S (String.length j')) with (String.length (String c j')).
  now rewrite sliceTo_app.
Qed.

(** [path.resolve(dir, "../../x")]: two segments up, then [x]. *)
Lemma resolve_up_two cwd segments s1 s2 x :
  normalSegments (segments ++ [s1; s2]) -> isNormalSegment x = true ->
  Path.resolve cwd ["/" +:+ Js.join "/" (segments ++ [s1; s2]); "../../" +:+ x]
  = "/" +:+ Js.join "/" (segments ++ [x]).
Proof.
  intros Hall Hx.
  assert ((segments ++ [s1; s2])%list <> []) as Hne
    by (destruct segments; discriminate).
  pose proof (proj1 (List.Forall_app _ _ _) Hall) as [Hsegs Hlast].
  assert (String.eqb s1 ".." = false /\ String.eqb s2 ".." = false) as [Hs1 Hs2].
  { inversion Hlast as [|? ? H1 Hrest]; subst.
    inversion Hrest as [|? ? H2 _]; subst.
    split; now apply normalSegment_not_dotdot. }
  pose proof (normalSegment_not_dotdot _ Hx) as Hxdots.
  assert (String.eqb x "" || String.eqb x "." = false) as Hxkept.
  { pose proof (normalSegment_kept _ Hx) as H. unfold kept in H.
    now apply negb_true_iff in H. }
  set (target := "/" +:+ Js.join "/" (segments ++ [s1; s2])).
  unfold Path.resolve. cbn [rev app resolveArgs].
  change (isEmpty ("../../" +:+ x)) with false.
  change (isAbsolute ("../../" +:+ x)) with false.
  change (isEmpty target) with false. change (isAbsolute target) with true.
  cbn [negb]. unfold normalizeString.
  change (target +:+ "/" +:+ ("../../" +:+ x) +:+ "/" +:+ "")
    with (target +:+ String "/" (".." +:+ String "/"
            (".." +:+ String "/" (x +:+ String "/" "")))).
  rewrite !split_app. unfold target. rewrite (split_rooted _ Hall Hne).
  rewrite (split_lacking _ _ (normalSegment_lacks _ Hx)).
  change (split "/" "..") with [".."]. change (split "/" "") with [""].
  rewrite normalizeSegments_app.
  change (normalizeSegments false [] ("" :: segments ++ [s1; s2]))
    with (normalizeSegments false [] (segments ++ [s1; s2])).
  rewrite (normalizeSegments_normal _ _ _ Hall). cbn [rev app].
  rewrite rev_app_distr. cbn [rev app normalizeSegments].
  change (String.eqb ".." "" || String.eqb ".." ".") with false.
  change (String.eqb ".." "..") with true. cbn iota.
  rewrite Hs2, Hs1, Hxkept, Hxdots.
  change (String.eqb "" "" || String.eqb "" ".") with true. cbn iota.
  cbn [rev]. now rewrite rev_involutive.
Qed.

(** [path.join(dir, "d1/d2/name")] is [path.join(dir, d1, d2, name)]. *)
Lemma join_entry target d1 d2 name :
  target <> EmptyString -> normalSegments [d1; d2; name] ->
  Path.join [target; Js.join "/" [d1; d2; name]] = Path.join [target; d1; d2; name].
Proof.
  intros Htarget Hnames. unfold Path.join.
  pose proof (filter_truthy_segments _ Hnames) as Hkeep.
  assert (truthy (Js.join "/" [d1; d2; name]) = true) as Hp.
  { apply truthy_nonempty, join_segments_nonempty; [discriminate|exact Hnames]. }
  apply truthy_nonempty in Htarget.
  cbn [List.filter] in *. rewrite Htarget, Hp.
  destruct (truthy d1), (truthy d2), (truthy name); try discriminate Hkeep.
  reflexivity.
Qed.

(** C7 fails in the code at a hard link.  The filter resolves the
    [linkpath] of every link against the directory of the entry, while
    [tar] resolves that of a hard link against the extraction root.  A
    hard link two directories below the target whose [linkpath] is
    [../../x] is therefore accepted and handed on, although the link
    that is written points at [x] two levels above the target
    directory, outside it. *)
Theorem hard_link_outside_target_accepted (cwd targetDir : string)
    (parent : list string) (a b d1 d2 name x : string) :
  Path.resolve cwd [targetDir] = "/" +:+ Js.join "/" (parent ++ [a; b]) ->
  normalSegments (parent ++ [a; b]) ->
  normalSegments [d1; d2; name; x] ->
  let target := Path.resolve cwd [targetDir] in
  let e := {| path := Js.join "/" [d1; d2; name]; type := Link;
              linkpath := Some ("../../" +:+ x) |} in
  securityFilter cwd target (path e) e = true
  /\ In e (extractTarGz cwd [e] targetDir)
  /\ linkDestination cwd target e = "/" +:+ Js.join "/" (parent ++ [x])
  /\ inside target (linkDestination cwd target e) = false.
Proof.
  intros Htarget Hsegs Hnames target e.
  inversion Hnames as [|? ? Hd1 Hn1]; subst.
  inversion Hn1 as [|? ? Hd2 Hn2]; subst.
  inversion Hn2 as [|? ? Hname Hn3]; subst.
  inversion Hn3 as [|? ? Hx _]; subst.
  assert (normalSegments [d1; d2; name]) as Hentry by now repeat constructor.
  assert ((parent ++ [a; b])%list <> []) as Hne by (destruct parent; discriminate).
  assert (securityFilter cwd target (path e) e = true) as Hfilter.
  { rewrite securityFilter_spec. unfold target. rewrite Htarget.
    assert (resolvedLink cwd ("/" +:+ Js.join "/" (parent ++ [a; b])) e
            = "/" +:+ Js.join "/" ((parent ++ [a; b]) ++ [x])) as ->.
    { unfold resolvedLink, e. cbn [path linkpath default from_option id].
      rewrite join_entry by (discriminate || exact Hentry).
      rewrite join_absolute by (reflexivity || discriminate || exact Hentry).
      rewrite (baseSegments_rooted _ Hsegs).
      change ((parent ++ [a; b]) ++ [d1; d2; name])%list
        with ((parent ++ [a; b]) ++ ([d1; d2] ++ [name]))%list.
      rewrite (app_assoc (parent ++ [a; b])%list).
      rewrite dirname_rooted;
        [|apply List.Forall_app; split; [exact Hsegs|now repeat constructor]
         |destruct (parent ++ [a; b])%list; discriminate
         |exact Hname].
      apply resolve_up_two; [|exact Hx].
      apply List.Forall_app. split; [exact Hsegs|now repeat constructor]. }
    assert (resolvedEntry cwd ("/" +:+ Js.join "/" (parent ++ [a; b])) e
            = "/" +:+ Js.join "/" ((parent ++ [a; b]) ++ [d1; d2; name])) as ->.
    { unfold resolvedEntry, e. cbn [path].
      assert (split "/" (Js.join "/" [d1; d2; name]) = [d1; d2; name]) as Hsplit
        by (apply split_join; [now apply normalSegments_lack|discriminate]).
      rewrite (resolve_below _ _ _ Hsegs Hne).
      - now rewrite Hsplit, (filter_kept_normal _ Hentry).
      - cbn [Js.join]. pose proof (normalSegment_lacks _ Hd1) as Hlack.
        destruct d1 as [|c d1']; [discriminate Hd1|].
        cbn [lacks allChars] in Hlack. apply andb_prop in Hlack as [Hc _].
        change (isAbsolute (String c (d1' +:+ "/" +:+ d2 +:+ "/" +:+ name)) = false).
        unfold isAbsolute. cbn [startsWith]. apply negb_true_iff in Hc.
        now rewrite Ascii.eqb_sym, Hc.
      - rewrite Hsplit. cbn [forallb].
        now rewrite !normalSegment_not_dotdot by assumption. }
    now rewrite !inside_below by exact Hne. }
  assert (linkDestination cwd target e = "/" +:+ Js.join "/" (parent ++ [x])) as Hdest.
  { unfold linkDestination, e, target. cbn [type linkpath default from_option id].
    rewrite Htarget. now apply resolve_up_two. }
  split; [exact Hfilter|]. split; [|split; [exact Hdest|]].
  - unfold extractTarGz. cbn [List.filter]. fold target.
    rewrite Hfilter. now left.
  - rewrite Hdest. unfold target. rewrite Htarget.
    destruct (inside _ _) eqn:Hinside; [exfalso|reflexivity].
    assert (normalSegments (parent ++ [x])) as Hout.
    { apply List.Forall_app. split; [|now repeat constructor].
      exact (proj1 (proj1 (List.Forall_app _ _ _) Hsegs)). }
    destruct (under_segments _ _ Hsegs Hout Hne) as [more Hmore].
    { unfold inside, Path.sep in Hinside. unfold Tenants.under.
      now rewrite orb_comm. }
    rewrite <- app_assoc in Hmore. apply app_inv_head in Hmore. discriminate Hmore.
Qed.

(** The escape of a tenant restore: a hard link in the archive of tenant
    [demo] that the filter accepts and that [tar] makes a link to the
    tenant registry. *)
Lemma hard_link_outside_target_accepted_witness :
  let target := "/home/oc/.openclaw/tenants/demo" in
  let e := {| path := "workspace/deep/hl"; type := Link;
              linkpath := Some "../../tenants.json" |} in
  In e (extractTarGz "/srv" [e] target)
  /\ linkDestination "/srv" target e
     = Tenants.resolveTenantRegistryPath TenantFacts.someEnv
  /\ inside target (linkDestination "/srv" target e) = false.
Proof.
  pose proof (hard_link_outside_target_accepted "/srv" "/home/oc/.openclaw/tenants/demo"
                ["home"; "oc"; ".openclaw"] "tenants" "demo"
                "workspace" "deep" "hl" "tenants.json") as H.
  match type of H with
  | ?A -> _ => assert A as H1 by (vm_compute; reflexivity); specialize (H H1); clear H1
  end.
  match type of H with
  | ?A -> _ => assert A as H1 by (now repeat constructor); specialize (H H1); clear H1
  end.
  match type of H with
  | ?A -> _ => assert A as H1 by (now repeat constructor); specialize (H H1); clear H1
  end.
  cbv zeta in H. destruct H as (_ & Hin & Hdest & Hout).
  assert (Path.resolve "/srv" ["/home/oc/.openclaw/tenants/demo"]
          = "/home/oc/.openclaw/tenants/demo") as Htarget by (vm_compute; reflexivity).
  rewrite Htarget in Hdest, Hout.
  cbv zeta. split; [exact Hin|]. split; [|exact Hout].
  etransitivity; [exact Hdest|]. vm_compute. reflexivity.
Defined.

End ExtractionFacts.

(* ===================================================================== *)
(** * Tenants: tokens and directories *)
(* ===================================================================== *)

Module TenantPathProps.
Import Js Tenants JsFacts PathFacts PathProps TenantFacts.

(** The segments of a tenant's state directory. *)
Definition tenantSegments (env : Env) (tenantId : string) : list string :=
  (baseSegments (resolveStateDir env) ++ ["tenants"; tenantId])%list.

Lemma under_extension l more :
  l <> [] ->
  Tenants.under ("/" +:+ Js.join "/" l) ("/" +:+ Js.join "/" (l ++ more)) = true.
Proof.
  intros Hne. unfold Tenants.under. destruct more as [|m more].
  - rewrite app_nil_r, String.eqb_refl. reflexivity.
  - apply orb_true_iff. right.
    rewrite join_app by (assumption || discriminate).
    rewrite <- !append_assoc. apply startsWith_app.
Qed.

Lemma tenantSegments_normal env tenantId :
  isValidTenantId tenantId = true -> normalSegments (tenantSegments env tenantId).
Proof.
  intros Hvalid. apply List.Forall_app. split; [apply baseSegments_normal|].
  repeat constructor. now apply validTenantId_normalSegment.
Qed.

Lemma stateDir_form env tenantId :
  Path.isAbsolute (resolveStateDir env) = true ->
  isValidTenantId tenantId = true ->
  resolveTenantStateDir (Some tenantId) env
  = "/" +:+ Js.join "/" (tenantSegments env tenantId).
Proof.
  intros Habs Hvalid. unfold resolveTenantStateDir. cbn [Protocol.truthyOpt].
  assert (truthy tenantId = true) as ->
    by (apply truthy_nonempty; intros ->; discriminate Hvalid).
  cbn [negb default from_option id].
  apply join_absolute; [exact Habs| |discriminate].
  repeat constructor. now apply validTenantId_normalSegment.
Qed.

Lemma below_stateDir env tenantId l :
  Path.isAbsolute (resolveStateDir env) = true ->
  isValidTenantId tenantId = true ->
  normalSegments l -> l <> [] ->
  Path.join (resolveTenantStateDir (Some tenantId) env :: l)
  = "/" +:+ Js.join "/" (tenantSegments env tenantId ++ l).
Proof.
  intros Habs Hvalid Hl Hne. rewrite (stateDir_form _ _ Habs Hvalid).
  rewrite join_absolute by (reflexivity || assumption).
  now rewrite baseSegments_rooted by now apply tenantSegments_normal.
Qed.

Lemma registryPath_form env :
  Path.isAbsolute (resolveStateDir env) = true ->
  resolveTenantRegistryPath env
  = "/" +:+ Js.join "/" (baseSegments (resolveStateDir env) ++ ["tenants.json"]).
Proof.
  intros Habs. unfold resolveTenantRegistryPath.
  apply join_absolute; [exact Habs|repeat constructor|discriminate].
Qed.

Lemma agentId_normalSegment value :
  Path.isNormalSegment (SessionKey.normalizeAgentId value) = true.
Proof.
  pose proof (SessionKeyFacts.normalizeAgentId_idChars value) as Hchars.
  pose proof (SessionKeyFacts.normalizeAgentId_nonempty value) as Hne.
  unfold Path.isNormalSegment.
  assert (lacks "/" (SessionKey.normalizeAgentId value) = true) as ->.
  { eapply SessionKeyFacts.allChars_impl; [|exact Hchars].
    intros c. SessionKeyFacts.ascii_cases c; intros H; try reflexivity; discriminate H. }
  destruct (SessionKey.normalizeAgentId value) as [|c rest]; [discriminate Hne|].
  cbn [allChars] in Hchars. apply andb_prop in Hchars as [Hc _].
  assert (Ascii.eqb c "." = false) as Hdot.
  { revert Hc. SessionKeyFacts.ascii_cases c; intros H; try reflexivity; discriminate H. }
  cbn [String.eqb]. now rewrite Hdot.
Qed.

(** The paths the resolvers give a tenant, for a normalized agent id. *)
Definition tenantPaths (env : Env) (tenantId : string) (agentId : option string)
    : list string :=
  [ resolveTenantStateDir (Some tenantId) env;
    resolveTenantWorkspace tenantId env;
    resolveTenantSessionsDir tenantId (SessionKey.normalizeAgentId agentId) env;
    resolveTenantMemoryDir tenantId env;
    resolveTenantPluginsDir tenantId env;
    resolveTenantSandboxDir tenantId env;
    resolveTenantCredentialsDir tenantId env;
    resolveTenantUsageDir tenantId env;
    resolveTenantUsageCurrentPath tenantId env;
    resolveTenantRateLimitPath tenantId env ].

Lemma tenantPaths_form env tenantId agentId :
  Path.isAbsolute (resolveStateDir env) = true ->
  isValidTenantId tenantId = true ->
  List.Forall
    (fun p => exists more,
         normalSegments more
         /\ p = "/" +:+ Js.join "/" (tenantSegments env tenantId ++ more))
    (tenantPaths env tenantId agentId).
Proof.
  intros Habs Hvalid.
  pose proof (agentId_normalSegment agentId) as Hagent.
  assert (forall l, normalSegments l -> l <> [] ->
            exists more,
              normalSegments more
              /\ Path.join (resolveTenantStateDir (Some tenantId) env :: l)
                 = "/" +:+ Js.join "/" (tenantSegments env tenantId ++ more)) as Hbelow.
  { intros l Hl Hne. exists l. split; [exact Hl|]. now apply below_stateDir. }
  assert (forall l name,
            normalSegments l -> l <> [] -> Path.isNormalSegment name = true ->
            exists more,
              normalSegments more
              /\ Path.join [Path.join (resolveTenantStateDir (Some tenantId) env :: l); name]
                 = "/" +:+ Js.join "/" (tenantSegments env tenantId ++ more)) as Hbelow2.
  { intros l name Hl Hne Hname. exists (l ++ [name])%list.
    split; [apply List.Forall_app; split; [exact Hl|now repeat constructor]|].
    rewrite (below_stateDir _ _ l Habs Hvalid Hl Hne).
    rewrite join_absolute by (reflexivity || discriminate || now repeat constructor).
    rewrite baseSegments_rooted
      by (apply List.Forall_app; split; [now apply tenantSegments_normal|exact Hl]).
    now rewrite <- app_assoc. }
  unfold tenantPaths. repeat constructor.
  - exists []. split; [constructor|]. rewrite app_nil_r. now apply stateDir_form.
  - apply Hbelow; [repeat constructor|discriminate].
  - apply Hbelow; [now repeat constructor|discriminate].
  - apply Hbelow; [repeat constructor|discriminate].
  - apply Hbelow; [repeat constructor|discriminate].
  - apply Hbelow; [repeat constructor|discriminate].
  - apply Hbelow; [repeat constructor|discriminate].
  - apply Hbelow; [repeat constructor|discriminate].
  - apply Hbelow2; [repeat constructor|discriminate|reflexivity].
  - apply Hbelow2; [repeat constructor|discriminate|reflexivity].
Qed.

Lemma registry_outside_tenant env a :
  Path.isAbsolute (resolveStateDir env) = true ->
  isValidTenantId a = true ->
  under (resolveTenantStateDir (Some a) env) (resolveTenantRegistryPath env) = false.
Proof.
  intros Habs Ha.
  assert (tenantSegments env a <> []) as HneA
    by (unfold tenantSegments; destruct (baseSegments _); discriminate).
  rewrite (stateDir_form _ _ Habs Ha), (registryPath_form _ Habs).
  apply not_true_is_false. intros Hunder.
  apply under_segments in Hunder as [rest Hrest];
    [|now apply tenantSegments_normal
     |apply List.Forall_app; split; [apply baseSegments_normal|repeat constructor]
     |exact HneA].
  unfold tenantSegments in Hrest. rewrite <- !app_assoc in Hrest.
  apply app_inv_head in Hrest. cbn [app] in Hrest. discriminate.
Qed.

(** X18: Tenants are kept apart on disk: under an absolute state directory
    and for valid tenant ids, every path the resolvers give tenant [b]
    (state, workspace, sessions of a normalized agent id, memory,
    plugins, sandboxes, credentials, usage files) lies inside [b]'s state
    directory and, for any other tenant [a], outside [a]'s; the registry
    file lies inside no tenant's directory. *)
Theorem tenant_directories_disjoint (env : Env) (a b : string)
    (agentId : option string) :
  Path.isAbsolute (resolveStateDir env) = true ->
  isValidTenantId a = true ->
  isValidTenantId b = true ->
  a <> b ->
  List.Forall
    (fun p =>
       under (resolveTenantStateDir (Some b) env) p = true
       /\ under (resolveTenantStateDir (Some a) env) p = false)
    (tenantPaths env b agentId)
  /\ under (resolveTenantStateDir (Some a) env) (resolveTenantRegistryPath env) = false.
Proof.
  intros Habs Ha Hb Hne.
  assert (tenantSegments env a <> []) as HneA
    by (unfold tenantSegments; destruct (baseSegments _); discriminate).
  assert (tenantSegments env b <> []) as HneB
    by (unfold tenantSegments; destruct (baseSegments _); discriminate).
  split.
  - eapply List.Forall_impl; [|exact (tenantPaths_form env b agentId Habs Hb)].
    intros p (more & Hmore & ->).
    rewrite (stateDir_form _ _ Habs Ha), (stateDir_form _ _ Habs Hb).
    split; [now apply under_extension|].
    apply not_true_is_false. intros Hunder.
    apply under_segments in Hunder as [rest Hrest];
      [|now apply tenantSegments_normal
       |apply List.Forall_app; split; [now apply tenantSegments_normal|exact Hmore]
       |exact HneA].
    unfold tenantSegments in Hrest. rewrite <- !app_assoc in Hrest.
    apply app_inv_head in Hrest. cbn [app] in Hrest. congruence.
  - now apply registry_outside_tenant.
Qed.

Lemma tenant_directories_disjoint_witness :
  under (resolveTenantStateDir (Some "acme") someEnv)
        (resolveTenantUsageCurrentPath "globex" someEnv) = false.
Proof.
  pose proof (tenant_directories_disjoint someEnv "acme" "globex" None) as H.
  repeat match type of H with
         | ?A -> _ => let Ha := fresh in
                      assert A as Ha by (vm_compute; first [reflexivity|discriminate]);
                      specialize (H Ha); clear Ha
         end.
  destruct H as [H _].
  pose proof (proj1 (List.Forall_forall _ _) H
                (resolveTenantUsageCurrentPath "globex" someEnv)) as Hin.
  apply Hin. unfold tenantPaths. do 8 right. now left.
Defined.

(** X19: Tenant tokens round-trip: whenever [parseTenantToken] accepts a
    token, building a token from the two parts it returns gives the token
    back, and the tenant id it returns is non-empty and holds no colon;
    conversely a token built from a non-empty colon-free tenant id and a
    non-empty secret (colons allowed) parses to exactly those two. *)
Theorem tenant_token_round_trip :
  (forall token tenantId secret,
      parseTenantToken token = Some (tenantId, secret) ->
      buildTenantToken tenantId secret = token
      /\ tenantId <> EmptyString /\ secret <> EmptyString
      /\ lacks ":" tenantId = true)
  /\ (forall tenantId secret,
         lacks ":" tenantId = true -> tenantId <> EmptyString ->
         secret <> EmptyString ->
         parseTenantToken (buildTenantToken tenantId secret) = Some (tenantId, secret)).
Proof.
  split; [|intros; now apply parse_build_token].
  intros token tenantId secret. unfold parseTenantToken.
  destruct (startsWith "tenant:" token) eqn:Hprefix; cbn [negb]; [|discriminate].
  apply SessionKeyProps.startsWith_inv in Hprefix as [t ->].
  pose proof (join_split ":" ("tenant:" +:+ t)) as Hjoin.
  pose proof (split_parts_lack ":" ("tenant:" +:+ t)) as Hlack.
  change ("tenant:" +:+ t) with ("tenant" +:+ String ":" t) in *.
  rewrite split_app in *. change (split ":" "tenant") with ["tenant"] in *.
  cbn [app] in *.
  destruct (split ":" t) as [|id [|r rest]]; try discriminate.
  destruct (negb (truthy id) || negb (truthy (Js.join ":" (r :: rest)))) eqn:E;
    [discriminate|].
  intros H. injection H as <- <-.
  apply orb_false_iff in E as [E1 E2].
  apply negb_false_iff in E1, E2. apply truthy_nonempty in E1, E2.
  split; [|split; [exact E1|split; [exact E2|]]].
  - unfold buildTenantToken. rewrite <- Hjoin. reflexivity.
  - inversion Hlack as [|? ? _ Hrest]; subst.
    now inversion Hrest.
Qed.

Lemma tenant_token_round_trip_witness :
  buildTenantToken "demo" "s3:cr:et" = "tenant:demo:s3:cr:et".
Proof.
  assert (parseTenantToken "tenant:demo:s3:cr:et" = Some ("demo", "s3:cr:et")) as H
    by (vm_compute; reflexivity).
  exact (proj1 (proj1 tenant_token_round_trip _ _ _ H)).
Defined.

End TenantPathProps.

(* ===================================================================== *)
(** * Tenant registry: effects of the operations *)
(* ===================================================================== *)

Module RegistryProps.
Import Js Tenants JsFacts TenantFacts.

(** The world after [saveTenantRegistry] wrote [tenants]. *)
Definition saved (env : Env) (tenants : gmap string TenantEntry) (w : World) : World :=
  writeFile (resolveTenantRegistryPath env) (RegistryDoc 1 tenants)
    (mkdir (Path.dirname (resolveTenantRegistryPath env)) w).

(** The write-through of an assignment to the fallback registry. *)
Definition through (registry : LoadedRegistry) (tenants : gmap string TenantEntry)
    (w : World) : World :=
  if lr_shared registry then setShared tenants w else w.

Definition touched (now : Date) (entry : TenantEntry) : TenantEntry :=
  {| e_tokenHash := e_tokenHash entry; e_createdAt := e_createdAt entry;
     e_lastSeenAt := Some (toISOString now); e_displayName := e_displayName entry;
     e_disabled := e_disabled entry; e_quotas := e_quotas entry |}.

Lemma saveTenantRegistry_run registry env w :
  saveTenantRegistry registry env w = (Returned tt, saved env (lr_tenants registry) w).
Proof. reflexivity. Qed.

Lemma assignTenant_run registry tenantId entry w :
  assignTenant registry tenantId entry w
  = (Returned {| lr_tenants := <[tenantId := entry]> (lr_tenants registry);
                 lr_shared := lr_shared registry |},
     through registry (<[tenantId := entry]> (lr_tenants registry)) w).
Proof.
  unfold assignTenant, through, bind, modify, ret. now destruct (lr_shared registry).
Qed.

Lemma deleteTenantKey_run registry tenantId w :
  deleteTenantKey registry tenantId w
  = (Returned {| lr_tenants := delete tenantId (lr_tenants registry);
                 lr_shared := lr_shared registry |},
     through registry (delete tenantId (lr_tenants registry)) w).
Proof.
  unfold deleteTenantKey, through, bind, modify, ret. now destruct (lr_shared registry).
Qed.

Lemma registered_saved env tenants w : registered env (saved env tenants w) = tenants.
Proof.
  unfold registered, registryOf, saved. cbn [files writeFile].
  now rewrite lookup_insert_eq.
Qed.

Lemma files_through registry tenants w : files (through registry tenants w) = files w.
Proof. unfold through. now destruct (lr_shared registry). Qed.

Lemma dirs_through registry tenants w : dirs (through registry tenants w) = dirs w.
Proof. unfold through. now destruct (lr_shared registry). Qed.

Lemma files_saved_other env tenants w p :
  p <> resolveTenantRegistryPath env -> files (saved env tenants w) !! p = files w !! p.
Proof.
  intros Hp. unfold saved. cbn [files writeFile mkdir]. now apply lookup_insert_ne.
Qed.

Lemma bind_returned {A B} (m : M A) (k : A -> M B) w a w1 :
  m w = (Returned a, w1) -> bind m k w = k a w1.
Proof. unfold bind. now intros ->. Qed.

Lemma getProperty_own tenants key entry :
  tenants !! key = Some entry -> getProperty tenants key = OwnProperty entry.
Proof. unfold getProperty. now intros ->. Qed.

Lemma validTenantId_parses tenantId secret :
  isValidTenantId tenantId = true -> secret <> EmptyString ->
  parseTenantToken (buildTenantToken tenantId secret) = Some (tenantId, secret).
Proof.
  intros Hvalid Hsecret. apply parse_build_token; [| |exact Hsecret].
  - apply SessionKeyFacts.lacks_idChars, SessionKeyFacts.validTenantId_idChars, Hvalid.
  - intros ->. discriminate Hvalid.
Qed.

Lemma empty_secret_rejected tenantId :
  lacks ":" tenantId = true ->
  parseTenantToken (buildTenantToken tenantId EmptyString) = None.
Proof.
  intros Hlack. unfold parseTenantToken, buildTenantToken.
  change (startsWith "tenant:" ("tenant:" +:+ tenantId +:+ ":" +:+ "")) with true.
  cbn [negb].
  change ("tenant:" +:+ tenantId +:+ ":" +:+ "")
    with ("tenant" +:+ String ":" (tenantId +:+ String ":" "")).
  rewrite !PathFacts.split_app, (PathFacts.split_lacking _ _ Hlack).
  change (split ":" "tenant") with ["tenant"]. change (split ":" "") with [""].
  cbn [app Js.join truthy isEmpty negb]. now rewrite orb_true_r.
Qed.

Section Registry.
Variable hashToken : string -> string.

(** The entry [createTenant] stores. *)
Definition freshEntry (displayName : option string) (randomBytes : list Byte.byte)
    (now : Date) : TenantEntry :=
  {| e_tokenHash := hashToken (generateToken randomBytes);
     e_createdAt := toISOString now;
     e_lastSeenAt := None; e_displayName := displayName;
     e_disabled := None; e_quotas := None |}.

(** X20: [createTenant] decides before it writes.  An id that does not
    match the pattern is refused with [Invalid tenant ID], and an id that
    is a property of the registry with [Tenant already exists]; both
    leave disk and memory untouched.  For a valid id that is no property
    of the registry, and a disk that takes the writes, it returns the
    token, the registry read back is the old one plus one entry for the
    id, holding the hash of the secret (never the secret or the token),
    the tenant's state directory exists, and creating the same id again
    is refused without any change. *)
Theorem create_registers_one_entry (tenantId : string) (displayName : option string)
    (env : Env) (randomBytes : list Byte.byte) (now : Date) (w : World) :
  let run := createTenant hashToken tenantId displayName env randomBytes now w in
  (isValidTenantId tenantId = false ->
   run = (Threw ("Invalid tenant ID: " +:+ dquote +:+ tenantId +:+ dquote +:+
                 ". Must match pattern: lowercase alphanumeric, hyphens, underscores, 1-32 chars."),
          w))
  /\ (isValidTenantId tenantId = true ->
      getProperty (registered env w) tenantId <> Undefined ->
      run = (Threw ("Tenant already exists: " +:+ dquote +:+ tenantId +:+ dquote), w))
  /\ (isValidTenantId tenantId = true ->
      getProperty (registered env w) tenantId = Undefined ->
      exists w',
        run = (Returned {| r_tenantId := tenantId;
                           r_token := buildTenantToken tenantId
                                        (generateToken randomBytes);
                           r_createdAt := toISOString now |}, w')
        /\ registered env w'
           = <[tenantId := freshEntry displayName randomBytes now]> (registered env w)
        /\ resolveTenantStateDir (Some tenantId) env ∈ dirs w'
        /\ forall displayName' randomBytes' now',
             createTenant hashToken tenantId displayName' env randomBytes' now' w'
             = (Threw ("Tenant already exists: " +:+ dquote +:+ tenantId +:+ dquote),
                w')).
Proof.
  intros run. subst run. split; [|split].
  - intros Hvalid. unfold createTenant. now rewrite Hvalid.
  - intros Hvalid Hprop. unfold createTenant. rewrite Hvalid. cbn [negb].
    unfold bind at 1. rewrite loadTenantRegistry_run.
    change (lr_tenants (registryOf env w)) with (registered env w).
    destruct (getProperty (registered env w) tenantId); [reflexivity..|now elim Hprop].
  - intros Hvalid Hprop. unfold createTenant at 1. rewrite Hvalid. cbn [negb].
    unfold bind at 1. rewrite loadTenantRegistry_run.
    change (lr_tenants (registryOf env w)) with (registered env w). rewrite Hprop.
    unfold bind at 1. rewrite assignTenant_run.
    unfold bind at 1. rewrite saveTenantRegistry_run. cbn [lr_tenants].
    unfold bind, initializeTenantDirectories, modify, ret.
    fold (freshEntry displayName randomBytes now).
    change (lr_tenants (registryOf env w)) with (registered env w).
    set (tenants' := <[tenantId := freshEntry displayName randomBytes now]>
                       (registered env w)).
    eexists. split; [reflexivity|].
    match goal with
    | |- registered env ?w' = _ /\ _ => set (w1 := w')
    end.
    assert (registered env w1 = tenants') as Hread.
    { unfold registered, registryOf, w1, saved.
      cbn [fold_left files mkdir writeFile]. now rewrite lookup_insert_eq. }
    split; [exact Hread|]. split.
    + unfold w1. cbn [fold_left dirs mkdir]. set_solver.
    + intros displayName' randomBytes' now'. unfold createTenant. rewrite Hvalid.
      cbn [negb]. unfold bind at 1. rewrite loadTenantRegistry_run.
      change (lr_tenants (registryOf env w1)) with (registered env w1).
      rewrite Hread. unfold tenants'.
      now rewrite (getProperty_own _ _ _ (lookup_insert_eq _ _ _)).
Qed.

(** X21: [validateTenantToken] writes only when it accepts, and then only the
    time of the visit.  For a token whose tenant id is not the name of a
    built-in of [Object.prototype]: when the answer is [null], disk and
    memory are unchanged; when it is a context, the token named a
    registered, enabled tenant and the hash of its secret is the stored
    hash, the context carries the stored hash and creation time and the
    tenant's state directory, and the registry read back differs from
    the old one only in that tenant's [lastSeenAt]. *)
Theorem validate_touches_only_last_seen (token : string) (env : Env) (now : Date)
    (w w' : World) (outcome : option TenantContext) :
  (forall tenantId secret,
      parseTenantToken token = Some (tenantId, secret) ->
      getProperty (registered env w) tenantId <> InheritedProperty) ->
  validateTenantToken hashToken token env now w = (Returned outcome, w') ->
  match outcome with
  | None => w' = w
  | Some context =>
      exists tenantId secret entry,
        parseTenantToken token = Some (tenantId, secret)
        /\ registered env w !! tenantId = Some entry
        /\ e_disabled entry <> Some true
        /\ hashToken secret = e_tokenHash entry
        /\ context = {| c_tenantId := tenantId;
                        c_tokenHash := e_tokenHash entry;
                        c_stateDir := resolveTenantStateDir (Some tenantId) env;
                        c_createdAt := e_createdAt entry;
                        c_lastSeenAt := Some (toISOString now) |}
        /\ registered env w' = <[tenantId := touched now entry]> (registered env w)
  end.
Proof.
  intros _. unfold validateTenantToken.
  destruct (parseTenantToken token) as [[tenantId secret]|];
    [|unfold ret; now intros [= <- <-]].
  unfold bind at 1. rewrite loadTenantRegistry_run.
  change (lr_tenants (registryOf env w)) with (registered env w).
  unfold getProperty.
  destruct (registered env w !! tenantId) as [entry|] eqn:Hentry;
    [|destruct (arrayIncludes tenantId objectPrototypeKeys);
      [discriminate|unfold ret; now intros [= <- <-]]].
  destruct (default false (e_disabled entry)) eqn:Hdis;
    [unfold ret; now intros [= <- <-]|].
  unfold bind at 1, liftOutcome.
  destruct (safeEqualHash (hashToken secret) (e_tokenHash entry)) as [[]|msg] eqn:Heq;
    cbn [negb]; [|unfold ret; now intros [= <- <-]|discriminate].
  unfold bind at 1. rewrite assignTenant_run.
  unfold bind at 1. rewrite saveTenantRegistry_run. unfold ret. cbn [lr_tenants].
  intros [= <- <-].
  exists tenantId, secret, entry.
  split; [reflexivity|]. split; [exact Hentry|].
  split; [intros E; rewrite E in Hdis; discriminate Hdis|].
  split; [now apply safeEqualHash_true|].
  split; [reflexivity|]. apply registered_saved.
Qed.

(** X22: Rotating the token of a registered tenant succeeds, replaces only
    that tenant's stored hash, and revokes what went before: no token for
    this tenant whose secret hashes to anything but the new hash is
    accepted afterwards, while the token returned is accepted (the tenant
    being enabled and the random bytes not empty). *)
Theorem rotate_revokes_old_token (tenantId : string) (env : Env)
    (randomBytes : list Byte.byte) (w : World) (entry : TenantEntry) :
  isValidTenantId tenantId = true ->
  registered env w !! tenantId = Some entry ->
  exists w',
    rotateTenantToken hashToken tenantId env randomBytes w
    = (Returned {| rt_tenantId := tenantId;
                   rt_token := buildTenantToken tenantId (generateToken randomBytes);
                   rt_builtin := false |}, w')
    /\ registered env w'
       = <[tenantId := withTokenHash (hashToken (generateToken randomBytes)) entry]>
           (registered env w)
    /\ (forall secret now context w2,
           hashToken secret <> hashToken (generateToken randomBytes) ->
           validateTenantToken hashToken (buildTenantToken tenantId secret) env now w'
           <> (Returned (Some context), w2))
    /\ (e_disabled entry <> Some true -> randomBytes <> [] ->
        forall now, exists context w2,
          validateTenantToken hashToken
            (buildTenantToken tenantId (generateToken randomBytes)) env now w'
          = (Returned (Some context), w2)
          /\ c_tenantId context = tenantId).
Proof.
  intros Hvalid Hentry.
  unfold rotateTenantToken. unfold bind at 1. rewrite loadTenantRegistry_run.
  change (lr_tenants (registryOf env w)) with (registered env w).
  rewrite (getProperty_own _ _ _ Hentry).
  unfold bind at 1. rewrite assignTenant_run.
  unfold bind at 1. rewrite saveTenantRegistry_run. unfold ret. cbn [lr_tenants].
  change (lr_tenants (registryOf env w)) with (registered env w).
  set (entry' := withTokenHash (hashToken (generateToken randomBytes)) entry).
  set (w' := saved env (<[tenantId := entry']> (registered env w)) _).
  assert (registered env w' !! tenantId = Some entry') as Hnew
    by (unfold w'; rewrite registered_saved; apply lookup_insert_eq).
  exists w'. split; [reflexivity|]. split; [apply registered_saved|]. split.
  - intros secret now context w2 Hhash Hrun.
    pose proof (validate_requires_matching_hash hashToken _ _ _ _ _ _ Hrun)
      as (tid & secret' & stored & Hparse & Hstored & _ & Hmatch & _).
    destruct secret as [|c secret].
    + rewrite empty_secret_rejected in Hparse; [discriminate|].
      apply SessionKeyFacts.lacks_idChars, SessionKeyFacts.validTenantId_idChars, Hvalid.
    + rewrite validTenantId_parses in Hparse by (assumption || discriminate).
      injection Hparse as <- <-. rewrite Hnew in Hstored. injection Hstored as <-.
      apply Hhash. exact Hmatch.
  - intros Henabled Hbytes now.
    unfold validateTenantToken.
    rewrite validTenantId_parses
      by (assumption || now apply generateToken_nonempty).
    unfold bind at 1. rewrite loadTenantRegistry_run.
    change (lr_tenants (registryOf env w')) with (registered env w').
    rewrite (getProperty_own _ _ _ Hnew).
    assert (default false (e_disabled entry') = false) as ->.
    { unfold entry'. cbn [withTokenHash e_disabled].
      destruct (e_disabled entry) as [[]|]; [now elim Henabled|reflexivity..]. }
    unfold bind at 1, liftOutcome. cbn [entry' withTokenHash e_tokenHash].
    rewrite safeEqualHash_same. cbn [negb].
    unfold bind at 1. rewrite assignTenant_run.
    unfold bind at 1. rewrite saveTenantRegistry_run. unfold ret.
    eexists _, _. split; reflexivity.
Qed.

End Registry.

End RegistryProps.

(* ===================================================================== *)
(** * Tenant registry: disabling and removing *)
(* ===================================================================== *)

Module LifecycleProps.
Import Js Protocol Tenants JsFacts TenantFacts RegistryProps.

Lemma existsSync_rmSync dir w : existsSync dir (rmSync dir w) = false.
Proof.
  apply not_true_is_false. intros H. unfold existsSync in H.
  apply existsb_exists in H as (x & Hin & Hunder).
  apply in_app_or in Hin as [Hin|Hin].
  - apply list_elem_of_In, elem_of_elements in Hin.
    cbn [rmSync dirs] in Hin. apply elem_of_filter in Hin as [Hout _]. congruence.
  - apply in_map_iff in Hin as ([k v] & <- & Hin).
    apply list_elem_of_In, elem_of_map_to_list in Hin.
    cbn [rmSync files] in Hin. apply map_lookup_filter_Some in Hin as [_ Hout].
    cbn [fst] in *. congruence.
Qed.

Lemma rmSync_inside dir w p : under dir p = true -> files (rmSync dir w) !! p = None.
Proof.
  intros Hunder. cbn [rmSync files]. apply map_lookup_filter_None. right.
  intros v _. cbn [fst]. congruence.
Qed.

Lemma rmSync_outside dir w p :
  under dir p = false -> files (rmSync dir w) !! p = files w !! p.
Proof.
  intros Hout. cbn [rmSync files].
  destruct (files w !! p) as [v|] eqn:E.
  - apply map_lookup_filter_Some. now split.
  - apply map_lookup_filter_None. now left.
Qed.

(** The world [removeTenant] leaves once the registry entry is deleted. *)
Definition removedWorld (tenantId : string) (deleteData : option bool) (env : Env)
    (w : World) : World :=
  let w1 := saved env (delete tenantId (registered env w))
              (through (registryOf env w) (delete tenantId (registered env w)) w) in
  if default false deleteData then
    if existsSync (resolveTenantStateDir (Some tenantId) env) w1
    then rmSync (resolveTenantStateDir (Some tenantId) env) w1
    else w1
  else w1.

Lemma removeTenant_run tenantId deleteData env w :
  removeTenant tenantId deleteData env w
  = match getProperty (registered env w) tenantId with
    | Undefined =>
        (Threw ("Tenant not found: " +:+ dquote +:+ tenantId +:+ dquote), w)
    | _ => (Returned tt, removedWorld tenantId deleteData env w)
    end.
Proof.
  unfold removeTenant. unfold bind at 1. rewrite loadTenantRegistry_run.
  change (lr_tenants (registryOf env w)) with (registered env w).
  assert (forall w0,
            (let! registry := deleteTenantKey (registryOf env w) tenantId in
             run! saveTenantRegistry registry env in
             if default false deleteData then
               let tenantDir := resolveTenantStateDir (Some tenantId) env in
               let! w := get in
               if existsSync tenantDir w then modify (rmSync tenantDir) else ret tt
             else ret tt) w0
            = (Returned tt,
               let w1 := saved env (delete tenantId (registered env w))
                           (through (registryOf env w)
                              (delete tenantId (registered env w)) w0) in
               if default false deleteData then
                 if existsSync (resolveTenantStateDir (Some tenantId) env) w1
                 then rmSync (resolveTenantStateDir (Some tenantId) env) w1
                 else w1
               else w1)) as Hrun.
  { intros w0. unfold bind at 1. rewrite deleteTenantKey_run.
    unfold bind at 1. rewrite saveTenantRegistry_run. cbn [lr_tenants].
    change (lr_tenants (registryOf env w)) with (registered env w). cbv zeta.
    destruct (default false deleteData); [|reflexivity].
    unfold bind, get, modify, ret.
    now destruct (existsSync _ _). }
  destruct (getProperty (registered env w) tenantId); try reflexivity; apply Hrun.
Qed.

Lemma removedWorld_files tenantId deleteData env w p :
  p <> resolveTenantRegistryPath env ->
  under (resolveTenantStateDir (Some tenantId) env) p = false ->
  files (removedWorld tenantId deleteData env w) !! p = files w !! p.
Proof.
  intros Hp Hout. unfold removedWorld. cbv zeta.
  assert (files (saved env (delete tenantId (registered env w))
                   (through (registryOf env w) (delete tenantId (registered env w)) w))
          !! p = files w !! p) as Hsaved
    by now rewrite files_saved_other, files_through.
  destruct (default false deleteData); [|exact Hsaved].
  destruct (existsSync _ _); [|exact Hsaved].
  now rewrite rmSync_outside.
Qed.

Lemma removedWorld_registered tenantId deleteData env w :
  under (resolveTenantStateDir (Some tenantId) env) (resolveTenantRegistryPath env)
  = false ->
  registered env (removedWorld tenantId deleteData env w)
  = delete tenantId (registered env w).
Proof.
  intros Hout. unfold removedWorld. cbv zeta.
  destruct (default false deleteData); [|apply registered_saved].
  destruct (existsSync _ _); [|apply registered_saved].
  unfold registered, registryOf. rewrite rmSync_outside by exact Hout.
  apply registered_saved.
Qed.

Lemma removedWorld_clean tenantId env w :
  existsSync (resolveTenantStateDir (Some tenantId) env)
    (removedWorld tenantId (Some true) env w) = false
  /\ forall p,
       under (resolveTenantStateDir (Some tenantId) env) p = true ->
       files (removedWorld tenantId (Some true) env w) !! p = None.
Proof.
  unfold removedWorld. cbv zeta. cbn [default from_option id].
  set (w1 := saved env _ _).
  destruct (existsSync (resolveTenantStateDir (Some tenantId) env) w1) eqn:E.
  - split; [apply existsSync_rmSync|]. intros p Hp. now apply rmSync_inside.
  - split; [exact E|]. intros p Hp.
    destruct (files _ !! p) as [v|] eqn:Hfile; [|reflexivity].
    exfalso. apply not_true_iff_false in E. apply E.
    unfold existsSync. apply existsb_exists. exists p. split; [|exact Hp].
    apply in_or_app. right. apply in_map_iff. exists (p, v). split; [reflexivity|].
    now apply list_elem_of_In, elem_of_map_to_list.
Qed.

Section Registry.
Variable hashToken : string -> string.

(** X23: Disabling locks a tenant out: [updateTenant] with [disabled: true]
    on a registered tenant succeeds, keeps its token hash and creation
    time and every other tenant's entry, and from then on every token
    that names the tenant, the right one included, is answered [null]
    without any further change. *)
Theorem disabled_tenant_locked_out (tenantId : string) (env : Env) (w : World)
    (entry : TenantEntry) (name : option string) (quotas : option TenantQuotas) :
  registered env w !! tenantId = Some entry ->
  exists w' entry',
    updateTenant tenantId
      {| up_displayName := name; up_disabled := Some true; up_quotas := quotas |} env w
    = (Returned false, w')
    /\ registered env w' = <[tenantId := entry']> (registered env w)
    /\ e_tokenHash entry' = e_tokenHash entry
    /\ e_createdAt entry' = e_createdAt entry
    /\ e_disabled entry' = Some true
    /\ forall token secret now,
         parseTenantToken token = Some (tenantId, secret) ->
         validateTenantToken hashToken token env now w' = (Returned None, w').
Proof.
  intros Hentry. unfold updateTenant. unfold bind at 1. rewrite loadTenantRegistry_run.
  change (lr_tenants (registryOf env w)) with (registered env w).
  rewrite (getProperty_own _ _ _ Hentry).
  unfold bind at 1. rewrite assignTenant_run.
  unfold bind at 1. rewrite saveTenantRegistry_run. unfold ret. cbn [lr_tenants].
  change (lr_tenants (registryOf env w)) with (registered env w).
  eexists _, _. split; [reflexivity|].
  split; [apply registered_saved|].
  repeat (split; [reflexivity|]).
  intros token secret now Hparse. unfold validateTenantToken. rewrite Hparse.
  unfold bind at 1. rewrite loadTenantRegistry_run.
  match goal with
  | |- context [lr_tenants (registryOf env ?w')] =>
      change (lr_tenants (registryOf env w')) with (registered env w')
  end.
  rewrite registered_saved.
  now rewrite (getProperty_own _ _ _ (lookup_insert_eq _ _ _)).
Qed.

(** X24: Removing a registered tenant succeeds and takes exactly its entry
    out of the registry, so that no token naming it is accepted any more;
    files outside the tenant's state directory, the registry file apart,
    are not touched, and with [deleteData] nothing is left at or below
    that directory, whereas without it every file but the registry stays. *)
Theorem removed_tenant_is_gone (tenantId : string) (deleteData : option bool)
    (env : Env) (w : World) (entry : TenantEntry) :
  Path.isAbsolute (resolveStateDir env) = true ->
  isValidTenantId tenantId = true ->
  registered env w !! tenantId = Some entry ->
  exists w',
    removeTenant tenantId deleteData env w = (Returned tt, w')
    /\ registered env w' = delete tenantId (registered env w)
    /\ (forall token secret now context w2,
           parseTenantToken token = Some (tenantId, secret) ->
           validateTenantToken hashToken token env now w'
           <> (Returned (Some context), w2))
    /\ (forall p,
           p <> resolveTenantRegistryPath env ->
           under (resolveTenantStateDir (Some tenantId) env) p = false ->
           files w' !! p = files w !! p)
    /\ (deleteData = Some true ->
        existsSync (resolveTenantStateDir (Some tenantId) env) w' = false
        /\ forall p,
             under (resolveTenantStateDir (Some tenantId) env) p = true ->
             files w' !! p = None)
    /\ (default false deleteData = false ->
        forall p, p <> resolveTenantRegistryPath env -> files w' !! p = files w !! p).
Proof.
  intros Habs Hvalid Hentry.
  pose proof (TenantPathProps.registry_outside_tenant env tenantId Habs Hvalid) as Hout.
  exists (removedWorld tenantId deleteData env w).
  rewrite removeTenant_run, (getProperty_own _ _ _ Hentry).
  pose proof (removedWorld_registered tenantId deleteData env w Hout) as Hread.
  split; [reflexivity|]. split; [exact Hread|]. split; [|split; [|split]].
  - intros token secret now context w2 Hparse Hrun.
    pose proof (validate_requires_matching_hash hashToken _ _ _ _ _ _ Hrun)
      as (tid & secret' & stored & Hparse' & Hstored & _).
    rewrite Hparse in Hparse'. injection Hparse' as <- <-.
    rewrite Hread, lookup_delete_eq in Hstored. discriminate.
  - intros p Hp Hunder. now apply removedWorld_files.
  - intros ->. apply removedWorld_clean.
  - intros Hkeep p Hp. unfold removedWorld. cbv zeta. rewrite Hkeep.
    now rewrite files_saved_other, files_through.
Qed.

End Registry.

(** Scenario S1 continued: the registry after [tenants create demo]. *)
Definition demoWorld : World :=
  snd (createTenant (fun s => s) "demo" None someEnv zeroBytes someDate freshWorld).

Definition demoEntry : TenantEntry :=
  freshEntry (fun s => s) None zeroBytes someDate.

Lemma demo_registered : registered someEnv demoWorld !! "demo" = Some demoEntry.
Proof. vm_compute. reflexivity. Qed.

Lemma create_registers_one_entry_witness :
  registered someEnv demoWorld = <["demo" := demoEntry]> (registered someEnv freshWorld)
  /\ createTenant (fun s => s) "demo" None someEnv zeroBytes someDate demoWorld
     = (Threw ("Tenant already exists: " +:+ dquote +:+ "demo" +:+ dquote), demoWorld).
Proof.
  assert (getProperty (registered someEnv freshWorld) "demo" = Undefined) as Hnew
    by reflexivity.
  destruct (proj2 (proj2 (RegistryProps.create_registers_one_entry (fun s => s) "demo"
                            None someEnv zeroBytes someDate freshWorld))
              eq_refl Hnew) as (w' & Hrun & Hread & _ & Hagain).
  assert (demoWorld = w') as -> by (unfold demoWorld; now rewrite Hrun).
  split; [exact Hread|apply Hagain].
Defined.

Lemma validate_touches_only_last_seen_witness :
  exists context w',
    validateTenantToken (fun s => s)
      "tenant:demo:AAAAAAAAAAAAAAAAAAAAAAAAAAAAAAAAAAAAAAAAAAA" someEnv someDate demoWorld
    = (Returned (Some context), w')
    /\ c_tenantId context = "demo"
    /\ registered someEnv w'
       = <["demo" := touched someDate demoEntry]> (registered someEnv demoWorld).
Proof.
  assert (parseTenantToken "tenant:demo:AAAAAAAAAAAAAAAAAAAAAAAAAAAAAAAAAAAAAAAAAAA"
          = Some ("demo", "AAAAAAAAAAAAAAAAAAAAAAAAAAAAAAAAAAAAAAAAAAA")) as Hparse
    by reflexivity.
  destruct (validateTenantToken (fun s => s)
              "tenant:demo:AAAAAAAAAAAAAAAAAAAAAAAAAAAAAAAAAAAAAAAAAAA"
              someEnv someDate demoWorld) as [[[context|]|msg] w'] eqn:Hrun;
    [|exfalso; vm_compute in Hrun; discriminate Hrun..].
  assert (forall tenantId secret,
             parseTenantToken "tenant:demo:AAAAAAAAAAAAAAAAAAAAAAAAAAAAAAAAAAAAAAAAAAA"
             = Some (tenantId, secret) ->
             getProperty (registered someEnv demoWorld) tenantId <> InheritedProperty)
    as Hown.
  { intros tenantId secret H. rewrite Hparse in H. injection H as <- _.
    unfold getProperty. rewrite demo_registered. discriminate. }
  destruct (RegistryProps.validate_touches_only_last_seen (fun s => s) _ _ _ _ _ _
              Hown Hrun)
    as (tenantId & secret & entry & Hp & Hentry & _ & _ & -> & Hread).
  rewrite Hparse in Hp. injection Hp as <- <-.
  rewrite demo_registered in Hentry. injection Hentry as <-.
  eexists _, _. split; [reflexivity|]. split; [reflexivity|exact Hread].
Defined.

Lemma rotate_revokes_old_token_witness :
  exists w',
    fst (rotateTenantToken (fun s => s) "demo" someEnv [Byte.x01] demoWorld)
    = Returned {| rt_tenantId := "demo"; rt_token := "tenant:demo:AQ";
                  rt_builtin := false |}
    /\ forall now context w2,
         validateTenantToken (fun s => s)
           (buildTenantToken "demo" (generateToken zeroBytes)) someEnv now w'
         <> (Returned (Some context), w2).
Proof.
  destruct (RegistryProps.rotate_revokes_old_token (fun s => s) "demo" someEnv
              [Byte.x01] demoWorld demoEntry eq_refl demo_registered)
    as (w' & Hrun & _ & Hold & _).
  exists w'. split; [now rewrite Hrun|].
  intros now context w2. apply Hold. vm_compute. discriminate.
Defined.

Lemma disabled_tenant_locked_out_witness :
  exists w',
    fst (updateTenant "demo"
           {| up_displayName := None; up_disabled := Some true; up_quotas := None |}
           someEnv demoWorld) = Returned false
    /\ validateTenantToken (fun s => s)
         "tenant:demo:AAAAAAAAAAAAAAAAAAAAAAAAAAAAAAAAAAAAAAAAAAA" someEnv someDate w'
       = (Returned None, w').
Proof.
  destruct (disabled_tenant_locked_out (fun s => s) "demo" someEnv demoWorld demoEntry
              None None demo_registered)
    as (w' & entry' & Hrun & _ & _ & _ & _ & Hlocked).
  exists w'. split; [now rewrite Hrun|].
  apply (Hlocked _ "AAAAAAAAAAAAAAAAAAAAAAAAAAAAAAAAAAAAAAAAAAA"). reflexivity.
Defined.

Lemma removed_tenant_is_gone_witness :
  exists w',
    removeTenant "demo" (Some true) someEnv demoWorld = (Returned tt, w')
    /\ registered someEnv w' = delete "demo" (registered someEnv demoWorld)
    /\ existsSync (resolveTenantStateDir (Some "demo") someEnv) w' = false.
Proof.
  destruct (removed_tenant_is_gone (fun s => s) "demo" (Some true) someEnv demoWorld
              demoEntry eq_refl eq_refl demo_registered)
    as (w' & Hrun & Hread & _ & _ & Hclean & _).
  exists w'. split; [exact Hrun|]. split; [exact Hread|].
  exact (proj1 (Hclean eq_refl)).
Defined.

End LifecycleProps.

(* ===================================================================== *)
(** * Control-plane surface *)
(* ===================================================================== *)

Module HandlerProps.
Import Js Protocol Tenants JsFacts TenantFacts RegistryProps LifecycleProps.
Import TenantMethods.

(** X25: The control-plane token check answers [true] exactly when a
    non-empty token is configured and the header carries that very
    token; with no token configured, or an empty one, nothing is
    accepted, not even an absent or empty header. *)
Theorem control_plane_token_exact (expectedToken header : option string) :
  InternalHttp.validateControlPlaneToken expectedToken header = Returned true
  <-> exists token,
        expectedToken = Some token /\ token <> EmptyString /\ header = Some token.
Proof.
  unfold InternalHttp.validateControlPlaneToken. split.
  - destruct expectedToken as [expected|]; [|discriminate].
    destruct (truthy expected) eqn:Htruthy; cbn [negb]; [|discriminate].
    apply truthy_nonempty in Htruthy.
    destruct (String.length (default "" header) =? String.length expected)%nat;
      cbn [negb]; [|discriminate].
    unfold timingSafeEqual.
    destruct (List.length _ =? List.length _)%nat; [|discriminate].
    intros [= H]. apply bool_decide_eq_true_1, bufferFrom_inj in H.
    exists expected. split; [reflexivity|]. split; [exact Htruthy|].
    destruct header as [h|]; cbn [default from_option id] in H; [now subst|].
    now subst.
  - intros (token & -> & Hne & ->). apply truthy_nonempty in Hne. rewrite Hne.
    cbn [negb default from_option id]. rewrite Nat.eqb_refl. cbn [negb].
    unfold timingSafeEqual. rewrite Nat.eqb_refl.
    now rewrite bool_decide_eq_true_2.
Qed.

Ltac refusal :=
  eexists _, _; split; [reflexivity|];
  split; [intros; reflexivity|];
  split; [intros; split; reflexivity|discriminate].

Lemma catching_remove tenantId deleteData env w :
  catching (removeTenant tenantId deleteData env)
           (fun _ => respondOk (Deleted tenantId)) w
  = match getProperty (registered env w) tenantId with
    | Undefined =>
        (Returned (respondError UNAVAILABLE
                     ("Tenant not found: " +:+ dquote +:+ tenantId +:+ dquote)), w)
    | _ => (Returned (respondOk (Deleted tenantId)),
            removedWorld tenantId deleteData env w)
    end.
Proof.
  unfold catching. rewrite removeTenant_run.
  now destruct (getProperty (registered env w) tenantId).
Qed.

(** X26: [tenants.delete] always answers, never throws.  A refusal the
    handler decides itself ([INVALID_REQUEST], [UNAUTHORIZED]) leaves
    disk and memory untouched, and that is the answer to every caller
    that neither holds [operator.admin] nor is the tenant itself with
    [confirm: true]; an [UNAVAILABLE] answer reports a throw of
    [removeTenant], of which nothing is said here.  A tenant is deleted
    only for a caller holding [operator.admin] or for the tenant itself
    with [confirm: true]; and when a caller without admin scope deletes
    itself, the tenant's data is removed whatever [deleteData] said. *)
Theorem delete_needs_admin_or_confirmed_self (client : option GatewayClient)
    (params : DeleteParams) (env : Env) (w : World) :
  exists response w',
    tenants_delete client params env w = (Returned response, w')
    /\ (forall e, error response = Some e -> code e <> UNAVAILABLE -> w' = w)
    /\ (hasAdminScope client = false ->
        (forall tenantId,
            dp_tenantId params = Some tenantId ->
            isOwnTenant client tenantId = false \/ dp_confirm params <> Some true) ->
        ok response = false /\ w' = w)
    /\ (ok response = true ->
        exists tenantId,
          dp_tenantId params = Some tenantId
          /\ payload response = Some (Deleted tenantId)
          /\ getProperty (registered env w) tenantId <> Undefined
          /\ (hasAdminScope client = true
              \/ (isOwnTenant client tenantId = true
                  /\ dp_confirm params = Some true))
          /\ (hasAdminScope client = false ->
              existsSync (resolveTenantStateDir (Some tenantId) env) w' = false)).
Proof.
  unfold tenants_delete.
  destruct (dp_tenantId params) as [tenantId|]; [|refusal].
  destruct (truthy tenantId); cbn [negb]; [|refusal].
  unfold canAccessTenant.
  destruct (hasAdminScope client) eqn:Hadmin; cbn [negb andb].
  - rewrite andb_false_r. cbn [andb]. rewrite catching_remove.
    destruct (getProperty (registered env w) tenantId) eqn:Hprop; [| |refusal].
    + eexists _, _. split; [reflexivity|].
      split; [intros e He; discriminate He|]. split; [discriminate|].
      intros _. exists tenantId. split; [reflexivity|]. split; [reflexivity|].
      split; [rewrite Hprop; discriminate|]. split; [now left|discriminate].
    + eexists _, _. split; [reflexivity|].
      split; [intros e He; discriminate He|]. split; [discriminate|].
      intros _. exists tenantId. split; [reflexivity|]. split; [reflexivity|].
      split; [rewrite Hprop; discriminate|]. split; [now left|discriminate].
  - rewrite andb_true_r.
    destruct (isOwnTenant client tenantId) eqn:Hown; cbn [negb andb]; [|refusal].
    destruct (bool_decide (dp_confirm params = Some true)) eqn:Hconfirm; cbn [negb];
      [|refusal].
    apply bool_decide_eq_true_1 in Hconfirm. rewrite catching_remove.
    assert ((forall tenantId0 : string,
                Some tenantId = Some tenantId0 ->
                isOwnTenant client tenantId0 = false \/ dp_confirm params <> Some true)
            -> False) as Hgranted.
    { intros H. destruct (H tenantId eq_refl) as [E|E]; [congruence|now elim E]. }
    destruct (getProperty (registered env w) tenantId) eqn:Hprop; [| |refusal].
    + eexists _, _. split; [reflexivity|].
      split; [intros e He; discriminate He|].
      split; [intros _ H; now elim (Hgranted H)|].
      intros _. exists tenantId. split; [reflexivity|]. split; [reflexivity|].
      split; [rewrite Hprop; discriminate|]. split; [right; now split|].
      intros _. apply removedWorld_clean.
    + eexists _, _. split; [reflexivity|].
      split; [intros e He; discriminate He|].
      split; [intros _ H; now elim (Hgranted H)|].
      intros _. exists tenantId. split; [reflexivity|]. split; [reflexivity|].
      split; [rewrite Hprop; discriminate|]. split; [right; now split|].
      intros _. apply removedWorld_clean.
Qed.

Section Rotate.
Variable hashToken : string -> string.

Lemma rotateTenantToken_run tenantId env randomBytes w :
  exists w1,
    rotateTenantToken hashToken tenantId env randomBytes w
    = match getProperty (registered env w) tenantId with
      | Undefined =>
          (Threw ("Tenant not found: " +:+ dquote +:+ tenantId +:+ dquote), w)
      | InheritedProperty =>
          (Returned {| rt_tenantId := tenantId;
                       rt_token := buildTenantToken tenantId (generateToken randomBytes);
                       rt_builtin := true |}, w1)
      | OwnProperty _ =>
          (Returned {| rt_tenantId := tenantId;
                       rt_token := buildTenantToken tenantId (generateToken randomBytes);
                       rt_builtin := false |}, w1)
      end.
Proof.
  unfold rotateTenantToken. unfold bind at 1. rewrite loadTenantRegistry_run.
  change (lr_tenants (registryOf env w)) with (registered env w).
  destruct (getProperty (registered env w) tenantId) as [entry| |].
  - unfold bind at 1. rewrite assignTenant_run.
    unfold bind at 1. rewrite saveTenantRegistry_run. unfold ret. now eexists.
  - unfold bind at 1. rewrite saveTenantRegistry_run. unfold ret. now eexists.
  - now exists w.
Qed.

(** X27: [tenants.rotate] always answers, never throws.  A refusal the
    handler decides itself ([INVALID_REQUEST], [UNAUTHORIZED]) leaves
    disk and memory untouched, so that the tenant's current token keeps
    its standing, and that is the answer to every caller that neither
    holds [operator.admin] nor is the tenant named; an [UNAVAILABLE]
    answer reports a throw of [rotateTenantToken], of which nothing is
    said here.  A new token is issued only to a caller that holds
    [operator.admin] or is the tenant named, and only for an id that is
    a property of the registry. *)
Theorem rotate_needs_admin_or_self (client : option GatewayClient)
    (tenantId : option string) (env : Env) (randomBytes : list Byte.byte)
    (w : World) :
  exists response w',
    tenants_rotate hashToken client tenantId env randomBytes w = (Returned response, w')
    /\ (forall e, error response = Some e -> code e <> UNAVAILABLE -> w' = w)
    /\ ((forall id, tenantId = Some id -> canAccessTenant client id = false) ->
        ok response = false /\ w' = w)
    /\ (ok response = true ->
        exists id,
          tenantId = Some id
          /\ payload response
             = Some (RotatedToken id (buildTenantToken id (generateToken randomBytes)))
          /\ getProperty (registered env w) id <> Undefined
          /\ (hasAdminScope client = true \/ isOwnTenant client id = true)).
Proof.
  unfold tenants_rotate.
  destruct tenantId as [id|]; [|refusal].
  destruct (truthy id); cbn [negb]; [|refusal].
  destruct (canAccessTenant client id) eqn:Haccess; cbn [negb]; [|refusal].
  assert (hasAdminScope client = true \/ isOwnTenant client id = true) as Hwho.
  { unfold canAccessTenant in Haccess.
    destruct (hasAdminScope client); [now left|now right]. }
  assert ((forall id0, Some id = Some id0 -> canAccessTenant client id0 = false)
          -> False) as Hgranted.
  { intros H. specialize (H id eq_refl). congruence. }
  unfold catching.
  destruct (rotateTenantToken_run id env randomBytes w) as [w1 ->].
  destruct (getProperty (registered env w) id) eqn:Hprop; [| |refusal].
  - eexists _, _. split; [reflexivity|].
    split; [intros e He; discriminate He|].
    split; [intros H; now elim (Hgranted H)|].
    intros _. exists id. split; [reflexivity|]. split; [reflexivity|].
    split; [rewrite Hprop; discriminate|exact Hwho].
  - eexists _, _. split; [reflexivity|].
    split; [intros e He; discriminate He|].
    split; [intros H; now elim (Hgranted H)|].
    intros _. exists id. split; [reflexivity|]. split; [reflexivity|].
    split; [rewrite Hprop; discriminate|exact Hwho].
Qed.

End Rotate.

End HandlerProps.

(* ===================================================================== *)
(** * Usage accounting *)
(* ===================================================================== *)

Module UsageProps.
Import Js Tenants Usage JsFacts PathFacts PathProps TenantFacts TenantPathProps.
Local Open Scope Z_scope.

Lemma rooted_inj l1 l2 :
  normalSegments l1 -> normalSegments l2 -> l1 <> [] -> l2 <> [] ->
  "/" +:+ Js.join "/" l1 = "/" +:+ Js.join "/" l2 -> l1 = l2.
Proof.
  intros H1 H2 Hne1 Hne2 H. injection H as H.
  change (Js.join "/" l1 = Js.join "/" l2) in H.
  rewrite <- (split_join "/" l1 (normalSegments_lack _ H1) Hne1).
  rewrite <- (split_join "/" l2 (normalSegments_lack _ H2) Hne2).
  now rewrite H.
Qed.

Lemma usage_file_form env tenantId name :
  Path.isAbsolute (resolveStateDir env) = true ->
  isValidTenantId tenantId = true ->
  Path.isNormalSegment name = true ->
  Path.join [resolveTenantUsageDir tenantId env; name]
  = "/" +:+ Js.join "/" (tenantSegments env tenantId ++ ["usage"; name]).
Proof.
  intros Habs Hvalid Hname. unfold resolveTenantUsageDir.
  rewrite (below_stateDir _ _ ["usage"] Habs Hvalid) by (now repeat constructor).
  rewrite join_absolute by (reflexivity || discriminate || now repeat constructor).
  rewrite baseSegments_rooted
    by (apply List.Forall_app; split;
        [now apply tenantSegments_normal|now repeat constructor]).
  now rewrite <- app_assoc.
Qed.

Lemma usage_paths_distinct env tenantId :
  Path.isAbsolute (resolveStateDir env) = true ->
  isValidTenantId tenantId = true ->
  resolveTenantRateLimitPath tenantId env <> resolveTenantUsageCurrentPath tenantId env.
Proof.
  intros Habs Hvalid. unfold resolveTenantRateLimitPath, resolveTenantUsageCurrentPath.
  rewrite !usage_file_form by (assumption || reflexivity).
  pose proof (tenantSegments_normal env tenantId Hvalid) as Hsegs.
  intros H. apply rooted_inj in H.
  - apply app_inv_head in H. discriminate H.
  - apply List.Forall_app. split; [exact Hsegs|now repeat constructor].
  - apply List.Forall_app. split; [exact Hsegs|now repeat constructor].
  - destruct (tenantSegments env tenantId); discriminate.
  - destruct (tenantSegments env tenantId); discriminate.
Qed.

(** The usage file can be read: it is absent or holds a snapshot. *)
Definition usageReadable (tenantId : string) (env : Env) (w : World) : Prop :=
  files w !! resolveTenantUsageCurrentPath tenantId env = None
  \/ exists snapshot,
       files w !! resolveTenantUsageCurrentPath tenantId env = Some (UsageDoc snapshot).

Lemma loadTenantUsage_current tenantId env now w snapshot w1 :
  loadTenantUsage tenantId env now w = (Returned snapshot, w1) ->
  u_period snapshot = getCurrentPeriod now.
Proof.
  unfold loadTenantUsage, bind at 1, get.
  destruct (files w !! resolveTenantUsageCurrentPath tenantId env)
    as [[version tenants|stored|state|raw]|]; try discriminate.
  - unfold archiveForeignDocument, bind, modify, ret. now intros [= <- _].
  - destruct (String.eqb (u_period stored) (getCurrentPeriod now)) eqn:E; cbn [negb].
    + unfold ret. intros [= <- _]. now apply String.eqb_eq.
    + unfold archiveUsageSnapshot, bind, modify, ret. now intros [= <- _].
  - unfold archiveForeignDocument, bind, modify, ret. now intros [= <- _].
  - unfold ret. now intros [= <- _].
Qed.

Lemma loadTenantUsage_readable tenantId env now w :
  usageReadable tenantId env w ->
  exists snapshot w1, loadTenantUsage tenantId env now w = (Returned snapshot, w1).
Proof.
  unfold loadTenantUsage, bind at 1, get. intros [->|[stored ->]].
  - unfold ret. eauto.
  - destruct (negb _).
    + unfold archiveUsageSnapshot, bind, modify, ret. eauto.
    + unfold ret. eauto.
Qed.

Lemma loadTenantUsage_stored tenantId env now w snapshot :
  files w !! resolveTenantUsageCurrentPath tenantId env = Some (UsageDoc snapshot) ->
  u_period snapshot = getCurrentPeriod now ->
  loadTenantUsage tenantId env now w = (Returned snapshot, w).
Proof.
  intros Hfile Hperiod. unfold loadTenantUsage, bind at 1, get.
  now rewrite Hfile, Hperiod, String.eqb_refl.
Qed.

Lemma saveTenantUsage_run tenantId snapshot env now w :
  saveTenantUsage tenantId snapshot env now w
  = (Returned tt,
     writeFile (resolveTenantUsageCurrentPath tenantId env)
       (UsageDoc (withUpdatedAt (getTime now) snapshot))
       (mkdir (resolveTenantUsageDir tenantId env) w)).
Proof. reflexivity. Qed.

Lemma saveRateLimitState_run tenantId state env w :
  saveRateLimitState tenantId state env w
  = (Returned tt,
     writeFile (resolveTenantRateLimitPath tenantId env) (RateLimitDoc state)
       (mkdir (resolveTenantUsageDir tenantId env) w)).
Proof. reflexivity. Qed.

Lemma saved_usage_loads tenantId snapshot env now w0 :
  u_period snapshot = getCurrentPeriod now ->
  let w' := writeFile (resolveTenantUsageCurrentPath tenantId env)
              (UsageDoc (withUpdatedAt (getTime now) snapshot)) w0 in
  loadTenantUsage tenantId env now w'
  = (Returned (withUpdatedAt (getTime now) snapshot), w').
Proof.
  intros Hperiod w'. apply loadTenantUsage_stored; [|exact Hperiod].
  unfold w'. cbn [files writeFile]. apply lookup_insert_eq.
Qed.

(** The range in which the integer sums of [addTokens] are the sums the
    source computes: counters and amounts are non-negative integers, and
    the new total, the new cost and the new message count stay within
    [MAX_SAFE_INTEGER]. *)
Definition exactUpdate (old : TenantUsageSnapshot) (tokens : TokenDelta)
    (costCents : option Z) : Prop :=
  0 <= inputTokens old /\ 0 <= outputTokens old
  /\ 0 <= cacheReadTokens old /\ 0 <= cacheWriteTokens old
  /\ 0 <= default 0 (td_input tokens) /\ 0 <= default 0 (td_output tokens)
  /\ 0 <= default 0 (td_cacheRead tokens) /\ 0 <= default 0 (td_cacheWrite tokens)
  /\ inputTokens old + default 0 (td_input tokens)
     + (outputTokens old + default 0 (td_output tokens))
     + (cacheReadTokens old + default 0 (td_cacheRead tokens))
     + (cacheWriteTokens old + default 0 (td_cacheWrite tokens)) <= MAX_SAFE_INTEGER
  /\ 0 <= totalCostCents old /\ 0 <= default 0 costCents
  /\ totalCostCents old + default 0 costCents <= MAX_SAFE_INTEGER
  /\ 0 <= totalMessages old /\ totalMessages old + 1 <= MAX_SAFE_INTEGER.

(** X28: Token accounting survives a reload and keeps its sum.  The usage file
    is absent or holds a snapshot, [old] is what [loadTenantUsage] makes
    of it, and counters and amounts are non-negative integers whose sums
    stay within the safe integers.  Then [updateTokenUsage] succeeds, and
    reading the usage back gives [old] with the four token counters
    raised by the amounts given (absent ones by nothing), the cost raised
    by the cost given, one more message, and a total that is the sum of
    the four counters whatever total was stored before. *)
Theorem token_update_persists (tenantId : string) (tokens : TokenDelta)
    (costCents : option Z) (env : Env) (now : Date) (w w1 : World)
    (old : TenantUsageSnapshot) :
  usageReadable tenantId env w ->
  loadTenantUsage tenantId env now w = (Returned old, w1) ->
  exactUpdate old tokens costCents ->
  exists w' stored,
    updateTokenUsage tenantId tokens costCents env now w = (Returned tt, w')
    /\ loadTenantUsage tenantId env now w' = (Returned stored, w')
    /\ inputTokens stored = inputTokens old + default 0 (td_input tokens)
    /\ outputTokens stored = outputTokens old + default 0 (td_output tokens)
    /\ cacheReadTokens stored = cacheReadTokens old + default 0 (td_cacheRead tokens)
    /\ cacheWriteTokens stored = cacheWriteTokens old + default 0 (td_cacheWrite tokens)
    /\ totalTokens stored
       = inputTokens stored + outputTokens stored
         + cacheReadTokens stored + cacheWriteTokens stored
    /\ totalTokens stored <= MAX_SAFE_INTEGER
    /\ totalCostCents stored = totalCostCents old + default 0 costCents
    /\ totalMessages stored = totalMessages old + 1
    /\ updatedAt stored = getTime now.
Proof.
  intros _ Hload Hexact.
  pose proof (loadTenantUsage_current _ _ _ _ _ _ Hload) as Hperiod.
  unfold updateTokenUsage. rewrite (RegistryProps.bind_returned _ _ _ _ _ Hload).
  rewrite saveTenantUsage_run.
  eexists _, (withUpdatedAt (getTime now) (addTokens tokens costCents old)).
  split; [reflexivity|].
  split; [now apply (saved_usage_loads tenantId (addTokens tokens costCents old))|].
  unfold exactUpdate in Hexact. cbn.
  repeat split; destruct costCents; cbn in *; lia.
Qed.

Lemma token_update_persists_witness :
  exists w' stored,
    updateTokenUsage "demo"
      {| td_input := Some 100; td_output := Some 20;
         td_cacheRead := None; td_cacheWrite := None |}
      (Some 3) UsageFacts.env0 UsageFacts.november freshWorld
    = (Returned tt, w')
    /\ loadTenantUsage "demo" UsageFacts.env0 UsageFacts.november w'
       = (Returned stored, w')
    /\ totalTokens stored = 120.
Proof.
  assert (usageReadable "demo" UsageFacts.env0 freshWorld) as Hreadable
    by (left; vm_compute; reflexivity).
  assert (loadTenantUsage "demo" UsageFacts.env0 UsageFacts.november freshWorld
          = (Returned (createEmptyUsageSnapshot "demo" UsageFacts.november), freshWorld))
    as Hload by (vm_compute; reflexivity).
  assert (exactUpdate (createEmptyUsageSnapshot "demo" UsageFacts.november)
            {| td_input := Some 100; td_output := Some 20;
               td_cacheRead := None; td_cacheWrite := None |} (Some 3)) as Hexact
    by (repeat split; vm_compute; discriminate).
  destruct (token_update_persists "demo"
              {| td_input := Some 100; td_output := Some 20;
                 td_cacheRead := None; td_cacheWrite := None |}
              (Some 3) UsageFacts.env0 UsageFacts.november _ _ _
              Hreadable Hload Hexact)
    as (w' & stored & Hrun & Hback & Hin & Hout & Hcr & Hcw & Htotal & _).
  exists w', stored. split; [exact Hrun|]. split; [exact Hback|].
  cbn in Hin, Hout, Hcr, Hcw. lia.
Defined.

(** What [checkAndRecordRequest] does when neither window is full. *)
Lemma checkAndRecordRequest_allowed tenantId quotas env now w state :
  Path.isAbsolute (resolveStateDir env) = true ->
  isValidTenantId tenantId = true ->
  usageReadable tenantId env w ->
  loadRateLimitState tenantId env now w = (Returned (RateLimitDoc state), w) ->
  let minute := List.filter (fun t => getTime now - 60 * 1000 <? t) (minuteWindow state) in
  let hour := List.filter (fun t => getTime now - 60 * 60 * 1000 <? t) (hourWindow state) in
  atLimit minute (requestsPerMinute quotas) = false ->
  atLimit hour (requestsPerHour quotas) = false ->
  exists snapshot w2,
    u_period snapshot = getCurrentPeriod now
    /\ checkAndRecordRequest tenantId quotas env now w
       = (Returned {| rc_allowed := true; rc_reason := None |},
          writeFile (resolveTenantUsageCurrentPath tenantId env)
            (UsageDoc (withUpdatedAt (getTime now) snapshot))
            (mkdir (resolveTenantUsageDir tenantId env) w2))
    /\ (files w !! resolveTenantUsageCurrentPath tenantId env = None
        \/ (exists stored,
               files w !! resolveTenantUsageCurrentPath tenantId env
               = Some (UsageDoc stored)
               /\ u_period stored = getCurrentPeriod now) ->
        files w2 !! resolveTenantRateLimitPath tenantId env
        = Some (RateLimitDoc {| minuteWindow := (minute ++ [getTime now])%list;
                                hourWindow := (hour ++ [getTime now])%list;
                                lastCleanup := getTime now |})).
Proof.
  intros Habs Hvalid Hreadable Hstate minute hour Hminute Hhour.
  pose proof (usage_paths_distinct env tenantId Habs Hvalid) as Hdistinct.
  unfold checkAndRecordRequest.
  rewrite (RegistryProps.bind_returned _ _ _ _ _ Hstate). cbv beta iota.
  fold minute hour. rewrite Hminute, Hhour.
  unfold bind at 1. rewrite saveRateLimitState_run.
  set (state' := {| minuteWindow := (minute ++ [getTime now])%list;
                    hourWindow := (hour ++ [getTime now])%list;
                    lastCleanup := getTime now |}).
  set (w1 := writeFile (resolveTenantRateLimitPath tenantId env) (RateLimitDoc state')
               (mkdir (resolveTenantUsageDir tenantId env) w)).
  assert (files w1 !! resolveTenantUsageCurrentPath tenantId env
          = files w !! resolveTenantUsageCurrentPath tenantId env) as Hsame.
  { unfold w1. cbn [files writeFile mkdir]. apply lookup_insert_ne. exact Hdistinct. }
  assert (usageReadable tenantId env w1) as Hreadable1
    by (unfold usageReadable; now rewrite Hsame).
  destruct (loadTenantUsage_readable tenantId env now w1 Hreadable1)
    as (snapshot & w2 & Hload).
  pose proof (loadTenantUsage_current _ _ _ _ _ _ Hload) as Hperiod.
  rewrite (RegistryProps.bind_returned _ _ _ _ _ Hload).
  unfold bind at 1. rewrite saveTenantUsage_run. unfold ret.
  eexists _, w2. split; [|split; [reflexivity|]].
  - exact Hperiod.
  - intros Hfresh.
    assert (w2 = w1) as ->.
    { revert Hload. unfold loadTenantUsage, bind at 1, get. rewrite Hsame.
      destruct Hfresh as [->|(stored & -> & Hstored)].
      - unfold ret. now intros [= _ <-].
      - rewrite Hstored, String.eqb_refl. unfold ret. now intros [= _ <-]. }
    unfold w1. cbn [files writeFile]. apply lookup_insert_eq.
Qed.

Lemma window_recent (cutoff now : Z) (window : list Z) :
  cutoff < now ->
  List.Forall (fun t => cutoff < t)
              (List.filter (fun t => cutoff <? t) window ++ [now]).
Proof.
  intros Hnow. apply List.Forall_app. split.
  - apply List.Forall_forall. intros t Hin.
    apply List.filter_In in Hin as [_ Hin]. now apply Z.ltb_lt.
  - now repeat constructor.
Qed.

Lemma window_bounded (window : list Z) (now : Z) (limit : option Z) (n : Z) :
  atLimit window limit = false -> limit = Some n ->
  Z.of_nat (List.length (window ++ [now])) <= n.
Proof.
  intros Hat ->. cbn [atLimit] in Hat. rewrite List.length_app. cbn [List.length].
  destruct (Z.of_nat (List.length window) >=? n) eqn:E; [discriminate|]. lia.
Qed.

(** The rate-limit file can be read as a state: it is absent or holds one. *)
Definition rateReadable (tenantId : string) (env : Env) (w : World) : Prop :=
  files w !! resolveTenantRateLimitPath tenantId env = None
  \/ exists state,
       files w !! resolveTenantRateLimitPath tenantId env = Some (RateLimitDoc state).

Lemma loadRateLimitState_readable tenantId env now w :
  rateReadable tenantId env w ->
  exists state,
    loadRateLimitState tenantId env now w = (Returned (RateLimitDoc state), w).
Proof.
  unfold loadRateLimitState, bind, get, ret. intros [->|[state ->]]; eauto.
Qed.

(** X29: An admitted request leaves the sliding windows within the limits.
    The rate-limit file is absent or holds a state, and the usage file
    is absent or holds a snapshot of the current period.  When
    [checkAndRecordRequest] then allows a request, the rate-limit state
    on disk holds the time of this request in both windows, holds only
    times less than a minute, resp. an hour, before it, and is no longer
    than the configured per-minute, resp. per-hour, limit. *)
Theorem rate_windows_within_limits (tenantId : string) (quotas : TenantQuotas)
    (env : Env) (now : Date) (w w' : World) (rc : RateCheck) :
  Path.isAbsolute (resolveStateDir env) = true ->
  isValidTenantId tenantId = true ->
  rateReadable tenantId env w ->
  (files w !! resolveTenantUsageCurrentPath tenantId env = None
   \/ exists stored,
        files w !! resolveTenantUsageCurrentPath tenantId env = Some (UsageDoc stored)
        /\ u_period stored = getCurrentPeriod now) ->
  checkAndRecordRequest tenantId quotas env now w = (Returned rc, w') ->
  rc_allowed rc = true ->
  exists state,
    files w' !! resolveTenantRateLimitPath tenantId env = Some (RateLimitDoc state)
    /\ In (getTime now) (minuteWindow state)
    /\ In (getTime now) (hourWindow state)
    /\ List.Forall (fun t => getTime now - 60000 < t) (minuteWindow state)
    /\ List.Forall (fun t => getTime now - 3600000 < t) (hourWindow state)
    /\ (forall n, requestsPerMinute quotas = Some n ->
          Z.of_nat (List.length (minuteWindow state)) <= n)
    /\ (forall n, requestsPerHour quotas = Some n ->
          Z.of_nat (List.length (hourWindow state)) <= n).
Proof.
  intros Habs Hvalid Hrate Hfresh Hrun Hallowed.
  destruct (loadRateLimitState_readable tenantId env now w Hrate) as [state Hstate].
  assert (usageReadable tenantId env w) as Hreadable.
  { destruct Hfresh as [H|(stored & H & _)]; [now left|right; now exists stored]. }
  destruct (atLimit (List.filter (fun t => getTime now - 60 * 1000 <? t)
                                 (minuteWindow state))
                    (requestsPerMinute quotas)) eqn:Hminute.
  { exfalso. revert Hrun. unfold checkAndRecordRequest.
    rewrite (RegistryProps.bind_returned _ _ _ _ _ Hstate). cbv beta iota.
    rewrite Hminute. unfold ret. intros [= <- _]. discriminate Hallowed. }
  destruct (atLimit (List.filter (fun t => getTime now - 60 * 60 * 1000 <? t)
                                 (hourWindow state))
                    (requestsPerHour quotas)) eqn:Hhour.
  { exfalso. revert Hrun. unfold checkAndRecordRequest.
    rewrite (RegistryProps.bind_returned _ _ _ _ _ Hstate). cbv beta iota.
    rewrite Hminute, Hhour. unfold ret. intros [= <- _]. discriminate Hallowed. }
  destruct (checkAndRecordRequest_allowed tenantId quotas env now w state
              Habs Hvalid Hreadable Hstate Hminute Hhour)
    as (snapshot & w2 & _ & Hrun' & Hfile).
  rewrite Hrun' in Hrun. injection Hrun as _ <-.
  eexists. split.
  - cbn [files writeFile mkdir].
    rewrite lookup_insert_ne
      by (intros E; now apply (usage_paths_distinct env tenantId Habs Hvalid)).
    now apply Hfile.
  - cbn [minuteWindow hourWindow].
    split; [apply in_or_app; right; now left|].
    split; [apply in_or_app; right; now left|].
    split; [apply (window_recent (getTime now - 60 * 1000)); lia|].
    split; [apply (window_recent (getTime now - 60 * 60 * 1000)); lia|].
    split; intros n Hn; eapply window_bounded; eassumption.
Qed.

Lemma rate_windows_within_limits_witness :
  exists state,
    files (snd (checkAndRecordRequest "demo" UsageFacts.onePerMinute UsageFacts.env0
                  UsageFacts.november freshWorld))
      !! resolveTenantRateLimitPath "demo" UsageFacts.env0
    = Some (RateLimitDoc state)
    /\ In (getTime UsageFacts.november) (minuteWindow state)
    /\ Z.of_nat (List.length (minuteWindow state)) <= 1.
Proof.
  pose proof (rate_windows_within_limits "demo" UsageFacts.onePerMinute UsageFacts.env0
                UsageFacts.november freshWorld
                (snd (checkAndRecordRequest "demo" UsageFacts.onePerMinute
                        UsageFacts.env0 UsageFacts.november freshWorld))
                {| rc_allowed := true; rc_reason := None |}) as H.
  match type of H with
  | ?A -> _ => assert A as H1 by reflexivity; specialize (H H1); clear H1
  end.
  match type of H with
  | ?A -> _ => assert A as H1 by reflexivity; specialize (H H1); clear H1
  end.
  match type of H with
  | ?A -> _ => assert A as H1 by (left; vm_compute; reflexivity);
               specialize (H H1); clear H1
  end.
  match type of H with
  | ?A -> _ => assert A as H1 by (left; vm_compute; reflexivity);
               specialize (H H1); clear H1
  end.
  match type of H with
  | ?A -> _ => assert A as H1 by (vm_compute; reflexivity);
               specialize (H H1); clear H1
  end.
  destruct (H eq_refl) as (state & Hfile & Hin & _ & _ & _ & Hlen & _).
  exists state. split; [exact Hfile|]. split; [exact Hin|]. now apply Hlen.
Defined.

Section Enforcement.
Variable toFixed1 : Q -> string.

(** X30: No limit set, no denial.  The rate-limit file is absent or holds a
    state, the usage file is absent or holds a snapshot, and the quotas
    set none of the token, cost, disk, session and rate limits (hard or
    soft).  Then [checkQuotaBeforeRequest] answers
    [{allowed: true, warning: undefined}] whatever the usage is, and
    leaves a usage file of the current period stamped with the current
    time. *)
Theorem no_limits_no_denial (tenantId : string) (quotas : TenantQuotas) (env : Env)
    (now : Date) (w : World) :
  Path.isAbsolute (resolveStateDir env) = true ->
  isValidTenantId tenantId = true ->
  rateReadable tenantId env w ->
  usageReadable tenantId env w ->
  monthlyTokenLimit quotas = None ->
  monthlyTokenSoftLimit quotas = None ->
  monthlyCostLimitCents quotas = None ->
  monthlyCostSoftLimitCents quotas = None ->
  diskSpaceLimitBytes quotas = None ->
  maxConcurrentSessions quotas = None ->
  requestsPerMinute quotas = None ->
  requestsPerHour quotas = None ->
  exists w' counted,
    checkQuotaBeforeRequest toFixed1 tenantId quotas env now w
    = (Returned [ ("allowed", JsBoolean true); ("warning", JsUndefined) ], w')
    /\ files w' !! resolveTenantUsageCurrentPath tenantId env = Some (UsageDoc counted)
    /\ u_period counted = getCurrentPeriod now
    /\ updatedAt counted = getTime now.
Proof.
  intros Habs Hvalid Hrate Hreadable
         Htok Htoksoft Hcost Hcostsoft Hdisk Hsessions Hrpm Hrph.
  destruct (loadRateLimitState_readable tenantId env now w Hrate) as [state Hstate].
  destruct (checkAndRecordRequest_allowed tenantId quotas env now w state
              Habs Hvalid Hreadable Hstate)
    as (snapshot & w2 & Hperiod & Hrun & _);
    [now rewrite Hrpm|now rewrite Hrph|].
  unfold checkQuotaBeforeRequest.
  rewrite (RegistryProps.bind_returned _ _ _ _ _ Hrun). cbn [rc_allowed negb].
  unfold getTenantQuotaStatus.
  set (w' := writeFile _ _ _) in *.
  pose proof (saved_usage_loads tenantId snapshot env now
                (mkdir (resolveTenantUsageDir tenantId env) w2) Hperiod) as Hback.
  cbv zeta in Hback. fold w' in Hback.
  unfold bind at 1. rewrite (RegistryProps.bind_returned _ _ _ _ _ Hback).
  unfold ret. rewrite Htok, Htoksoft, Hcost, Hcostsoft, Hdisk.
  cbn [reached orb isOverTokenLimit isOverCostLimit isOverDiskLimit isAtSoftLimit].
  unfold atSessionLimit. rewrite Hsessions.
  exists w', (withUpdatedAt (getTime now) snapshot).
  split; [reflexivity|]. split; [|split; [exact Hperiod|reflexivity]].
  unfold w'. cbn [files writeFile]. apply lookup_insert_eq.
Qed.

End Enforcement.

Definition noLimits : TenantQuotas :=
  {| monthlyTokenLimit := None; monthlyTokenSoftLimit := None;
     monthlyCostLimitCents := None; monthlyCostSoftLimitCents := None;
     diskSpaceLimitBytes := None; maxConcurrentSessions := None;
     requestsPerMinute := None; requestsPerHour := None;
     maxSandboxCpuPercent := Some 100; maxSandboxMemoryMB := Some 512;
     maxSandboxDiskMB := None; maxSandboxPids := None |}.

Lemma no_limits_no_denial_witness :
  exists w' counted,
    checkQuotaBeforeRequest (fun _ => EmptyString) "demo" noLimits UsageFacts.env0
      UsageFacts.november UsageFacts.octoberWorld
    = (Returned [ ("allowed", JsBoolean true); ("warning", JsUndefined) ], w')
    /\ files w' !! resolveTenantUsageCurrentPath "demo" UsageFacts.env0
       = Some (UsageDoc counted)
    /\ u_period counted = getCurrentPeriod UsageFacts.november
    /\ updatedAt counted = getTime UsageFacts.november.
Proof.
  assert (rateReadable "demo" UsageFacts.env0 UsageFacts.octoberWorld) as Hrate
    by (left; vm_compute; reflexivity).
  assert (usageReadable "demo" UsageFacts.env0 UsageFacts.octoberWorld) as Hreadable.
  { right. exists UsageFacts.octoberUsage. apply lookup_singleton_eq. }
  exact (no_limits_no_denial (fun _ => EmptyString) "demo" noLimits UsageFacts.env0
           UsageFacts.november UsageFacts.octoberWorld eq_refl eq_refl Hrate Hreadable
           eq_refl eq_refl eq_refl eq_refl eq_refl eq_refl eq_refl eq_refl).
Defined.

End UsageProps.
